(** * seafile-server: server/access-file.c

    A shallow embedding of the HTTP file-access endpoints of seafile-server
    ([/files/<token>/<name>], [/blks/<token>/<blkid>]) and of the streaming
    engines behind them, together with the properties of its design
    document that can be settled on the code.

    C strings are [string]s (the bytes before the terminating NUL), pointers
    into a string are offsets, block contents are [list byte], fixed-width
    integers are [Z] with the wrap-around written out, and the effects of a
    handler on the request, the transport and the heap are threaded as an
    explicit [World]. *)

From Stdlib Require Import ZArith List String Ascii Bool Lia.
From Stdlib.Strings Require Import Byte.
From Stdlib Require Import Decimal DecimalString DecimalPos DecimalN.
Import ListNotations.

Local Open Scope string_scope.
Local Open Scope Z_scope.

(* ================================================================== *)
(** * C strings and libc / glib helpers *)
(* ================================================================== *)

Module CStr.

(** [p + n] for a pointer [p] into a string. *)
Fixpoint drop (n : nat) (s : string) : string :=
  match n, s with
  | O, _ => s
  | S k, EmptyString => EmptyString
  | S k, String _ r => drop k r
  end.

(** [strchr]: the offset of the first occurrence of [c], [None] for NULL. *)
Fixpoint strchr (s : string) (c : ascii) : option nat :=
  match s with
  | EmptyString => None
  | String a r =>
      if Ascii.eqb a c then Some O
      else match strchr r c with
           | Some k => Some (S k)
           | None => None
           end
  end.

(** [strrchr]: the offset of the last occurrence of [c]. *)
Fixpoint strrchr (s : string) (c : ascii) : option nat :=
  match s with
  | EmptyString => None
  | String a r =>
      match strrchr r c with
      | Some k => Some (S k)
      | None => if Ascii.eqb a c then Some O else None
      end
  end.

(** [strstr (hay, needle) != NULL]. *)
Fixpoint strstr (hay needle : string) : bool :=
  String.prefix needle hay ||
  match hay with
  | EmptyString => false
  | String _ r => strstr r needle
  end.

(** [*(p + n) == '\0'] *)
Definition at_nul (s : string) (n : nat) : bool :=
  match String.get n s with
  | None => true
  | Some _ => false
  end.

Definition isspace (c : ascii) : bool :=
  let n := nat_of_ascii c in
  (Nat.eqb n 32 || (Nat.leb 9 n && Nat.leb n 13))%bool.

Definition digit_val (c : ascii) : option Z :=
  let n := nat_of_ascii c in
  if (Nat.leb 48 n && Nat.leb n 57)%bool then Some (Z.of_nat (n - 48)) else None.

Fixpoint skip_spaces (s : string) : nat * string :=
  match s with
  | String a r =>
      if isspace a then let (k, t) := skip_spaces r in (S k, t) else (O, s)
  | EmptyString => (O, s)
  end.

(** The digit run at the head of [s]: its value on top of [acc] and its
    length. *)
Fixpoint read_digits (s : string) (acc : Z) : Z * nat :=
  match s with
  | String a r =>
      match digit_val a with
      | Some d => let (v, k) := read_digits r (10 * acc + d) in (v, S k)
      | None => (acc, O)
      end
  | EmptyString => (acc, O)
  end.

Definition LLONG_MAX : Z := 2 ^ 63 - 1.
Definition LLONG_MIN : Z := - 2 ^ 63.

Definition clamp_ll (v : Z) : Z :=
  if v >? LLONG_MAX then LLONG_MAX
  else if v <? LLONG_MIN then LLONG_MIN
  else v.

(** [strtoll (s, &end_ptr, 10)]: the value and the offset of [end_ptr].
    Leading white space and one sign are accepted; with no digit there is
    no conversion: the value is 0 and [end_ptr] is [s] itself. *)
Definition strtoll (s : string) : Z * nat :=
  let (nsp, s1) := skip_spaces s in
  let '(neg, nsign, s2) :=
    match s1 with
    | String "-"%char r => (true, 1%nat, r)
    | String "+"%char r => (false, 1%nat, r)
    | _ => (false, 0%nat, s1)
    end in
  let (v, nd) := read_digits s2 0 in
  match nd with
  | O => (0, O)
  | _ => (clamp_ll (if neg then - v else v), (nsp + nsign + nd)%nat)
  end.

(** [g_ascii_tolower] on every character ([g_string_ascii_down]). *)
Definition ascii_tolower (c : ascii) : ascii :=
  let n := nat_of_ascii c in
  if (Nat.leb 65 n && Nat.leb n 90)%bool then ascii_of_nat (n + 32) else c.

Fixpoint ascii_down (s : string) : string :=
  match s with
  | EmptyString => EmptyString
  | String a r => String (ascii_tolower a) (ascii_down r)
  end.

(** [snprintf (buf, size, ...)] keeps at most [size - 1] characters of the
    formatted text. *)
Definition snprintf (size : nat) (formatted : string) : string :=
  String.substring 0 (size - 1) formatted.

(** [g_strsplit (s, "/", 0)]: the empty string gives the empty vector;
    otherwise k delimiters give k + 1 tokens. *)
Fixpoint split_slash (s : string) (cur : string) : list string :=
  match s with
  | EmptyString => [cur]
  | String a r =>
      if Ascii.eqb a "/" then cur :: split_slash r ""
      else split_slash r (cur ++ String a "")
  end.

Definition g_strsplit_slash (s : string) : list string :=
  match s with
  | EmptyString => []
  | _ => split_slash s ""
  end.

End CStr.

(** Unsigned 64-bit and 32-bit wrap-around. *)
Definition u64 (z : Z) : Z := z mod 2 ^ 64.

(** A [guint64] read back as a [gint64]. *)
Definition as_i64 (z : Z) : Z :=
  if u64 z <? 2 ^ 63 then u64 z else u64 z - 2 ^ 64.

(** ["%" G_GUINT64_FORMAT] *)
Definition fmt_u64 (z : Z) : string := NilZero.string_of_uint (N.to_uint (Z.to_N z)).

(** ["%" G_GINT64_FORMAT] *)
Definition fmt_i64 (z : Z) : string := NilZero.string_of_int (Z.to_int z).

(* ================================================================== *)
(** * The range parser *)
(* ================================================================== *)

(** What a call of [parse_range_val] does: [RangeFault] when it
    dereferences the pointer [NULL + 1], [RangeInvalid] for the return
    value [FALSE], [RangeOk start end] for [TRUE] with the two
    out-parameters. *)
Inductive range_result : Type :=
| RangeFault
| RangeInvalid
| RangeOk (start end_ : Z).

(** The three modes leave [error], [start] and [end]; [None] is
    [error = TRUE]. *)
Definition parse_range_modes (tmp : string) (minus : nat) (fsize : Z)
  : option (Z * Z) :=
  if Nat.eqb minus 0 then
    (* -num mode *)
    let (v, end_ptr) := CStr.strtoll tmp in
    let start := u64 v in
    if start =? 0 then None
    else if CStr.at_nul tmp end_ptr then Some (u64 (start + fsize), u64 (fsize - 1))
    else None
  else if CStr.at_nul tmp (S minus) then
    (* num- mode *)
    let (v, end_ptr) := CStr.strtoll tmp in
    let start := u64 v in
    if Nat.eqb end_ptr minus then Some (start, u64 (fsize - 1)) else None
  else
    (* num-num mode *)
    let (v, end_ptr) := CStr.strtoll tmp in
    let start := u64 v in
    if Nat.eqb end_ptr minus then
      let rest := CStr.drop (S minus) tmp in
      let (v2, end_ptr2) := CStr.strtoll rest in
      if CStr.at_nul rest end_ptr2 then Some (start, u64 v2) else None
    else None.

Definition parse_range_val (byte_ranges : string) (fsize : Z) : range_result :=
  match CStr.strchr byte_ranges "=" with
  | None => RangeFault
  | Some eq_off =>
      let tmp := CStr.drop (S eq_off) byte_ranges in
      match CStr.strchr tmp "-" with
      | None => RangeInvalid
      | Some minus =>
          match parse_range_modes tmp minus fsize with
          | None => RangeInvalid
          | Some (start, end0) =>
              let end1 := if end0 >? u64 (fsize - 1) then u64 (fsize - 1) else end0 in
              if start >? end1 then RangeInvalid
              else RangeOk start end1
          end
      end
  end.

(* ================================================================== *)
(** * Data model *)
(* ================================================================== *)

Definition bytes := list byte.

(** evhtp status codes. *)
Definition EVHTP_RES_OK : Z := 200.
Definition EVHTP_RES_PARTIAL : Z := 206.
Definition EVHTP_RES_NOTMOD : Z := 304.
Definition EVHTP_RES_BADREQ : Z := 400.
Definition EVHTP_RES_FORBIDDEN : Z := 403.
Definition EVHTP_RES_RANGENOTSC : Z := 416.
Definition EVHTP_RES_SERVERR : Z := 500.

Definition BUFFER_SIZE : Z := 1024 * 64.

(** [int] as the value of a conversion from a wider integer. *)
Definition to_int (z : Z) : Z := (z + 2 ^ 31) mod 2 ^ 32 - 2 ^ 31.

(** [memcpy (data->store_id, repo->store_id, 36)] into a zeroed
    [char[37]]. *)
Definition copy_store_id (s : string) : string := String.substring 0 36 s.

(** The file object of the file-system manager. [n_blocks] is the length
    of the block-id array. *)
Record Seafile : Type := mkSeafile {
  file_size : Z;
  blk_sha1s : list string
}.

Definition n_blocks (f : Seafile) : Z := Z.of_nat (List.length (blk_sha1s f)).

(** [file->blk_sha1s[i]]; [None] when [i] is outside the array. *)
Definition blk_at (f : Seafile) (i : Z) : option string :=
  if i <? 0 then None else nth_error (blk_sha1s f) (Z.to_nat i).

Record SeafRepo : Type := mkSeafRepo {
  store_id : string;
  version : Z;
  encrypted : bool;
  enc_version : Z
}.

Record SeafileWebAccess : Type := mkWebAccess {
  wa_repo_id : string;
  wa_obj_id : string;
  wa_op : string;
  wa_username : string
}.

Record SeafileCryptKey : Type := mkCryptKey {
  key_hex : string;
  iv_hex : string
}.

Record SeafileCrypt : Type := mkCrypt {
  crypt_version : Z;
  crypt_key : bytes;
  crypt_iv : bytes
}.

(** The process-wide service object [seaf] with the managers the handlers
    call, each one as the function it answers with. *)
Record SeafileSession : Type := mkSession {
  fs_mgr_get_seafile : string -> Z -> string -> option Seafile;
  fs_mgr_object_exists : string -> Z -> string -> bool;
  block_mgr_content : string -> Z -> string -> option bytes;
  web_at_mgr_query : string -> option SeafileWebAccess;
  repo_mgr_get_repo : string -> option SeafRepo;
  passwd_mgr_get_decrypt_key : string -> string -> option SeafileCryptKey;
  (** [time (NULL)] as [strftime] renders it for [Last-Modified] *)
  http_date_now : string
}.

Inductive htp_method : Type := htp_method_GET | htp_method_HEAD | htp_method_OTHER.

Record Request : Type := mkRequest {
  req_method : htp_method;
  req_path_full : string;
  req_headers_in : list (string * string)
}.

(** [evhtp_kv_find] / [evhtp_header_find]: first header whose key matches,
    compared without case. *)
Fixpoint evhtp_kv_find (hs : list (string * string)) (key : string) : option string :=
  match hs with
  | [] => None
  | (k, v) :: r =>
      if String.eqb (CStr.ascii_down k) (CStr.ascii_down key) then Some v
      else evhtp_kv_find r key
  end.

(** An open block: its size and the bytes not read yet. *)
Record BlockHandle : Type := mkHandle {
  bh_size : Z;
  bh_rest : bytes
}.

(** Which callbacks the transport has installed. *)
Inductive Callbacks : Type :=
| CbEvhtp
| CbSendfile
| CbFileRange
| CbSendBlock.

(** A statistics message: store, user, operation, byte count. *)
Record StatMsg : Type := mkStat {
  st_store : string;
  st_user : string;
  st_oper : string;
  st_bytes : Z
}.

(** Objects the request still holds. *)
Record Heap : Type := mkHeap {
  file_refs : Z;
  block_handles : Z;
  cipher_ctxs : Z;
  crypt_objs : Z
}.

(** Everything a handler can change outside its own engine state. *)
Record World : Type := mkWorld {
  w_headers_out : list (string * string);
  w_status : option Z;
  w_body : bytes;
  w_reply_done : bool;
  w_conn_freed : bool;
  w_paused : bool;
  w_cb : Callbacks;
  w_stats : list StatMsg;
  w_heap : Heap;
  w_fault : bool
}.

Definition world0 : World :=
  mkWorld [] None [] false false false CbEvhtp [] (mkHeap 0 0 0 0) false.

Definition heap_clean (h : Heap) : Prop :=
  file_refs h = 0 /\ block_handles h = 0 /\ cipher_ctxs h = 0 /\ crypt_objs h = 0.

Module W.

Definition with_heap (f : Heap -> Heap) (w : World) : World :=
  mkWorld (w_headers_out w) (w_status w) (w_body w) (w_reply_done w)
          (w_conn_freed w) (w_paused w) (w_cb w) (w_stats w) (f (w_heap w))
          (w_fault w).

Definition file_ref (d : Z) : World -> World :=
  with_heap (fun h => mkHeap (file_refs h + d) (block_handles h) (cipher_ctxs h) (crypt_objs h)).
Definition handle (d : Z) : World -> World :=
  with_heap (fun h => mkHeap (file_refs h) (block_handles h + d) (cipher_ctxs h) (crypt_objs h)).
Definition cipher (d : Z) : World -> World :=
  with_heap (fun h => mkHeap (file_refs h) (block_handles h) (cipher_ctxs h + d) (crypt_objs h)).
Definition crypt (d : Z) : World -> World :=
  with_heap (fun h => mkHeap (file_refs h) (block_handles h) (cipher_ctxs h) (crypt_objs h + d)).

(** [evhtp_headers_add_header (req->headers_out, evhtp_header_new (k, v))] *)
Definition add_header (k v : string) (w : World) : World :=
  mkWorld (w_headers_out w ++ [(k, v)])%list (w_status w) (w_body w) (w_reply_done w)
          (w_conn_freed w) (w_paused w) (w_cb w) (w_stats w) (w_heap w) (w_fault w).

(** [evhtp_send_reply]: status line, headers and the buffered body, complete. *)
Definition send_reply (code : Z) (w : World) : World :=
  mkWorld (w_headers_out w) (Some code) (w_body w) true
          (w_conn_freed w) (w_paused w) (w_cb w) (w_stats w) (w_heap w) (w_fault w).

(** [evhtp_send_reply_start]: status line and headers; the body follows. *)
Definition send_reply_start (code : Z) (w : World) : World :=
  mkWorld (w_headers_out w) (Some code) (w_body w) (w_reply_done w)
          (w_conn_freed w) (w_paused w) (w_cb w) (w_stats w) (w_heap w) (w_fault w).

Definition send_reply_end (w : World) : World :=
  mkWorld (w_headers_out w) (w_status w) (w_body w) true
          (w_conn_freed w) (w_paused w) (w_cb w) (w_stats w) (w_heap w) (w_fault w).

(** [bufferevent_write] and [evbuffer_add_printf (req->buffer_out, ...)] *)
Definition write (b : bytes) (w : World) : World :=
  mkWorld (w_headers_out w) (w_status w) (w_body w ++ b)%list (w_reply_done w)
          (w_conn_freed w) (w_paused w) (w_cb w) (w_stats w) (w_heap w) (w_fault w).

Definition connection_free (w : World) : World :=
  mkWorld (w_headers_out w) (w_status w) (w_body w) (w_reply_done w)
          true (w_paused w) (w_cb w) (w_stats w) (w_heap w) (w_fault w).

Definition pause (p : bool) (w : World) : World :=
  mkWorld (w_headers_out w) (w_status w) (w_body w) (w_reply_done w)
          (w_conn_freed w) p (w_cb w) (w_stats w) (w_heap w) (w_fault w).

(** [bufferevent_setcb], and the restoring of the saved callbacks. *)
Definition setcb (cb : Callbacks) (w : World) : World :=
  mkWorld (w_headers_out w) (w_status w) (w_body w) (w_reply_done w)
          (w_conn_freed w) (w_paused w) cb (w_stats w) (w_heap w) (w_fault w).

Definition send_statistic_msg (store user oper : string) (n : Z) (w : World) : World :=
  mkWorld (w_headers_out w) (w_status w) (w_body w) (w_reply_done w)
          (w_conn_freed w) (w_paused w) (w_cb w)
          (w_stats w ++ [mkStat store user oper n])%list (w_heap w) (w_fault w).

(** The handler left defined behaviour (an index outside an array, a
    pointer derived from NULL). *)
Definition fault (w : World) : World :=
  mkWorld (w_headers_out w) (w_status w) (w_body w) (w_reply_done w)
          (w_conn_freed w) (w_paused w) (w_cb w) (w_stats w) (w_heap w) true.

End W.

(** All values of a response header, in the order they were added. *)
Definition header_values (w : World) (key : string) : list string :=
  map snd (filter (fun kv => String.eqb (fst kv) key) (w_headers_out w)).

(* ================================================================== *)
(** * Content types and the user-agent test *)
(* ================================================================== *)

Definition ftmap : list (string * string) :=
  [ ("txt", "text/plain");
    ("doc", "application/vnd.ms-word");
    ("docx", "application/vnd.openxmlformats-officedocument.wordprocessingml.document");
    ("ppt", "application/vnd.ms-powerpoint");
    ("pptx", "application/vnd.openxmlformats-officedocument.presentationml.presentation");
    ("xls", "application/vnd.ms-excel");
    ("xlsx", "application/vnd.openxmlformats-officedocument.spreadsheetml.sheet");
    ("pdf", "application/pdf");
    ("zip", "application/zip");
    ("mp3", "audio/mp3");
    ("mpeg", "video/mpeg");
    ("mp4", "video/mp4");
    ("jpg", "image/jpeg");
    ("JPG", "image/jpeg");
    ("jpeg", "image/jpeg");
    ("JPEG", "image/jpeg");
    ("png", "image/png");
    ("PNG", "image/png");
    ("gif", "image/gif");
    ("GIF", "image/gif");
    ("svg", "image/svg+xml");
    ("SVG", "image/svg+xml") ].

Fixpoint ftmap_lookup (tbl : list (string * string)) (p : string) : option string :=
  match tbl with
  | [] => None
  | (suffix, type) :: r => if String.eqb p suffix then Some type else ftmap_lookup r p
  end.

Definition parse_content_type (filename : string) : option string :=
  match CStr.strrchr filename "." with
  | None => None
  | Some dot => ftmap_lookup ftmap (CStr.drop (S dot) filename)
  end.

Definition test_firefox (req : Request) : bool :=
  match evhtp_kv_find (req_headers_in req) "User-Agent" with
  | None => false
  | Some user_agent => CStr.strstr (CStr.ascii_down user_agent) "firefox"
  end.

(** [g_strcmp0 (a, b) != 0] where [a] may be NULL. *)
Definition g_strcmp0_ne (a : option string) (b : string) : bool :=
  match a with
  | Some s => negb (String.eqb s b)
  | None => true
  end.

(** The double-quote character of the disposition formats. *)
Definition dquote : string := String (ascii_of_nat 34) EmptyString.

(** The response content type both [do_file] and [do_file_range] send. *)
Definition content_type_of (type : option string) : string :=
  match type with
  | Some t => if CStr.strstr t "text" then t ++ "; " ++ "charset=gbk" else t
  | None => "application/octet-stream"
  end.

(* ================================================================== *)
(** * A small store to run the handlers on *)
(* ================================================================== *)

Module Sample.

Definition blkA : string := "aaaaaaaaaaaaaaaaaaaaaaaaaaaaaaaaaaaaaaaa".
Definition blkB : string := "bbbbbbbbbbbbbbbbbbbbbbbbbbbbbbbbbbbbbbbb".
Definition blkC : string := "cccccccccccccccccccccccccccccccccccccccc".

Definition sid : string := "0123456789abcdef0123456789abcdef0123".

Definition dataA : bytes := repeat x61 100.
Definition dataB : bytes := repeat x62 100.
Definition dataC : bytes := repeat x63 50.

(** Three blocks of 100, 100 and 50 bytes. *)
Definition blocks (store : string) (ver : Z) (id : string) : option bytes :=
  if negb (String.eqb store sid) then None
  else if String.eqb id blkA then Some dataA
  else if String.eqb id blkB then Some dataB
  else if String.eqb id blkC then Some dataC
  else None.

Definition file : Seafile := mkSeafile 250 [blkA; blkB; blkC].

Definition repo (enc : bool) : SeafRepo := mkSeafRepo sid 1 enc 2.

(** One token ["T"] for the file ["F"] of repository ["R"], with the
    operation [op]; the repository is encrypted when [enc]. *)
Definition seaf (op : string) (enc : bool) : SeafileSession :=
  mkSession (fun _ _ id => if String.eqb id "F" then Some file else None)
            (fun _ _ id => String.eqb id "F")
            blocks
            (fun t => if String.eqb t "T"
                      then Some (mkWebAccess "R" "F" op "alice") else None)
            (fun r => if String.eqb r "R" then Some (repo enc) else None)
            (fun _ _ => if enc then Some (mkCryptKey "00" "00") else None)
            "Fri, 30 Oct 2026 00:00:00 GMT".

(** A stand-in for the cipher: every byte is decrypted on its own, so the
    context carries nothing and the final step adds nothing. *)
Definition dec_byte (b : byte) : byte :=
  match Byte.of_N (N.lxor (Byte.to_N b) 32) with
  | Some b' => b'
  | None => b
  end.

Definition decrypt_init (v : Z) (key iv : bytes) : option unit := Some tt.

Definition decrypt_update (c : unit) (b : bytes) : option (unit * bytes) :=
  Some (tt, map dec_byte b).

Definition decrypt_final (c : unit) : option bytes := Some [].

Definition hex_to_rawdata (s : string) (n : nat) : bytes := repeat x00 n.

Definition PATH_MAX : nat := 4096.

Definition get (path : string) (headers : list (string * string)) : Request :=
  mkRequest htp_method_GET path headers.

Definition head (path : string) : Request :=
  mkRequest htp_method_HEAD path [].

End Sample.

(** An archive to run the archive handler on: the token ["Z"] of a
    directory download, its archive of 250 bytes, and a JSON object as
    the list of its string members. *)
Module SampleArchive.

Definition json : Type := list (string * string).

Definition loadb (s : string) : option json :=
  if String.eqb s "{dir_name: photos}" then Some [("dir_name", "photos")]
  else if String.eqb s "{file_list: [a, b]}" then Some [("file_list", "[a, b]")]
  else None.

Definition has_member (o : json) (k : string) : bool :=
  existsb (fun kv => String.eqb (fst kv) k) o.

Definition get_string_member (o : json) (k : string) : option string :=
  option_map snd (find (fun kv => String.eqb (fst kv) k) o).

Definition zip_path (token : string) : option string :=
  if String.eqb token "Z" then Some "/tmp/zip-Z" else None.

Definition content : bytes := (Sample.dataA ++ Sample.dataB ++ Sample.dataC)%list.

Definition stat (path : string) : option Z :=
  if String.eqb path "/tmp/zip-Z" then Some 250 else None.

Definition open (path : string) : option bytes :=
  if String.eqb path "/tmp/zip-Z" then Some content else None.

Definition date : string := "2026-10-30".

Definition info : SeafileWebAccess :=
  mkWebAccess "R" "{dir_name: photos}" "download-dir" "alice".

Definition seaf : SeafileSession :=
  mkSession (fun _ _ _ => None) (fun _ _ _ => false) Sample.blocks
            (fun t => if String.eqb t "Z" then Some info else None)
            (fun _ => None) (fun _ _ => None)
            "Fri, 30 Oct 2026 00:00:00 GMT".

End SampleArchive.

(** The sample store with the third block of the file lost. *)
Module SampleGap.

Definition blocks (store : string) (ver : Z) (id : string) : option bytes :=
  if String.eqb id Sample.blkC then None else Sample.blocks store ver id.

Definition seaf : SeafileSession :=
  mkSession (fun _ _ id => if String.eqb id "F" then Some Sample.file else None)
            (fun _ _ id => String.eqb id "F")
            blocks
            (fun t => if String.eqb t "T"
                      then Some (mkWebAccess "R" "F" "download" "alice") else None)
            (fun r => if String.eqb r "R" then Some (Sample.repo false) else None)
            (fun _ _ => None)
            "Fri, 30 Oct 2026 00:00:00 GMT".

End SampleGap.

(** The sample store with a file that has no block. *)
Module SampleEmpty.

Definition file : Seafile := mkSeafile 0 [].

Definition seaf : SeafileSession :=
  mkSession (fun _ _ id => if String.eqb id "E" then Some file else None)
            (fun _ _ id => String.eqb id "E")
            Sample.blocks
            (fun t => if String.eqb t "T"
                      then Some (mkWebAccess "R" "E" "download" "alice") else None)
            (fun r => if String.eqb r "R" then Some (Sample.repo false) else None)
            (fun _ _ => None)
            "Fri, 30 Oct 2026 00:00:00 GMT".

End SampleEmpty.

(* ================================================================== *)
(** * The handlers and their streaming engines *)
(* ================================================================== *)

Section Server.

(** The decryption primitives of seafile-crypt and OpenSSL, the hex
    decoder of utils and the path limit of common.h are declared outside
    this file; they are taken as they are called. A [None] is the failure
    return of the primitive. *)
Variable EVP_CIPHER_CTX : Type.
Variable seafile_decrypt_init : Z -> bytes -> bytes -> option EVP_CIPHER_CTX.
Variable EVP_DecryptUpdate : EVP_CIPHER_CTX -> bytes -> option (EVP_CIPHER_CTX * bytes).
Variable EVP_DecryptFinal_ex : EVP_CIPHER_CTX -> option bytes.
Variable hex_to_rawdata : string -> nat -> bytes.
Variable SEAF_PATH_MAX : nat.

(** [extern SeafileSession *seaf;] *)
Variable seaf : SeafileSession.

(** ** Block manager *)

Definition seaf_block_manager_open_block (store : string) (ver : Z) (blk_id : string)
  : option BlockHandle :=
  match block_mgr_content seaf store ver blk_id with
  | Some d => Some (mkHandle (Z.of_nat (List.length d)) d)
  | None => None
  end.

(** [n = seaf_block_manager_read_block (mgr, handle, buf, len)] with
    [int len]: the count as the [int] it is returned in, the bytes put in
    [buf], and the handle after the read. An open block is read without
    I/O errors, and a read delivers the [len] bytes asked for or what is
    left of the block. *)
Definition seaf_block_manager_read_block (h : BlockHandle) (len : Z)
  : Z * bytes * BlockHandle :=
  let buf := firstn (Z.to_nat len) (bh_rest h) in
  (to_int (Z.of_nat (List.length buf)), buf,
   mkHandle (bh_size h) (skipn (Z.to_nat len) (bh_rest h))).

(** [bmd->size] of [seaf_block_manager_stat_block]. *)
Definition seaf_block_manager_stat_block (store : string) (ver : Z) (blk_id : string)
  : option Z :=
  match block_mgr_content seaf store ver blk_id with
  | Some d => Some (Z.of_nat (List.length d))
  | None => None
  end.

Definition seaf_block_manager_stat_block_by_handle (h : BlockHandle) : option Z :=
  Some (bh_size h).

(** ** Whole-file engine *)

Record SendfileData : Type := mkSendfileData {
  sf_file : Seafile;
  sf_crypt : option SeafileCrypt;
  sf_enc_init : bool;
  sf_ctx : option EVP_CIPHER_CTX;
  sf_handle : option BlockHandle;
  sf_remain : Z;
  sf_idx : Z;
  sf_store_id : string;
  sf_repo_version : Z;
  sf_user : string;
  sf_token_type : string;
  sf_saved_cb : Callbacks
}.

Definition sf_set_handle (h : option BlockHandle) (d : SendfileData) : SendfileData :=
  mkSendfileData (sf_file d) (sf_crypt d) (sf_enc_init d) (sf_ctx d) h (sf_remain d)
                 (sf_idx d) (sf_store_id d) (sf_repo_version d) (sf_user d)
                 (sf_token_type d) (sf_saved_cb d).

Definition sf_set_remain (r : Z) (d : SendfileData) : SendfileData :=
  mkSendfileData (sf_file d) (sf_crypt d) (sf_enc_init d) (sf_ctx d) (sf_handle d) r
                 (sf_idx d) (sf_store_id d) (sf_repo_version d) (sf_user d)
                 (sf_token_type d) (sf_saved_cb d).

Definition sf_set_ctx (init : bool) (c : option EVP_CIPHER_CTX) (d : SendfileData)
  : SendfileData :=
  mkSendfileData (sf_file d) (sf_crypt d) init c (sf_handle d) (sf_remain d)
                 (sf_idx d) (sf_store_id d) (sf_repo_version d) (sf_user d)
                 (sf_token_type d) (sf_saved_cb d).

Definition sf_set_idx (i : Z) (d : SendfileData) : SendfileData :=
  mkSendfileData (sf_file d) (sf_crypt d) (sf_enc_init d) (sf_ctx d) (sf_handle d)
                 (sf_remain d) i (sf_store_id d) (sf_repo_version d) (sf_user d)
                 (sf_token_type d) (sf_saved_cb d).

Definition free_sendfile_data (data : SendfileData) (w : World) : World :=
  let w := match sf_handle data with Some _ => W.handle (-1) w | None => w end in
  let w := if sf_enc_init data then W.cipher (-1) w else w in
  let w := W.file_ref (-1) w in
  match sf_crypt data with Some _ => W.crypt (-1) w | None => w end.

(** The label [err:] of [write_data_cb]. *)
Definition write_data_err (data : SendfileData) (w : World)
  : option SendfileData * World :=
  (None, free_sendfile_data data (W.connection_free w)).

(** The block-opening prologue of [write_data_cb]: the open handle with
    the state, or the state to leave through [err:] with. *)
Definition write_data_open (blk_id : string) (data : SendfileData) (w : World)
  : (BlockHandle * SendfileData * World) + (SendfileData * World) :=
  match sf_handle data with
  | Some h => inl (h, data, w)
  | None =>
      match seaf_block_manager_open_block (sf_store_id data) (sf_repo_version data) blk_id with
      | None => inr (data, w)
      | Some h =>
          let data := sf_set_handle (Some h) data in
          let w := W.handle 1 w in
          match seaf_block_manager_stat_block_by_handle h with
          | None => inr (data, w)
          | Some size =>
              let data := sf_set_remain size data in
              match sf_crypt data with
              | None => inl (h, data, w)
              | Some c =>
                  match seafile_decrypt_init (crypt_version c) (crypt_key c) (crypt_iv c) with
                  | None => inr (data, w)
                  | Some cx => inl (h, sf_set_ctx true (Some cx) data, W.cipher 1 w)
                  end
              end
          end
      end
  end.

(** The sending of a chunk [buf] of [n > 0] bytes. *)
Definition write_data_send (buf : bytes) (data : SendfileData) (w : World)
  : option SendfileData * World :=
  match sf_crypt data with
  | None => (Some data, W.write buf w)
  | Some _ =>
      match sf_ctx data with
      | None => (None, W.fault w)
      | Some cx =>
          match EVP_DecryptUpdate cx buf with
          | None => write_data_err data w
          | Some (cx1, dec_out) =>
              let data := sf_set_ctx (sf_enc_init data) (Some cx1) data in
              if sf_remain data =? 0 then
                match EVP_DecryptFinal_ex cx1 with
                | None => write_data_err data w
                | Some fin => (Some data, W.write (dec_out ++ fin)%list w)
                end
              else (Some data, W.write dec_out w)
          end
      end
  end.

(** [write_data_cb] from the label [next:] on. [gas] bounds the number of
    [goto next] jumps by the number of blocks left; it is never used up
    (see [write_data_cb]). A result [None] means the engine state was
    freed. *)
Fixpoint write_data_next (gas : nat) (data : SendfileData) (w : World)
  : option SendfileData * World :=
  match gas with
  | O => (None, W.fault w)
  | S gas' =>
      match blk_at (sf_file data) (sf_idx data) with
      | None => (None, W.fault w)
      | Some blk_id =>
          match write_data_open blk_id data w with
          | inr (data, w) => write_data_err data w
          | inl (handle, data, w) =>
              let '(n, buf, handle') := seaf_block_manager_read_block handle BUFFER_SIZE in
              let data := sf_set_handle (Some handle') data in
              let data := sf_set_remain (u64 (sf_remain data - n)) data in
              if n <? 0 then write_data_err data w
              else if n =? 0 then
                let w := W.handle (-1) w in
                let data := sf_set_handle None data in
                let (data, w) :=
                  match sf_crypt data with
                  | Some _ => (sf_set_ctx false (sf_ctx data) data, W.cipher (-1) w)
                  | None => (data, w)
                  end in
                if sf_idx data =? n_blocks (sf_file data) - 1 then
                  let w := W.setcb (sf_saved_cb data) w in
                  let w := W.pause false w in
                  let w := W.send_reply_end w in
                  let w :=
                    if negb (String.eqb (sf_token_type data) "view") then
                      let oper :=
                        if String.eqb (sf_token_type data) "download-link"
                        then "link-file-download" else "web-file-download" in
                      W.send_statistic_msg (sf_store_id data) (sf_user data) oper
                                           (file_size (sf_file data)) w
                    else w in
                  (None, free_sendfile_data data w)
                else write_data_next gas' (sf_set_idx (sf_idx data + 1) data) w
              else write_data_send buf data w
          end
      end
  end.

Definition write_data_cb (data : SendfileData) (w : World)
  : option SendfileData * World :=
  write_data_next (S (Z.to_nat (n_blocks (sf_file data) - sf_idx data))) data w.


(** The disposition value [do_file] formats into [cont_filename]. *)
Definition do_file_disposition (req : Request) (operation filename : string) : string :=
  if (String.eqb operation "download" || String.eqb operation "download-link")%bool then
    CStr.snprintf SEAF_PATH_MAX
      ("attachment;filename*=" ++ dquote ++ "utf-8' '" ++ filename ++ dquote)
  else if test_firefox req then
    CStr.snprintf SEAF_PATH_MAX
      ("inline;filename*=" ++ dquote ++ "utf-8' '" ++ filename ++ dquote)
  else
    CStr.snprintf SEAF_PATH_MAX
      ("inline;filename=" ++ dquote ++ filename ++ dquote).

(** [do_file]: the return value, the engine state it installed (if any),
    and the world after it. *)
Definition do_file (req : Request) (repo : SeafRepo) (file_id filename operation : string)
           (crypt_key : option SeafileCryptKey) (user : string) (w : World)
  : Z * option SendfileData * World :=
  match fs_mgr_get_seafile seaf (store_id repo) (version repo) file_id with
  | None => (-1, None, w)
  | Some file =>
      let w := W.file_ref 1 w in
      let (crypt, w) :=
        match crypt_key with
        | Some k =>
            let enc_key :=
              if enc_version repo =? 1 then hex_to_rawdata (key_hex k) 16
              else hex_to_rawdata (key_hex k) 32 in
            let enc_iv := hex_to_rawdata (iv_hex k) 16 in
            (Some (mkCrypt (enc_version repo) enc_key enc_iv), W.crypt 1 w)
        | None => (None, w)
        end in
      let w := W.add_header "Access-Control-Allow-Origin" "*" w in
      let w := W.add_header "Content-Security-Policy" "sandbox" w in
      let type := parse_content_type filename in
      let w := W.add_header "Content-Type" (content_type_of type) w in
      let w := W.add_header "Content-Length" (fmt_i64 (as_i64 (file_size file))) w in
      let w := W.add_header "Content-Disposition"
                 (do_file_disposition req operation filename) w in
      let w :=
        if g_strcmp0_ne type "image/jpg"
        then W.add_header "X-Content-Type-Options" "nosniff" w else w in
      match req_method req with
      | htp_method_HEAD => (0, None, W.send_reply EVHTP_RES_OK w)
      | _ =>
          if n_blocks file =? 0 then
            (0, None, W.file_ref (-1) (W.send_reply EVHTP_RES_OK w))
          else
            let data :=
              mkSendfileData file crypt false None None 0 0
                             (copy_store_id (store_id repo))
                             (version repo) user operation (w_cb w) in
            let w := W.setcb CbSendfile w in
            let w := W.pause true w in
            let w := W.send_reply_start EVHTP_RES_OK w in
            (0, Some data, w)
      end
  end.

(** ** Byte-range engine *)

Record SendFileRangeData : Type := mkRangeData {
  fr_file : Seafile;
  fr_handle : option BlockHandle;
  fr_blk_idx : Z;
  fr_start_off : Z;
  fr_range_remain : Z;
  fr_store_id : string;
  fr_repo_version : Z;
  fr_user : string;
  fr_token_type : string;
  fr_saved_cb : Callbacks
}.

Definition fr_set_handle (h : option BlockHandle) (d : SendFileRangeData)
  : SendFileRangeData :=
  mkRangeData (fr_file d) h (fr_blk_idx d) (fr_start_off d) (fr_range_remain d)
              (fr_store_id d) (fr_repo_version d) (fr_user d) (fr_token_type d)
              (fr_saved_cb d).

Definition fr_set_blk_idx (i : Z) (d : SendFileRangeData) : SendFileRangeData :=
  mkRangeData (fr_file d) (fr_handle d) i (fr_start_off d) (fr_range_remain d)
              (fr_store_id d) (fr_repo_version d) (fr_user d) (fr_token_type d)
              (fr_saved_cb d).

Definition fr_set_range_remain (r : Z) (d : SendFileRangeData) : SendFileRangeData :=
  mkRangeData (fr_file d) (fr_handle d) (fr_blk_idx d) (fr_start_off d) r
              (fr_store_id d) (fr_repo_version d) (fr_user d) (fr_token_type d)
              (fr_saved_cb d).

Definition free_send_file_range_data (data : SendFileRangeData) (w : World) : World :=
  let w := match fr_handle data with Some _ => W.handle (-1) w | None => w end in
  W.file_ref (-1) w.

(** The [for] loop of [get_start_block_handle] from index [i] on, over the
    block ids not visited yet: [None] when a stat fails, otherwise the
    index it stops at, [tolsize] there and the last [blkid] assigned. *)
Fixpoint start_block_scan (store : string) (ver : Z) (blks : list string)
         (i tolsize start : Z) (blkid : option string)
  : option (Z * Z * option string) :=
  match blks with
  | [] => Some (i, tolsize, blkid)
  | b :: r =>
      match seaf_block_manager_stat_block store ver b with
      | None => None
      | Some size =>
          if start <? u64 (tolsize + size) then Some (i, tolsize, Some b)
          else start_block_scan store ver r (i + 1) (u64 (tolsize + size)) start (Some b)
      end
  end.

(** [get_start_block_handle]: the handle and [*blk_idx], or NULL. *)
Definition get_start_block_handle (store : string) (ver : Z) (file : Seafile)
           (start : Z) (w : World) : option (BlockHandle * Z) * World :=
  match start_block_scan store ver (blk_sha1s file) 0 0 start None with
  | None => (None, w)
  | Some (i, tolsize, blkid) =>
      if i =? n_blocks file then (None, w)
      else
        match blkid with
        | None => (None, W.fault w)
        | Some blkid =>
            match seaf_block_manager_open_block store ver blkid with
            | None => (None, w)
            | Some handle =>
                let w := W.handle 1 w in
                if start >? tolsize then
                  let '(n, _, handle') :=
                    seaf_block_manager_read_block handle (to_int (start - tolsize)) in
                  if negb (u64 n =? u64 (start - tolsize))
                  then (None, W.handle (-1) w)
                  else (Some (handle', i), w)
                else (Some (handle, i), w)
            end
        end
  end.

Definition finish_file_range_request (data : SendFileRangeData) (w : World) : World :=
  let w := W.setcb (fr_saved_cb data) w in
  let w := W.pause false w in
  let w := W.send_reply_end w in
  free_send_file_range_data data w.

(** The label [err:] of [write_file_range_cb]. *)
Definition write_file_range_err (data : SendFileRangeData) (w : World)
  : option SendFileRangeData * World :=
  (None, free_send_file_range_data data (W.connection_free w)).

(** [write_file_range_cb] from the label [next:] on; [gas] as in
    [write_data_next]. *)
Fixpoint write_file_range_next (gas : nat) (data : SendFileRangeData) (w : World)
  : option SendFileRangeData * World :=
  match gas with
  | O => (None, W.fault w)
  | S gas' =>
      match blk_at (fr_file data) (fr_blk_idx data) with
      | None => (None, W.fault w)
      | Some blk_id =>
          let opened :=
            match fr_handle data with
            | Some h => Some (h, w)
            | None =>
                match seaf_block_manager_open_block (fr_store_id data)
                                                    (fr_repo_version data) blk_id with
                | Some h => Some (h, W.handle 1 w)
                | None => None
                end
            end in
          match opened with
          | None => write_file_range_err data w
          | Some (handle, w) =>
              let bsize :=
                to_int (if fr_range_remain data <? BUFFER_SIZE
                        then fr_range_remain data else BUFFER_SIZE) in
              let '(n, buf, handle') := seaf_block_manager_read_block handle bsize in
              let data := fr_set_handle (Some handle') data in
              let data := fr_set_range_remain (u64 (fr_range_remain data - n)) data in
              if n <? 0 then write_file_range_err data w
              else if n =? 0 then
                let w := W.handle (-1) w in
                let data := fr_set_handle None data in
                write_file_range_next gas' (fr_set_blk_idx (fr_blk_idx data + 1) data) w
              else
                let w := W.write buf w in
                if fr_range_remain data =? 0 then
                  let w :=
                    if u64 (fr_start_off data + n) >=? file_size (fr_file data) then
                      let oper :=
                        if String.eqb (fr_token_type data) "download-link"
                        then "link-file-download" else "web-file-download" in
                      W.send_statistic_msg (fr_store_id data) (fr_user data) oper
                                           (file_size (fr_file data)) w
                    else w in
                  (None, finish_file_range_request data w)
                else (Some data, w)
          end
      end
  end.

Definition write_file_range_cb (data : SendFileRangeData) (w : World)
  : option SendFileRangeData * World :=
  let started :=
    if fr_blk_idx data =? -1 then
      match get_start_block_handle (fr_store_id data) (fr_repo_version data)
                                   (fr_file data) (fr_start_off data) w with
      | (Some (h, i), w) => inl (fr_set_blk_idx i (fr_set_handle (Some h) data), w)
      | (None, w) => inr (data, w)
      end
    else inl (data, w) in
  match started with
  | inr (data, w) => write_file_range_err data w
  | inl (data, w) =>
      write_file_range_next
        (S (Z.to_nat (n_blocks (fr_file data) - fr_blk_idx data))) data w
  end.


Definition set_resp_disposition (req : Request) (operation filename : string)
           (w : World) : World :=
  let cont_filename :=
    if String.eqb operation "download" then
      if test_firefox req
      then "attachment;filename*=" ++ dquote ++ "utf-8' '" ++ filename ++ dquote
      else "attachment;filename=" ++ dquote ++ filename ++ dquote
    else
      if test_firefox req
      then "inline;filename*=" ++ dquote ++ "utf-8' '" ++ filename ++ dquote
      else "inline;filename=" ++ dquote ++ filename ++ dquote in
  W.add_header "Content-Disposition" cont_filename w.

Definition do_file_range (req : Request) (repo : SeafRepo)
           (file_id filename operation byte_ranges user : string) (w : World)
  : Z * option SendFileRangeData * World :=
  match fs_mgr_get_seafile seaf (store_id repo) (version repo) file_id with
  | None => (-1, None, w)
  | Some file =>
      let w := W.file_ref 1 w in
      if n_blocks file =? 0 then
        (0, None, W.file_ref (-1) (W.send_reply EVHTP_RES_OK w))
      else
        match parse_range_val byte_ranges (file_size file) with
        | RangeFault => (0, None, W.fault w)
        | RangeInvalid =>
            let w := W.file_ref (-1) w in
            let w := W.add_header "Content-Range" ("bytes */" ++ fmt_u64 (file_size file)) w in
            (0, None, W.send_reply EVHTP_RES_RANGENOTSC w)
        | RangeOk start end_ =>
            let w := W.add_header "Accept-Ranges" "bytes" w in
            let w := W.add_header "Content-Security-Policy" "sandbox" w in
            let type := parse_content_type filename in
            let w := W.add_header "Content-Type" (content_type_of type) w in
            let w := W.add_header "Content-Length" (fmt_u64 (u64 (end_ - start + 1))) w in
            let w := W.add_header "Content-Range"
                       ("bytes" ++ " " ++ fmt_u64 start ++ "-" ++ fmt_u64 end_
                                ++ "/" ++ fmt_u64 (file_size file)) w in
            let w := set_resp_disposition req operation filename w in
            let w :=
              if g_strcmp0_ne type "image/jpg"
              then W.add_header "X-Content-Type-Options" "nosniff" w else w in
            let data :=
              mkRangeData file None (-1) start (u64 (end_ - start + 1))
                          (copy_store_id (store_id repo)) (version repo) user operation
                          (w_cb w) in
            let w := W.setcb CbFileRange w in
            let w := W.pause true w in
            let w := W.send_reply_start EVHTP_RES_PARTIAL w in
            (0, Some data, w)
        end
  end.

(** ** Single-block engine *)

Record SendBlockData : Type := mkBlockData {
  sb_block_id : string;
  sb_handle : option BlockHandle;
  sb_bsize : Z;
  sb_remain : Z;
  sb_store_id : string;
  sb_repo_version : Z;
  sb_user : string;
  sb_saved_cb : Callbacks
}.

Definition sb_set_handle (h : option BlockHandle) (r : Z) (d : SendBlockData)
  : SendBlockData :=
  mkBlockData (sb_block_id d) h (sb_bsize d) r (sb_store_id d) (sb_repo_version d)
              (sb_user d) (sb_saved_cb d).

Definition free_sendblock_data (data : SendBlockData) (w : World) : World :=
  match sb_handle data with Some _ => W.handle (-1) w | None => w end.

Definition write_block_data_cb (data : SendBlockData) (w : World)
  : option SendBlockData * World :=
  let opened :=
    match sb_handle data with
    | Some h => Some (h, data, w)
    | None =>
        match seaf_block_manager_open_block (sb_store_id data) (sb_repo_version data)
                                            (sb_block_id data) with
        | Some h => Some (h, sb_set_handle (Some h) (sb_bsize data) data, W.handle 1 w)
        | None => None
        end
    end in
  match opened with
  | None => (None, free_sendblock_data data (W.connection_free w))
  | Some (handle, data, w) =>
      let '(n, buf, handle') := seaf_block_manager_read_block handle (1024 * 64) in
      let data := sb_set_handle (Some handle') ((sb_remain data - n) mod 2 ^ 32) data in
      if n <? 0 then (None, free_sendblock_data data (W.connection_free w))
      else if n =? 0 then
        let w := W.handle (-1) w in
        let data := sb_set_handle None (sb_remain data) data in
        let w := W.setcb (sb_saved_cb data) w in
        let w := W.pause false w in
        let w := W.send_reply_end w in
        let w := W.send_statistic_msg (sb_store_id data) (sb_user data)
                                      "web-file-download" (sb_bsize data) w in
        (None, free_sendblock_data data w)
      else (Some data, W.write buf w)
  end.


(** [memcmp (a, b, 40) == 0] on two C strings. *)
Definition memcmp40_eq (a b : string) : bool :=
  String.eqb (String.substring 0 40 a) (String.substring 0 40 b).

(** The search loop of [do_block]: [Some bsize] when [found]. *)
Fixpoint do_block_find (store : string) (ver : Z) (blks : list string) (blk_id : string)
  : option Z :=
  match blks with
  | [] => None
  | b :: r =>
      if memcmp40_eq b blk_id then
        match seaf_block_manager_stat_block store ver blk_id with
        | Some size => if size >=? 0 then Some size else None
        | None => None
        end
      else do_block_find store ver r blk_id
  end.

Definition do_block (req : Request) (repo : SeafRepo) (user file_id blk_id : string)
           (w : World) : Z * option SendBlockData * World :=
  match fs_mgr_get_seafile seaf (store_id repo) (version repo) file_id with
  | None => (-1, None, w)
  | Some file =>
      let w := W.file_ref 1 w in
      let found := do_block_find (store_id repo) (version repo) (blk_sha1s file) blk_id in
      let w := W.file_ref (-1) w in
      match found with
      | None => (0, None, W.send_reply EVHTP_RES_BADREQ w)
      | Some bsize =>
          let w := W.add_header "Access-Control-Allow-Origin" "*" w in
          let cont_filename :=
            if test_firefox req
            then CStr.snprintf SEAF_PATH_MAX
                   ("attachment;filename*=" ++ dquote ++ "utf-8' '" ++ blk_id ++ dquote)
            else CStr.snprintf SEAF_PATH_MAX
                   ("attachment;filename=" ++ dquote ++ blk_id ++ dquote) in
          let w := W.add_header "Content-Disposition" cont_filename w in
          let w := W.add_header "Content-Length" (fmt_u64 bsize) w in
          let data :=
            mkBlockData blk_id None bsize 0 (copy_store_id (store_id repo))
                        (version repo) user (w_cb w) in
          let w := W.setcb CbSendBlock w in
          let w := W.pause true w in
          let w := W.send_reply_start EVHTP_RES_OK w in
          (0, Some data, w)
      end
  end.

(** ** Request dispatcher *)

(** The engine a handler installed on the connection. *)
Inductive Engine : Type :=
| EngSendfile (data : SendfileData)
| EngFileRange (data : SendFileRangeData)
| EngSendBlock (data : SendBlockData).

(** [can_use_cached_content]: the answer and the world. *)
Definition can_use_cached_content (req : Request) (w : World) : bool * World :=
  match evhtp_kv_find (req_headers_in req) "If-Modified-Since" with
  | Some _ => (true, W.send_reply EVHTP_RES_NOTMOD w)
  | None =>
      let w := W.add_header "Last-Modified" (http_date_now seaf) w in
      let w := W.add_header "Cache-Control" "max-age=3600" w in
      (false, w)
  end.

Definition LF : string := String (ascii_of_nat 10) "".

(** The label [on_error:] of the dispatchers:
    [evbuffer_add_printf (req->buffer_out, "%s\n", error)] and
    [evhtp_send_reply (req, error_code)]. *)
Definition on_error (error : string) (error_code : Z) (w : World) : World :=
  W.send_reply error_code (W.write (list_byte_of_string (error ++ LF)) w).

Definition access_cb (req : Request) (w : World) : option Engine * World :=
  let parts := CStr.g_strsplit_slash (CStr.drop 1 (req_path_full req)) in
  match parts with
  | p0 :: token :: filename :: _ =>
      if negb (String.eqb p0 "files") then (None, on_error "Invalid URL" EVHTP_RES_BADREQ w)
      else
        match web_at_mgr_query seaf token with
        | None => (None, on_error "Access token not found" EVHTP_RES_FORBIDDEN w)
        | Some webaccess =>
            let repo_id := wa_repo_id webaccess in
            let data := wa_obj_id webaccess in
            let operation := wa_op webaccess in
            let user := wa_username webaccess in
            if (negb (String.eqb operation "view") &&
                negb (String.eqb operation "download") &&
                negb (String.eqb operation "download-link"))%bool
            then (None, on_error "Operation does not match access token."
                                 EVHTP_RES_FORBIDDEN w)
            else
              match can_use_cached_content req w with
              | (true, w) => (None, w)
              | (false, w) =>
                  let byte_ranges := evhtp_kv_find (req_headers_in req) "Range" in
                  match repo_mgr_get_repo seaf repo_id with
                  | None => (None, on_error ("Bad repo id" ++ LF) EVHTP_RES_BADREQ w)
                  | Some repo =>
                      let key :=
                        if encrypted repo
                        then passwd_mgr_get_decrypt_key seaf repo_id user else None in
                      if (encrypted repo && match key with None => true | Some _ => false end)%bool
                      then (None, on_error
                                    "Repo is encrypted. Please provide password to view it."
                                    EVHTP_RES_BADREQ w)
                      else if negb (fs_mgr_object_exists seaf (store_id repo) (version repo) data)
                      then (None, on_error ("Invalid file id" ++ LF) EVHTP_RES_BADREQ w)
                      else
                        match (if encrypted repo then None else byte_ranges) with
                        | Some byte_ranges =>
                            match do_file_range req repo data filename operation
                                                byte_ranges user w with
                            | (ret, eng, w) =>
                                if ret <? 0
                                then (None, on_error ("Internal server error" ++ LF)
                                                     EVHTP_RES_SERVERR w)
                                else (option_map EngFileRange eng, w)
                            end
                        | None =>
                            match do_file req repo data filename operation key user w with
                            | (ret, eng, w) =>
                                if ret <? 0
                                then (None, on_error ("Internal server error" ++ LF)
                                                     EVHTP_RES_SERVERR w)
                                else (option_map EngSendfile eng, w)
                            end
                        end
                  end
              end
        end
  | _ => (None, on_error "Invalid URL" EVHTP_RES_BADREQ w)
  end.

Definition access_blks_cb (req : Request) (w : World) : option Engine * World :=
  let parts := CStr.g_strsplit_slash (CStr.drop 1 (req_path_full req)) in
  match parts with
  | p0 :: token :: blkid :: _ =>
      if negb (String.eqb p0 "blks") then (None, on_error "Invalid URL" EVHTP_RES_BADREQ w)
      else
        match web_at_mgr_query seaf token with
        | None => (None, on_error "Access token not found" EVHTP_RES_FORBIDDEN w)
        | Some webaccess =>
            match can_use_cached_content req w with
            | (true, w) => (None, w)
            | (false, w) =>
                let repo_id := wa_repo_id webaccess in
                let id := wa_obj_id webaccess in
                let operation := wa_op webaccess in
                let user := wa_username webaccess in
                match repo_mgr_get_repo seaf repo_id with
                | None => (None, on_error ("Bad repo id" ++ LF) EVHTP_RES_BADREQ w)
                | Some repo =>
                    if negb (fs_mgr_object_exists seaf (store_id repo) (version repo) id)
                    then (None, on_error ("Invalid file id" ++ LF) EVHTP_RES_BADREQ w)
                    else if String.eqb operation "downloadblks" then
                      match do_block req repo user id blkid w with
                      | (ret, eng, w) =>
                          if ret <? 0
                          then (* [error] is still NULL here; glibc prints it so *)
                               (None, on_error "(null)" EVHTP_RES_SERVERR w)
                          else (option_map EngSendBlock eng, w)
                      end
                    else (None, w)
                end
            end
        end
  | _ => (None, on_error "Invalid URL" EVHTP_RES_BADREQ w)
  end.

(** ** The transport

    After the reply is started the transport calls the installed write
    callback each time its output buffer has drained, until the engine
    restores the saved callbacks or frees the connection. [ticks] bounds
    the number of calls. A call is made only after the previous one has
    returned: the synchronous re-entry a TLS bufferevent may do inside
    [bufferevent_write_buffer] is not modelled. *)

Fixpoint run_sendfile (ticks : nat) (data : SendfileData) (w : World)
  : option SendfileData * World :=
  match ticks with
  | O => (Some data, w)
  | S k =>
      match write_data_cb data w with
      | (Some data', w') => run_sendfile k data' w'
      | (None, w') => (None, w')
      end
  end.

Fixpoint run_file_range (ticks : nat) (data : SendFileRangeData) (w : World)
  : option SendFileRangeData * World :=
  match ticks with
  | O => (Some data, w)
  | S k =>
      match write_file_range_cb data w with
      | (Some data', w') => run_file_range k data' w'
      | (None, w') => (None, w')
      end
  end.

(** A request served to its end: the handler, then the transport driving
    whatever engine the handler installed. *)
Definition serve_files (ticks : nat) (req : Request) (w : World)
  : option Engine * World :=
  match access_cb req w with
  | (Some (EngSendfile data), w) =>
      let (d, w) := run_sendfile ticks data w in (option_map EngSendfile d, w)
  | (Some (EngFileRange data), w) =>
      let (d, w) := run_file_range ticks data w in (option_map EngFileRange d, w)
  | r => r
  end.

(** The transport driving the single-block engine. *)
Fixpoint run_send_block (ticks : nat) (data : SendBlockData) (w : World)
  : option SendBlockData * World :=
  match ticks with
  | O => (Some data, w)
  | S k =>
      match write_block_data_cb data w with
      | (Some data', w') => run_send_block k data' w'
      | (None, w') => (None, w')
      end
  end.

(** ** Archive download

    [access_zip_cb] serves the archive the zip download manager has
    prepared for a token. The JSON library, the manager and the file
    system are outside this file and taken as they are called: a [None]
    is the NULL or the negative return of the function. [seaf_stat] gives
    [st_size]; [g_open] gives what can be read through the descriptor;
    [local_date_now] is [time (NULL)] as [strftime] renders it with
    ["%Y-%m-%d"]. *)

Variable json_t : Type.
Variable json_loadb : string -> option json_t.
Variable json_object_has_member : json_t -> string -> bool.
Variable json_object_get_string_member : json_t -> string -> option string.
Variable zip_download_mgr_get_zip_file_path : string -> option string.
Variable seaf_stat : string -> option Z.
Variable g_open : string -> option bytes.
Variable local_date_now : string.

Definition MULTI_DOWNLOAD_FILE_PREFIX : string := "documents-export-".

(** What the archive path changes besides the [World]: the descriptors
    it holds open, the tokens whose zip progress it has deleted, in
    order, and whether its callbacks are the ones installed on the
    bufferevent. *)
Record ZipLedger : Type := mkZipLedger {
  zl_open_fds : Z;
  zl_deleted : list string;
  zl_dir_cb : bool
}.

Definition ledger0 : ZipLedger := mkZipLedger 0 [] false.

Record SendDirData : Type := mkDirData {
  zd_remain : Z;
  zd_total_size : Z;
  (** what is still to be read through [zipfd] *)
  zd_zipfd : bytes;
  zd_zipfile : string;
  zd_token : string;
  zd_user : string;
  zd_token_type : string;
  zd_repo_id : string;
  zd_saved_cb : Callbacks
}.

Definition zd_set_read (fd : bytes) (remain : Z) (d : SendDirData) : SendDirData :=
  mkDirData remain (zd_total_size d) fd (zd_zipfile d) (zd_token d) (zd_user d)
            (zd_token_type d) (zd_repo_id d) (zd_saved_cb d).

(** [readn (fd, buf, n)]: up to [n] bytes, fewer only at the end of the
    file; the count as the [int] it is returned in. An open file is read
    without I/O errors. *)
Definition readn (fd : bytes) (n : Z) : Z * bytes * bytes :=
  let buf := firstn (Z.to_nat n) fd in
  (to_int (Z.of_nat (List.length buf)), buf, skipn (Z.to_nat n) fd).

Definition free_senddir_data (data : SendDirData) (z : ZipLedger) : ZipLedger :=
  mkZipLedger (zl_open_fds z - 1) (zl_deleted z ++ [zd_token data])%list (zl_dir_cb z).

Definition write_dir_data_cb (data : SendDirData) (w : World) (z : ZipLedger)
  : option SendDirData * World * ZipLedger :=
  let '(n, buf, fd') := readn (zd_zipfd data) (64 * 1024) in
  let data := zd_set_read fd' (zd_remain data) data in
  if n <? 0 then
    (None, W.connection_free w, free_senddir_data data z)
  else if n >? 0 then
    let w := W.write buf w in
    let data := zd_set_read (zd_zipfd data) (u64 (zd_remain data - n)) data in
    if zd_remain data =? 0 then
      let w := W.setcb (zd_saved_cb data) w in
      let z := mkZipLedger (zl_open_fds z) (zl_deleted z) false in
      let w := W.pause false w in
      let w := W.send_reply_end w in
      let oper :=
        if (String.eqb (zd_token_type data) "download-dir-link" ||
            String.eqb (zd_token_type data) "download-multi-link")%bool
        then "link-file-download" else "web-file-download" in
      let w := W.send_statistic_msg (zd_repo_id data) (zd_user data) oper
                                    (zd_total_size data) w in
      (None, w, free_senddir_data data z)
    else (Some data, w, z)
  else (Some data, w, z).


Definition start_download_zip_file (req : Request)
           (token zipname zipfile repo_id user token_type : string)
           (w : World) (z : ZipLedger)
  : Z * option SendDirData * World * ZipLedger :=
  match seaf_stat zipfile with
  | None => (-1, None, w, z)
  | Some st_size =>
      let w := W.add_header "Content-Type" "application/zip" w in
      let w := W.add_header "Content-Length" (fmt_u64 (u64 st_size)) w in
      let cont_filename :=
        CStr.snprintf SEAF_PATH_MAX
          ("attachment;filename=" ++ dquote ++ zipname ++ ".zip" ++ dquote) in
      let w := W.add_header "Content-Disposition" cont_filename w in
      match g_open zipfile with
      | None => (-1, None, w, z)
      | Some content =>
          let z := mkZipLedger (zl_open_fds z + 1) (zl_deleted z) (zl_dir_cb z) in
          let data :=
            mkDirData (u64 st_size) (u64 st_size) content zipfile token user token_type
                      (CStr.snprintf 37 repo_id) (w_cb w) in
          let z := mkZipLedger (zl_open_fds z) (zl_deleted z) true in
          let w := W.pause true w in
          let w := W.send_reply_start EVHTP_RES_OK w in
          (0, Some data, w, z)
      end
  end.

(** [access_zip_cb]. Of its failures only the first two set [error]; the
    others set [error_code] alone, and the label [out:] replies only
    when [error] is set. The token record of this model always has an
    [obj_id], so the branch for a missing one is not taken. *)
Definition access_zip_cb (req : Request) (w : World) (z : ZipLedger)
  : option SendDirData * World * ZipLedger :=
  let parts := CStr.g_strsplit_slash (CStr.drop 1 (req_path_full req)) in
  match parts with
  | [_; token] =>
      match web_at_mgr_query seaf token with
      | None => (None, on_error ("Access token not found" ++ LF) EVHTP_RES_FORBIDDEN w, z)
      | Some info =>
          match Some (wa_obj_id info) with
          | None => (None, w, z)
          | Some info_str =>
              match json_loadb info_str with
              | None => (None, w, z)
              | Some info_obj =>
                  let filename :=
                    if json_object_has_member info_obj "dir_name" then
                      Some (match json_object_get_string_member info_obj "dir_name" with
                            | Some s => s
                            | None => "(null)"
                            end)
                    else if json_object_has_member info_obj "file_list" then
                      Some (MULTI_DOWNLOAD_FILE_PREFIX ++ local_date_now)
                    else None in
                  match filename with
                  | None => (None, w, z)
                  | Some filename =>
                      match zip_download_mgr_get_zip_file_path token with
                      | None => (None, w, z)
                      | Some zip_file_path =>
                          match can_use_cached_content req w with
                          | (true, w) =>
                              (None, w,
                               mkZipLedger (zl_open_fds z) (zl_deleted z ++ [token])%list
                                           (zl_dir_cb z))
                          | (false, w) =>
                              match start_download_zip_file req token filename
                                      zip_file_path (wa_repo_id info)
                                      (wa_username info) (wa_op info) w z with
                              | (_, eng, w, z) => (eng, w, z)
                              end
                          end
                      end
                  end
              end
          end
      end
  | _ => (None, on_error ("Invalid URL" ++ LF) EVHTP_RES_BADREQ w, z)
  end.

(** The transport driving the archive engine. *)
Fixpoint run_send_dir (ticks : nat) (data : SendDirData) (w : World) (z : ZipLedger)
  : option SendDirData * World * ZipLedger :=
  match ticks with
  | O => (Some data, w, z)
  | S k =>
      match write_dir_data_cb data w z with
      | (Some data', w', z') => run_send_dir k data' w' z'
      | (None, w', z') => (None, w', z')
      end
  end.

(** ** The routes of [access_file_init]

    [evhtp_set_regex_cb] with ["^/files/.*"], ["^/blks/.*"] and
    ["^/zip/.*"], tried in the order they were registered. Each of the
    patterns matches exactly the paths that begin with its literal
    part. *)
Inductive Handler : Type := HandleFiles | HandleBlks | HandleZip.

Definition access_file_init (path : string) : option Handler :=
  if String.prefix "/files/" path then Some HandleFiles
  else if String.prefix "/blks/" path then Some HandleBlks
  else if String.prefix "/zip/" path then Some HandleZip
  else None.

(* ================================================================== *)
(** * Vocabulary of the properties *)
(* ================================================================== *)

Local Open Scope list_scope.

(** A string that does not begin with a decimal digit. *)
Definition no_digit_ahead (s : string) : Prop :=
  match s with
  | EmptyString => True
  | String a _ => CStr.digit_val a = None
  end.

(** Non-empty text that cannot continue a number. *)
Definition garbage (g : string) : Prop :=
  g <> EmptyString /\ no_digit_ahead g.

(** What the client sees of a world: headers, status line, body, whether
    the reply was completed, whether the connection was dropped, and
    whether the handler left defined behaviour. *)
Definition Wire : Type :=
  (list (string * string) * option Z * bytes * bool * bool * bool)%type.

Definition wire (w : World) : Wire :=
  (w_headers_out w, w_status w, w_body w, w_reply_done w, w_conn_freed w, w_fault w).

Definition wire_write (c : bytes) (x : Wire) : Wire :=
  let '(h, s, b, d, f, u) := x in (h, s, (b ++ c)%list, d, f, u).

Definition wire_end (x : Wire) : Wire :=
  let '(h, s, b, d, f, u) := x in (h, s, b, true, f, u).

(** A whole block decrypted in one piece: init, one update, final. *)
Definition decrypt_block (c : SeafileCrypt) (b : bytes) : option bytes :=
  match seafile_decrypt_init (crypt_version c) (crypt_key c) (crypt_iv c) with
  | None => None
  | Some cx =>
      match EVP_DecryptUpdate cx b with
      | None => None
      | Some (cx1, o) =>
          match EVP_DecryptFinal_ex cx1 with
          | None => None
          | Some f => Some (o ++ f)%list
          end
      end
  end.

(** The contract of [EVP_DecryptUpdate] the engine relies on: feeding a
    message in two pieces gives the output of feeding it at once. *)
Definition update_streams : Prop :=
  forall (cx : EVP_CIPHER_CTX) (a b : bytes),
    a <> [] -> b <> [] ->
    EVP_DecryptUpdate cx (a ++ b) =
    match EVP_DecryptUpdate cx a with
    | None => None
    | Some (cx1, o1) =>
        match EVP_DecryptUpdate cx1 b with
        | None => None
        | Some (cx2, o2) => Some (cx2, (o1 ++ o2)%list)
        end
    end.

(** The bytes a block contributes to the body: the block itself, or its
    plaintext when the file is encrypted (a stored cipher block is never
    empty and its size fits the 32 bits of the block metadata). *)
Definition block_plain (crypt : option SeafileCrypt) (b p : bytes) : Prop :=
  match crypt with
  | None => p = b
  | Some c =>
      b <> [] /\ Z.of_nat (List.length b) < 2 ^ 32 /\ decrypt_block c b = Some p
  end.

Definition stored (store : string) (ver : Z) (id : string) (b : bytes) : Prop :=
  block_mgr_content seaf store ver id = Some b.

(** The state of an open block in the engine: [raw] is still to be read
    and [pend] is what the engine will still send for this block. *)
Definition open_inv (crypt : option SeafileCrypt) (ctx : option EVP_CIPHER_CTX)
           (remain : Z) (raw pend : bytes) : Prop :=
  match crypt with
  | None => pend = raw
  | Some _ =>
      remain = Z.of_nat (List.length raw) /\ remain < 2 ^ 32 /\
      ((raw = [] /\ pend = []) \/
       (raw <> [] /\
        exists cx cxf o f,
          ctx = Some cx /\ EVP_DecryptUpdate cx raw = Some (cxf, o) /\
          EVP_DecryptFinal_ex cxf = Some f /\ pend = (o ++ f)%list))
  end.

Definition total_len (l : list bytes) : nat := List.length (List.concat l).

(** An engine state between two ticks: a block is open; [pending] is the
    rest of the body and [m] the number of stored bytes still to read. *)
Definition sf_streaming (crypt : option SeafileCrypt) (data : SendfileData)
           (pending : bytes) (m : nat) : Prop :=
  exists pre_ids cur_id next_ids raw pend nexts_raw nexts_plain bsz,
    sf_crypt data = crypt /\
    blk_sha1s (sf_file data) = (pre_ids ++ cur_id :: next_ids)%list /\
    sf_idx data = Z.of_nat (List.length pre_ids) /\
    sf_handle data = Some (mkHandle bsz raw) /\
    Forall2 (stored (sf_store_id data) (sf_repo_version data)) next_ids nexts_raw /\
    Forall2 (block_plain (sf_crypt data)) nexts_raw nexts_plain /\
    open_inv (sf_crypt data) (sf_ctx data) (sf_remain data) raw pend /\
    pending = (pend ++ List.concat nexts_plain)%list /\
    m = (List.length raw + total_len nexts_raw)%nat.

(** What one call of the write callback may do from the wire [x], with
    [pending] left to send and [m] stored bytes left to read. *)
Definition tick_result (crypt : option SeafileCrypt) (x : Wire) (pending : bytes)
           (m : nat) (res : option SendfileData * World) : Prop :=
  match res with
  | (None, w') => pending = [] /\ wire w' = wire_end x
  | (Some data', w') =>
      exists chunk pending' m',
        pending = (chunk ++ pending')%list /\
        wire w' = wire_write chunk x /\
        sf_streaming crypt data' pending' m' /\ (m' < m)%nat
  end.

(** The number of bytes one read asks for, as a [nat]. *)
Definition chunk_len : nat := Z.to_nat BUFFER_SIZE.

(** Reduce the setters and projections of an engine state. *)
Ltac sf_simpl :=
  unfold sf_set_handle, sf_set_remain, sf_set_ctx, sf_set_idx;
  cbn [sf_file sf_crypt sf_enc_init sf_ctx sf_handle sf_remain sf_idx
       sf_store_id sf_repo_version sf_user sf_token_type sf_saved_cb].

(** The crypt context [do_file] builds from the key of the password
    manager. *)
Definition crypt_of (repo : SeafRepo) (key : option SeafileCryptKey)
  : option SeafileCrypt :=
  match key with
  | Some k =>
      Some (mkCrypt (enc_version repo)
              (if enc_version repo =? 1 then hex_to_rawdata (key_hex k) 16
               else hex_to_rawdata (key_hex k) 32)
              (hex_to_rawdata (iv_hex k) 16))
  | None => None
  end.

(** Reduce the setters and projections of a range-engine state. *)
Ltac fr_simpl :=
  unfold fr_set_handle, fr_set_blk_idx, fr_set_range_remain;
  cbn [fr_file fr_handle fr_blk_idx fr_start_off fr_range_remain fr_store_id
       fr_repo_version fr_user fr_token_type fr_saved_cb].

(** A range engine between two ticks: a block is open, [r > 0] bytes of
    the range are left, and they are the next [r] stored bytes. *)
Definition fr_streaming (data : SendFileRangeData) (pending : bytes) (r : nat) : Prop :=
  exists pre_ids cur_id next_ids raw nexts_raw bsz,
    blk_sha1s (fr_file data) = pre_ids ++ cur_id :: next_ids /\
    fr_blk_idx data = Z.of_nat (List.length pre_ids) /\
    fr_handle data = Some (mkHandle bsz raw) /\
    Forall2 (stored (fr_store_id data) (fr_repo_version data)) next_ids nexts_raw /\
    fr_range_remain data = Z.of_nat r /\
    (0 < r <= List.length raw + total_len nexts_raw)%nat /\
    Z.of_nat r < 2 ^ 64 /\
    pending = firstn r (raw ++ List.concat nexts_raw).

Definition fr_tick_result (x : Wire) (pending : bytes) (r : nat)
           (res : option SendFileRangeData * World) : Prop :=
  match res with
  | (None, w') => wire w' = wire_end (wire_write pending x)
  | (Some data', w') =>
      exists chunk pending' r',
        pending = chunk ++ pending' /\
        wire w' = wire_write chunk x /\
        fr_streaming data' pending' r' /\ (r' < r)%nat
  end.

(** A [Content-Disposition] value: the disposition, then the file name
    either in the [filename*] form or plain. *)
Definition disposition_value (attachment starred : bool) (filename : string) : string :=
  ((if attachment then "attachment" else "inline") ++ ";" ++
   (if starred
    then "filename*=" ++ dquote ++ "utf-8' '" ++ filename ++ dquote
    else "filename=" ++ dquote ++ filename ++ dquote))%string.

(** The disposition header as the design document words it, for both
    modes: attachment for the two download operations, and the
    [filename*] form exactly for Firefox. *)
Definition spec_disposition (req : Request) (operation filename : string) : string :=
  disposition_value
    (String.eqb operation "download" || String.eqb operation "download-link")%bool
    (test_firefox req) filename.

(** What holds of [parse_range_val] on the values behind [pre=], for a
    file of [fsize] bytes. *)
Definition range_parser_contract (pre : string) (fsize : Z) : Prop :=
  (* success gives an inclusive pair inside the file *)
  (forall v s e,
      parse_range_val (pre ++ "=" ++ v)%string fsize = RangeOk s e ->
      0 <= s <= e /\ e < fsize) /\
  (* -N: the last N bytes; -0 and N beyond the size are refused *)
  (forall n, 0 <= n < 2 ^ 63 ->
      parse_range_val (pre ++ "=" ++ "-" ++ fmt_u64 n)%string fsize =
      if ((1 <=? n) && (n <=? fsize))%bool
      then RangeOk (fsize - n) (fsize - 1) else RangeInvalid) /\
  (* N-: from N to the last byte; N at or beyond the size is refused *)
  (forall n, 0 <= n < 2 ^ 63 ->
      parse_range_val (pre ++ "=" ++ fmt_u64 n ++ "-")%string fsize =
      if n <? fsize then RangeOk n (fsize - 1) else RangeInvalid) /\
  (* N-M: M clamped to the last byte; N beyond the clamped M is refused *)
  (forall n m, 0 <= n < 2 ^ 63 -> 0 <= m < 2 ^ 63 ->
      parse_range_val (pre ++ "=" ++ fmt_u64 n ++ "-" ++ fmt_u64 m)%string fsize =
      if n <=? Z.min m (fsize - 1)
      then RangeOk n (Z.min m (fsize - 1)) else RangeInvalid) /\
  (* no '-' *)
  (forall v, CStr.strchr v "-" = None ->
      parse_range_val (pre ++ "=" ++ v)%string fsize = RangeInvalid) /\
  (* trailing garbage after the numbers *)
  (forall n g, 0 <= n < 2 ^ 63 -> garbage g ->
      parse_range_val (pre ++ "=" ++ "-" ++ fmt_u64 n ++ g)%string fsize = RangeInvalid) /\
  (forall n m g, 0 <= n < 2 ^ 63 -> 0 <= m -> garbage g ->
      parse_range_val (pre ++ "=" ++ fmt_u64 n ++ "-" ++ fmt_u64 m ++ g)%string fsize
      = RangeInvalid) /\
  (* a multi-range value *)
  parse_range_val (pre ++ "=0-5,10-20")%string fsize = RangeInvalid.

(** ** Vocabulary of the resource and statistics properties *)

(** The statistics event the whole-file engine reports when it ends a
    reply, by the operation of the token. *)
Definition download_event (data : SendfileData) : list StatMsg :=
  if String.eqb (sf_token_type data) "view" then []
  else [mkStat (sf_store_id data) (sf_user data)
               (if String.eqb (sf_token_type data) "download-link"
                then "link-file-download"%string else "web-file-download"%string)
               (file_size (sf_file data))].

(** A whole-file engine state between two calls: the block index is
    inside the file, and a decryption context exists exactly while a block
    of an encrypted file is open. *)
Definition sf_wf (data : SendfileData) : Prop :=
  0 <= sf_idx data < n_blocks (sf_file data) /\
  (match sf_crypt data, sf_handle data return Prop with
   | Some _, Some _ => sf_enc_init data = true /\ sf_ctx data <> None
   | Some _, None => sf_enc_init data = false
   | None, _ => True
   end).

(** Two states of the same request. *)
Definition sf_same_request (d d' : SendfileData) : Prop :=
  sf_file d' = sf_file d /\ sf_crypt d' = sf_crypt d /\
  sf_store_id d' = sf_store_id d /\ sf_user d' = sf_user d /\
  sf_token_type d' = sf_token_type d /\ sf_saved_cb d' = sf_saved_cb d.

(** What calls of the whole-file write callback may do to the world,
    from state [data] in world [w] to the result [r]: they stay in
    defined behaviour; while the engine lives its state can still release
    what the first state held; and when it has gone, everything is
    released and either the reply was ended, with the statistics event of
    the operation, or the connection was freed, with none. *)
Definition sf_tick_ok (data : SendfileData) (w : World)
           (r : option SendfileData * World) : Prop :=
  w_fault (snd r) = w_fault w /\
  match fst r with
  | Some d =>
      sf_wf d /\ sf_same_request data d /\
      w_heap (free_sendfile_data d (snd r)) = w_heap (free_sendfile_data data w) /\
      w_stats (snd r) = w_stats w /\
      w_reply_done (snd r) = w_reply_done w /\
      w_conn_freed (snd r) = w_conn_freed w
  | None =>
      w_heap (snd r) = w_heap (free_sendfile_data data w) /\
      ((w_reply_done (snd r) = true /\ w_conn_freed (snd r) = w_conn_freed w /\
        w_stats (snd r) = w_stats w ++ download_event data /\
        w_cb (snd r) = sf_saved_cb data /\ w_paused (snd r) = false)
       \/
       (w_conn_freed (snd r) = true /\ w_reply_done (snd r) = w_reply_done w /\
        w_stats (snd r) = w_stats w))
  end.

(** A byte-range engine state between two calls: before the first call
    no block is open and the index is the marker -1. *)
Definition fr_wf (data : SendFileRangeData) : Prop :=
  (fr_blk_idx data = -1 /\ fr_handle data = None) \/ 0 <= fr_blk_idx data.

(** The statistics event the byte-range engine may report. *)
Definition range_event (data : SendFileRangeData) : StatMsg :=
  mkStat (fr_store_id data) (fr_user data)
         (if String.eqb (fr_token_type data) "download-link"
          then "link-file-download"%string else "web-file-download"%string)
         (file_size (fr_file data)).

Definition fr_same_request (d d' : SendFileRangeData) : Prop :=
  fr_file d' = fr_file d /\ fr_store_id d' = fr_store_id d /\
  fr_user d' = fr_user d /\ fr_token_type d' = fr_token_type d /\
  fr_saved_cb d' = fr_saved_cb d.

(** What calls of the byte-range write callback may do to the world, as
    long as they stay in defined behaviour. *)
Definition fr_tick_ok (data : SendFileRangeData) (w : World)
           (r : option SendFileRangeData * World) : Prop :=
  w_fault (snd r) = false ->
  w_fault w = false /\
  match fst r with
  | Some d =>
      fr_wf d /\ fr_same_request data d /\
      w_heap (free_send_file_range_data d (snd r))
        = w_heap (free_send_file_range_data data w) /\
      w_stats (snd r) = w_stats w /\
      w_reply_done (snd r) = w_reply_done w /\
      w_conn_freed (snd r) = w_conn_freed w
  | None =>
      w_heap (snd r) = w_heap (free_send_file_range_data data w) /\
      ((w_reply_done (snd r) = true /\ w_conn_freed (snd r) = w_conn_freed w /\
        w_cb (snd r) = fr_saved_cb data /\ w_paused (snd r) = false /\
        (w_stats (snd r) = w_stats w \/
         w_stats (snd r) = w_stats w ++ [range_event data]))
       \/
       (w_conn_freed (snd r) = true /\ w_reply_done (snd r) = w_reply_done w /\
        w_stats (snd r) = w_stats w))
  end.

(** Reduce the fields of a world the byte-range engine has acted on. *)
Ltac fr_fields :=
  cbn [fst snd];
  unfold free_send_file_range_data, write_file_range_err, finish_file_range_request,
         fr_wf, fr_same_request, range_event;
  fr_simpl;
  cbn [fst snd w_heap w_fault w_stats w_reply_done w_conn_freed w_cb w_paused
       W.handle W.file_ref W.with_heap W.connection_free W.write W.fault
       W.setcb W.pause W.send_reply_end W.send_statistic_msg].

(** ** Vocabulary of the missing-block property *)

Definition wire_abort (x : Wire) : Wire :=
  let '(h, s, b, d, f, u) := x in (h, s, b, d, true, u).

(** An unencrypted whole-file engine on its way to a block that is not
    in the store: a block is open with [raw] still to be read, the blocks
    between it and the missing one are stored, and [pending] is what the
    engine will still send. *)
Definition sf_aborting (file : Seafile) (store : string) (ver : Z) (user tt : string)
           (cb : Callbacks) (missing : string) (rest : list string)
           (data : SendfileData) (pending : bytes) : Prop :=
  exists pre cur next_ids nexts_raw raw bsz ei ctx remain,
    blk_sha1s file = pre ++ cur :: next_ids ++ missing :: rest /\
    Forall2 (stored store ver) next_ids nexts_raw /\
    data = mkSendfileData file None ei ctx (Some (mkHandle bsz raw)) remain
                          (Z.of_nat (List.length pre)) store ver user tt cb /\
    pending = raw ++ List.concat nexts_raw.

(** What a call of the write callback does on that way: it sends a
    non-empty chunk of [pending] and goes on, or, with nothing pending,
    frees the connection. *)
Definition tick_abort_result (file : Seafile) (store : string) (ver : Z)
           (user tt : string) (cb : Callbacks) (missing : string) (rest : list string)
           (x : Wire) (pending : bytes) (r : option SendfileData * World) : Prop :=
  match r with
  | (None, w') => pending = [] /\ wire w' = wire_abort x
  | (Some d, w') =>
      exists chunk pending',
        chunk <> [] /\ pending = chunk ++ pending' /\
        wire w' = wire_write chunk x /\
        sf_aborting file store ver user tt cb missing rest d pending'
  end.

(** Reduce the fields of a world the engine has acted on. *)
Ltac sf_fields :=
  cbn [fst snd];
  unfold free_sendfile_data, write_data_err, sf_wf, sf_same_request; sf_simpl;
  cbn [fst snd w_heap w_fault w_stats w_reply_done w_conn_freed w_cb w_paused
       W.handle W.cipher W.crypt W.file_ref W.with_heap W.connection_free W.write
       W.setcb W.pause W.send_reply_end W.send_statistic_msg].

(** The call left through [err:]. *)
Ltac sf_abort :=
  unfold sf_tick_ok; sf_fields;
  split; [reflexivity|]; split; [reflexivity|]; right; repeat split.

(** The call ended the reply of a request with token type [tt]. *)
Ltac sf_finish tt :=
  unfold sf_tick_ok, download_event; sf_fields;
  destruct (String.eqb tt "view"); cbn [negb]; sf_fields;
  (split; [reflexivity|]); (split; [reflexivity|]); left;
  rewrite ?app_nil_r; repeat split.

(** The call wrote a chunk and the engine goes on. *)
Ltac sf_goes_on :=
  unfold sf_tick_ok; sf_fields;
  repeat split; try assumption; try reflexivity; try discriminate; try lia.

Local Close Scope list_scope.

(* ================================================================== *)
(** * Properties of the range parser *)
(* ================================================================== *)

Example parse_ex1 : parse_range_val "bytes=150-199" 250 = RangeOk 150 199.
Proof. reflexivity. Qed.
Example parse_ex2 : parse_range_val "bytes=-10" 250 = RangeOk 240 249.
Proof. reflexivity. Qed.
Example parse_ex3 : parse_range_val "bytes=300-400" 250 = RangeInvalid.
Proof. reflexivity. Qed.
Example parse_ex4 : parse_range_val "bytes=0-5,10-20" 250 = RangeInvalid.
Proof. reflexivity. Qed.
Example parse_ex5 : parse_range_val "bytes=5--3" 10 = RangeOk 5 9.
Proof. reflexivity. Qed.
Example parse_ex6 : parse_range_val "bytes=0-" 0 = RangeOk 0 (2 ^ 64 - 1).
Proof. reflexivity. Qed.
Example parse_ex7 : parse_range_val "0-5" 250 = RangeFault.
Proof. reflexivity. Qed.
Example parse_ex8 : parse_range_val "bytes=-300" 250 = RangeInvalid.
Proof. reflexivity. Qed.

Lemma u64_small (z : Z) : 0 <= z < 2 ^ 64 -> u64 z = z.
Proof. intros H. unfold u64. apply Z.mod_small. exact H. Qed.

Lemma u64_range (z : Z) : 0 <= u64 z < 2 ^ 64.
Proof. unfold u64. apply Z.mod_pos_bound. lia. Qed.

Lemma to_int_small (z : Z) : - 2 ^ 31 <= z < 2 ^ 31 -> to_int z = z.
Proof.
  intros H. unfold to_int. rewrite Z.mod_small by lia. lia.
Qed.

Lemma strchr_app_found (pre rest : string) (c : ascii) :
  CStr.strchr pre c = None ->
  CStr.strchr (pre ++ String c rest) c = Some (String.length pre).
Proof.
  induction pre as [|a pre IH]; simpl; intros H.
  - now rewrite Ascii.eqb_refl.
  - destruct (Ascii.eqb a c); [discriminate|].
    destruct (CStr.strchr pre c); [discriminate|].
    now rewrite IH.
Qed.

Lemma strchr_app_none (pre rest : string) (c : ascii) :
  CStr.strchr pre c = None ->
  CStr.strchr (pre ++ rest) c =
  option_map (fun k => (String.length pre + k)%nat) (CStr.strchr rest c).
Proof.
  induction pre as [|a pre IH]; simpl; intros H.
  - destruct (CStr.strchr rest c); reflexivity.
  - destruct (Ascii.eqb a c); [discriminate|].
    destruct (CStr.strchr pre c); [discriminate|].
    rewrite IH by reflexivity. destruct (CStr.strchr rest c); reflexivity.
Qed.

Lemma drop_app_length (pre rest : string) :
  CStr.drop (String.length pre) (pre ++ rest) = rest.
Proof. induction pre; simpl; auto. Qed.

Lemma at_nul_length (s : string) : CStr.at_nul s (String.length s) = true.
Proof.
  unfold CStr.at_nul. induction s; simpl; auto.
Qed.

Lemma at_nul_app_cons (s : string) (a : ascii) (r : string) :
  CStr.at_nul (s ++ String a r) (String.length s) = false.
Proof.
  unfold CStr.at_nul. induction s; simpl; auto.
Qed.

Lemma read_digits_uint (d : Decimal.uint) (l : Decimal.uint) (rest : string) :
  no_digit_ahead rest ->
  CStr.read_digits (NilEmpty.string_of_uint d ++ rest) (Z.of_N (DecimalPos.Unsigned.of_lu l)) =
  (Z.of_N (DecimalPos.Unsigned.of_lu (Decimal.revapp d l)),
   String.length (NilEmpty.string_of_uint d)).
Proof.
  intros Hrest. revert l.
  induction d as [|d IH|d IH|d IH|d IH|d IH|d IH|d IH|d IH|d IH|d IH]; intros l;
    try (cbn [NilEmpty.string_of_uint append CStr.read_digits Decimal.revapp String.length];
         change (CStr.digit_val _) with (Some 0) ||
         change (CStr.digit_val _) with (Some 1) ||
         change (CStr.digit_val _) with (Some 2) ||
         change (CStr.digit_val _) with (Some 3) ||
         change (CStr.digit_val _) with (Some 4) ||
         change (CStr.digit_val _) with (Some 5) ||
         change (CStr.digit_val _) with (Some 6) ||
         change (CStr.digit_val _) with (Some 7) ||
         change (CStr.digit_val _) with (Some 8) ||
         change (CStr.digit_val _) with (Some 9);
         cbv iota beta;
         match goal with
         | |- context [CStr.read_digits _ ?acc] =>
             match goal with
             | |- context [DecimalPos.Unsigned.of_lu (Decimal.revapp d ?l')] =>
                 replace acc with (Z.of_N (DecimalPos.Unsigned.of_lu l'))
                   by (cbn [DecimalPos.Unsigned.of_lu]; lia)
             end
         end;
         rewrite IH; reflexivity).
  cbn [NilEmpty.string_of_uint append Decimal.revapp String.length].
  destruct rest as [|a r]; cbn [CStr.read_digits]; [reflexivity|].
  cbn in Hrest. rewrite Hrest. reflexivity.
Qed.

Lemma strtoll_digit_led (c : ascii) (s : string) (d : Z) :
  CStr.digit_val c = Some d ->
  CStr.strtoll (String c s) =
  (let (v, k) := CStr.read_digits s d in (CStr.clamp_ll v, S k)).
Proof.
  intros H.
  destruct c as [[|] [|] [|] [|] [|] [|] [|] [|]];
    try (vm_compute in H; discriminate H);
    vm_compute in H; injection H as <-;
    unfold CStr.strtoll; cbn [CStr.skip_spaces];
    match goal with
    | |- context [CStr.isspace ?c] => change (CStr.isspace c) with false
    end;
    cbv iota beta; cbn [CStr.read_digits];
    match goal with
    | |- context [CStr.digit_val ?c] =>
        let v := eval vm_compute in (CStr.digit_val c) in
        change (CStr.digit_val c) with v
    end;
    cbv iota beta;
    match goal with
    | |- context [CStr.read_digits s ?a] =>
        let v := eval vm_compute in a in change a with v
    end;
    destruct (CStr.read_digits s _); reflexivity.
Qed.

Lemma to_uint_head (n : N) :
  exists c s d, NilEmpty.string_of_uint (N.to_uint n) = String c s /\
                CStr.digit_val c = Some d.
Proof.
  assert (H : N.to_uint n <> Nil).
  { destruct n; [discriminate|]. apply DecimalPos.Unsigned.to_uint_nonnil. }
  destruct (N.to_uint n); [congruence| ..]; cbn [NilEmpty.string_of_uint];
    do 2 eexists; eexists; (split; [reflexivity | vm_compute; reflexivity]).
Qed.

Lemma fmt_u64_nilempty (n : Z) :
  fmt_u64 n = NilEmpty.string_of_uint (N.to_uint (Z.to_N n)).
Proof.
  unfold fmt_u64, NilZero.string_of_uint.
  assert (H : N.to_uint (Z.to_N n) <> Nil).
  { destruct (Z.to_N n); [discriminate|]. apply DecimalPos.Unsigned.to_uint_nonnil. }
  destruct (N.to_uint (Z.to_N n)); congruence.
Qed.

Lemma read_digits_fmt (n : Z) (rest : string) :
  0 <= n -> no_digit_ahead rest ->
  CStr.read_digits (fmt_u64 n ++ rest) 0 = (n, String.length (fmt_u64 n)).
Proof.
  intros Hn Hrest. rewrite fmt_u64_nilempty.
  change 0 with (Z.of_N (DecimalPos.Unsigned.of_lu Nil)).
  rewrite read_digits_uint by exact Hrest.
  f_equal. change (revapp ?d Nil) with (rev d).
  rewrite <- DecimalPos.Unsigned.of_uint_alt.
  change (Pos.of_uint ?d) with (N.of_uint d).
  rewrite DecimalN.Unsigned.of_to. apply Z2N.id. exact Hn.
Qed.

(** [strtoll] on a printed number followed by something that is not a
    digit reads exactly the number. *)
Lemma strtoll_fmt (n : Z) (rest : string) :
  0 <= n -> no_digit_ahead rest ->
  CStr.strtoll (fmt_u64 n ++ rest) = (CStr.clamp_ll n, String.length (fmt_u64 n)).
Proof.
  intros Hn Hrest.
  pose proof (read_digits_fmt n rest Hn Hrest) as Hrd.
  rewrite fmt_u64_nilempty in *.
  destruct (to_uint_head (Z.to_N n)) as (c & s & d & Hs & Hc).
  rewrite Hs in *. cbn [append] in *.
  rewrite (strtoll_digit_led _ _ _ Hc).
  cbn [CStr.read_digits] in Hrd. rewrite Hc in Hrd.
  change (10 * 0 + d) with d in Hrd.
  destruct (CStr.read_digits (s ++ rest) d) as [v k].
  injection Hrd as -> ->. reflexivity.
Qed.

Lemma fmt_u64_no_minus (n : Z) : CStr.strchr (fmt_u64 n) "-" = None.
Proof.
  rewrite fmt_u64_nilempty.
  induction (N.to_uint (Z.to_N n)); cbn [NilEmpty.string_of_uint CStr.strchr];
    try reflexivity;
    match goal with
    | |- context [Ascii.eqb ?a ?b] =>
        let v := eval vm_compute in (Ascii.eqb a b) in change (Ascii.eqb a b) with v
    end; cbv iota; rewrite IHu; reflexivity.
Qed.

Lemma fmt_u64_nonempty (n : Z) : (0 < String.length (fmt_u64 n))%nat.
Proof.
  rewrite fmt_u64_nilempty.
  destruct (to_uint_head (Z.to_N n)) as (c & s & d & Hs & _).
  rewrite Hs. simpl. lia.
Qed.

Lemma clamp_ll_small (n : Z) : - 2 ^ 63 <= n < 2 ^ 63 -> CStr.clamp_ll n = n.
Proof.
  intros H. unfold CStr.clamp_ll, CStr.LLONG_MAX, CStr.LLONG_MIN.
  destruct (n >? 2 ^ 63 - 1) eqn:E1; [lia|].
  destruct (n <? - 2 ^ 63) eqn:E2; [lia|]. reflexivity.
Qed.

Lemma strtoll_minus_fmt (n : Z) (rest : string) :
  0 <= n -> no_digit_ahead rest ->
  CStr.strtoll (String "-" (fmt_u64 n ++ rest)) =
  (CStr.clamp_ll (- n), S (String.length (fmt_u64 n))).
Proof.
  intros Hn Hrest. unfold CStr.strtoll. cbn [CStr.skip_spaces].
  change (CStr.isspace "-") with false. cbv iota beta.
  rewrite (read_digits_fmt n rest Hn Hrest).
  pose proof (fmt_u64_nonempty n) as Hlen.
  destruct (String.length (fmt_u64 n)); [lia|]. reflexivity.
Qed.

Lemma append_nil_r (s : string) : s ++ "" = s.
Proof. induction s; simpl; congruence. Qed.

Lemma length_append (s t : string) :
  String.length (s ++ t) = (String.length s + String.length t)%nat.
Proof. induction s; simpl; congruence. Qed.

Lemma append_assoc' (s t u : string) : (s ++ t) ++ u = s ++ t ++ u.
Proof. induction s; simpl; congruence. Qed.

(** After the prefix strip [parse_range_val] only looks at the text
    behind the first [=]. *)
Lemma parse_range_val_strip (pre v : string) (fsize : Z) :
  CStr.strchr pre "=" = None ->
  parse_range_val (pre ++ "=" ++ v) fsize =
  match CStr.strchr v "-" with
  | None => RangeInvalid
  | Some minus =>
      match parse_range_modes v minus fsize with
      | None => RangeInvalid
      | Some (start, end0) =>
          let end1 := if end0 >? u64 (fsize - 1) then u64 (fsize - 1) else end0 in
          if start >? end1 then RangeInvalid else RangeOk start end1
      end
  end.
Proof.
  intros Hpre. unfold parse_range_val.
  change (pre ++ "=" ++ v) with (pre ++ String "=" v).
  rewrite (strchr_app_found pre v "=" Hpre).
  replace (CStr.drop (S (String.length pre)) (pre ++ String "=" v)) with v.
  - reflexivity.
  - change (pre ++ String "=" v) with (pre ++ "=" ++ v).
    rewrite <- append_assoc'.
    replace (S (String.length pre)) with (String.length (pre ++ "=")).
    + now rewrite drop_app_length.
    + rewrite length_append. simpl. lia.
Qed.

(** Success is sound for every header and every size of at least one
    byte. *)
Lemma parse_range_val_sound (hdr : string) (fsize s e : Z) :
  1 <= fsize < 2 ^ 64 ->
  parse_range_val hdr fsize = RangeOk s e ->
  0 <= s <= e /\ e < fsize.
Proof.
  intros Hf. unfold parse_range_val.
  destruct (CStr.strchr hdr "="); [|discriminate].
  destruct (CStr.strchr _ "-"); [|discriminate].
  assert (Hmodes : forall tmp minus st en,
             parse_range_modes tmp minus fsize = Some (st, en) -> 0 <= st).
  { intros tmp minus st en. unfold parse_range_modes.
    repeat match goal with
           | |- context [let (_, _) := ?x in _] => destruct x
           | |- context [if ?b then _ else _] => destruct b
           end; intros H; try discriminate H; injection H as <- <-;
      apply u64_range. }
  destruct (parse_range_modes _ _ _) as [[st en]|] eqn:E; [|discriminate].
  apply Hmodes in E.
  rewrite (u64_small (fsize - 1)) by lia.
  destruct (en >? fsize - 1) eqn:Ec.
  - destruct (st >? fsize - 1) eqn:Es; [discriminate|].
    intros H. injection H as <- <-. lia.
  - destruct (st >? en) eqn:Es; [discriminate|].
    intros H. injection H as <- <-. lia.
Qed.

Lemma parse_range_val_no_minus (pre v : string) (fsize : Z) :
  CStr.strchr pre "=" = None -> CStr.strchr v "-" = None ->
  parse_range_val (pre ++ "=" ++ v) fsize = RangeInvalid.
Proof.
  intros Hpre Hv. rewrite parse_range_val_strip by exact Hpre. now rewrite Hv.
Qed.

(** The form [-N], possibly followed by more text. *)
Lemma parse_range_modes_suffix (n fsize : Z) (g : string) :
  0 <= n < 2 ^ 63 -> no_digit_ahead g ->
  parse_range_modes ("-" ++ fmt_u64 n ++ g) 0 fsize =
  if (n =? 0) || negb (String.eqb g "")
  then None
  else Some (u64 (2 ^ 64 - n + fsize), u64 (fsize - 1)).
Proof.
  intros Hn Hg. unfold parse_range_modes. cbn [Nat.eqb].
  change ("-" ++ fmt_u64 n ++ g) with (String "-" (fmt_u64 n ++ g)).
  rewrite strtoll_minus_fmt by (lia || assumption).
  rewrite clamp_ll_small by lia.
  destruct (n =? 0) eqn:E0.
  - apply Z.eqb_eq in E0. subst n. reflexivity.
  - apply Z.eqb_neq in E0.
    assert (Hu : u64 (- n) = 2 ^ 64 - n).
    { unfold u64. rewrite <- (Z.mod_small (2 ^ 64 - n) (2 ^ 64)) by lia.
      replace (- n) with (2 ^ 64 - n + (-1) * 2 ^ 64) by lia.
      now rewrite Z.mod_add by lia. }
    rewrite Hu. destruct (2 ^ 64 - n =? 0) eqn:E1; [lia|].
    cbn [orb].
    destruct g as [|a g'].
    + rewrite append_nil_r.
      replace (S (String.length (fmt_u64 n)))
        with (String.length (String "-" (fmt_u64 n))) by reflexivity.
      rewrite at_nul_length. reflexivity.
    + replace (S (String.length (fmt_u64 n)))
        with (String.length (String "-" (fmt_u64 n))) by reflexivity.
      change (String "-" (fmt_u64 n ++ String a g'))
        with (String "-" (fmt_u64 n) ++ String a g').
      rewrite at_nul_app_cons. reflexivity.
Qed.

(** The forms [N-] and [N-w]. *)
Lemma parse_range_modes_from (n fsize : Z) (w : string) :
  0 <= n < 2 ^ 63 ->
  parse_range_modes (fmt_u64 n ++ "-" ++ w) (String.length (fmt_u64 n)) fsize =
  match w with
  | EmptyString => Some (n, u64 (fsize - 1))
  | _ => let (v2, end_ptr2) := CStr.strtoll w in
         if CStr.at_nul w end_ptr2 then Some (n, u64 v2) else None
  end.
Proof.
  intros Hn. unfold parse_range_modes.
  pose proof (fmt_u64_nonempty n) as Hlen.
  destruct (Nat.eqb (String.length (fmt_u64 n)) 0) eqn:E0;
    [apply Nat.eqb_eq in E0; lia|].
  rewrite (strtoll_fmt n ("-" ++ w)) by (lia || exact eq_refl).
  rewrite clamp_ll_small by lia. rewrite u64_small by lia.
  rewrite Nat.eqb_refl.
  assert (HS : S (String.length (fmt_u64 n)) = String.length (fmt_u64 n ++ "-")).
  { rewrite length_append. simpl. lia. }
  rewrite HS. rewrite <- append_assoc'.
  destruct w as [|a w'].
  - rewrite append_nil_r. rewrite at_nul_length. reflexivity.
  - rewrite at_nul_app_cons. rewrite drop_app_length. reflexivity.
Qed.

Lemma strchr_fmt_minus (n : Z) (w : string) :
  CStr.strchr (fmt_u64 n ++ "-" ++ w) "-" = Some (String.length (fmt_u64 n)).
Proof. apply strchr_app_found. apply fmt_u64_no_minus. Qed.

Lemma at_nul_fmt_tail (m : Z) (g : string) :
  CStr.at_nul (fmt_u64 m ++ g) (String.length (fmt_u64 m)) = String.eqb g "".
Proof.
  destruct g as [|a g'].
  - rewrite append_nil_r. apply at_nul_length.
  - apply at_nul_app_cons.
Qed.

Lemma gtb_irrefl (z : Z) : (z >? z) = false.
Proof. rewrite Z.gtb_ltb. apply Z.ltb_irrefl. Qed.

Section RangeForms.

Variables (pre : string) (fsize : Z).
Hypothesis Hpre : CStr.strchr pre "=" = None.
Hypothesis Hfsize : 1 <= fsize < 2 ^ 64.

(** [-N]: the last [N] bytes; [-0] and [N > fsize] are refused. *)
Lemma parse_suffix_form (n : Z) :
  0 <= n < 2 ^ 63 ->
  parse_range_val (pre ++ "=" ++ "-" ++ fmt_u64 n) fsize =
  if (1 <=? n) && (n <=? fsize)
  then RangeOk (fsize - n) (fsize - 1) else RangeInvalid.
Proof.
  intros Hn.
  replace (fmt_u64 n) with (fmt_u64 n ++ "") by apply append_nil_r.
  rewrite parse_range_val_strip by exact Hpre.
  change (CStr.strchr ("-" ++ fmt_u64 n ++ "") "-") with (Some O).
  cbv iota beta.
  rewrite parse_range_modes_suffix by (lia || exact I).
  cbn [String.eqb negb orb]. rewrite orb_false_r.
  rewrite (u64_small (fsize - 1)) by lia.
  destruct (n =? 0) eqn:E0.
  - apply Z.eqb_eq in E0. subst n. reflexivity.
  - apply Z.eqb_neq in E0.
    destruct (1 <=? n) eqn:E1; [|lia]. cbn [andb].
    rewrite gtb_irrefl. cbv zeta.
    destruct (n <=? fsize) eqn:E2.
    + apply Z.leb_le in E2.
      assert (Hu : u64 (2 ^ 64 - n + fsize) = fsize - n).
      { unfold u64. replace (2 ^ 64 - n + fsize) with (fsize - n + 1 * 2 ^ 64) by lia.
        rewrite Z.mod_add by lia. apply Z.mod_small. lia. }
      rewrite Hu. destruct (fsize - n >? fsize - 1) eqn:E3; [lia|]. reflexivity.
    + apply Z.leb_gt in E2. rewrite u64_small by lia.
      destruct (2 ^ 64 - n + fsize >? fsize - 1) eqn:E3; [reflexivity|lia].
Qed.

(** [-N] followed by anything but a digit is refused. *)
Lemma parse_suffix_garbage (n : Z) (g : string) :
  0 <= n < 2 ^ 63 -> garbage g ->
  parse_range_val (pre ++ "=" ++ "-" ++ fmt_u64 n ++ g) fsize = RangeInvalid.
Proof.
  intros Hn [Hne Hg]. rewrite parse_range_val_strip by exact Hpre.
  change (CStr.strchr ("-" ++ fmt_u64 n ++ g) "-") with (Some O).
  cbv iota beta.
  rewrite parse_range_modes_suffix by (lia || exact Hg).
  destruct g; [congruence|]. cbn [String.eqb negb]. rewrite orb_true_r.
  reflexivity.
Qed.

(** [N-]: from [N] to the end of the file; [N >= fsize] is refused. *)
Lemma parse_from_form (n : Z) :
  0 <= n < 2 ^ 63 ->
  parse_range_val (pre ++ "=" ++ fmt_u64 n ++ "-") fsize =
  if n <? fsize then RangeOk n (fsize - 1) else RangeInvalid.
Proof.
  intros Hn. rewrite parse_range_val_strip by exact Hpre.
  change (fmt_u64 n ++ "-") with (fmt_u64 n ++ "-" ++ "").
  rewrite (strchr_fmt_minus n "").
  cbv iota beta.
  rewrite (parse_range_modes_from n fsize "") by lia.
  rewrite (u64_small (fsize - 1)) by lia.
  rewrite gtb_irrefl. cbv zeta.
  destruct (n <? fsize) eqn:E.
  - destruct (n >? fsize - 1) eqn:E1; [lia|reflexivity].
  - destruct (n >? fsize - 1) eqn:E1; [reflexivity|lia].
Qed.

(** [N-M]: [M] is clamped to the last byte; [N] beyond that is refused. *)
Lemma parse_closed_form (n m : Z) :
  0 <= n < 2 ^ 63 -> 0 <= m < 2 ^ 63 ->
  parse_range_val (pre ++ "=" ++ fmt_u64 n ++ "-" ++ fmt_u64 m) fsize =
  if n <=? Z.min m (fsize - 1)
  then RangeOk n (Z.min m (fsize - 1)) else RangeInvalid.
Proof.
  intros Hn Hm. rewrite parse_range_val_strip by exact Hpre.
  rewrite strchr_fmt_minus.
  cbv iota beta.
  rewrite parse_range_modes_from by lia.
  pose proof (fmt_u64_nonempty m) as Hlen.
  destruct (fmt_u64 m) as [|c r] eqn:Em; [simpl in Hlen; lia|].
  rewrite <- Em. rewrite <- (append_nil_r (fmt_u64 m)).
  rewrite (strtoll_fmt m "") by (lia || exact I).
  rewrite at_nul_fmt_tail. cbn [String.eqb].
  rewrite clamp_ll_small by lia. rewrite (u64_small m) by lia.
  rewrite (u64_small (fsize - 1)) by lia. cbv zeta.
  destruct (m >? fsize - 1) eqn:E1.
  - rewrite Z.min_r by lia.
    destruct (n >? fsize - 1) eqn:E2; destruct (n <=? fsize - 1) eqn:E3;
      try lia; reflexivity.
  - rewrite Z.min_l by lia.
    destruct (n >? m) eqn:E2; destruct (n <=? m) eqn:E3; try lia; reflexivity.
Qed.

(** [N-M] followed by anything but a digit is refused. *)
Lemma parse_closed_garbage (n m : Z) (g : string) :
  0 <= n < 2 ^ 63 -> 0 <= m -> garbage g ->
  parse_range_val (pre ++ "=" ++ fmt_u64 n ++ "-" ++ fmt_u64 m ++ g) fsize =
  RangeInvalid.
Proof.
  intros Hn Hm [Hne Hg]. rewrite parse_range_val_strip by exact Hpre.
  rewrite strchr_fmt_minus.
  cbv iota beta.
  rewrite parse_range_modes_from by lia.
  pose proof (fmt_u64_nonempty m) as Hlen.
  destruct (fmt_u64 m ++ g) as [|c r] eqn:Em.
  - destruct (fmt_u64 m); [simpl in Hlen; lia | discriminate Em].
  - rewrite <- Em. rewrite (strtoll_fmt m g) by (lia || exact Hg).
    rewrite at_nul_fmt_tail. destruct g; [congruence|]. reflexivity.
Qed.

End RangeForms.

(* ================================================================== *)
(** * Properties of the whole-file engine *)
(* ================================================================== *)

Local Open Scope list_scope.

Lemma wire_heap (f : Heap -> Heap) (w : World) : wire (W.with_heap f w) = wire w.
Proof. reflexivity. Qed.

Lemma wire_handle (d : Z) (w : World) : wire (W.handle d w) = wire w.
Proof. reflexivity. Qed.

Lemma wire_cipher (d : Z) (w : World) : wire (W.cipher d w) = wire w.
Proof. reflexivity. Qed.

Lemma wire_file_ref (d : Z) (w : World) : wire (W.file_ref d w) = wire w.
Proof. reflexivity. Qed.

Lemma wire_crypt (d : Z) (w : World) : wire (W.crypt d w) = wire w.
Proof. reflexivity. Qed.

Lemma wire_setcb (c : Callbacks) (w : World) : wire (W.setcb c w) = wire w.
Proof. reflexivity. Qed.

Lemma wire_pause (p : bool) (w : World) : wire (W.pause p w) = wire w.
Proof. reflexivity. Qed.

Lemma wire_stat (a b c : string) (n : Z) (w : World) :
  wire (W.send_statistic_msg a b c n w) = wire w.
Proof. reflexivity. Qed.

Lemma wire_of_write (c : bytes) (w : World) : wire (W.write c w) = wire_write c (wire w).
Proof. reflexivity. Qed.

Lemma wire_of_end (w : World) : wire (W.send_reply_end w) = wire_end (wire w).
Proof. reflexivity. Qed.

Lemma wire_free_sendfile (data : SendfileData) (w : World) :
  wire (free_sendfile_data data w) = wire w.
Proof.
  unfold free_sendfile_data.
  destruct (sf_handle data), (sf_enc_init data), (sf_crypt data); reflexivity.
Qed.

Lemma wire_free_range (data : SendFileRangeData) (w : World) :
  wire (free_send_file_range_data data w) = wire w.
Proof.
  unfold free_send_file_range_data. destruct (fr_handle data); reflexivity.
Qed.

Lemma wire_write_nil (x : Wire) : wire_write [] x = x.
Proof. destruct x as [[[[[h s] b] d] f] u]. simpl. now rewrite app_nil_r. Qed.

Lemma wire_write_app (a b : bytes) (x : Wire) :
  wire_write b (wire_write a x) = wire_write (a ++ b) x.
Proof. destruct x as [[[[[h s] c] d] f] u]. simpl. now rewrite app_assoc. Qed.

Create Rewrite HintDb wire.
#[local] Hint Rewrite wire_heap wire_handle wire_cipher wire_file_ref wire_crypt
  wire_setcb wire_pause wire_stat wire_of_write wire_of_end wire_free_sendfile
  wire_free_range : wire.

Lemma blk_at_middle (file : Seafile) (pre : list string) (cur : string) (next : list string) :
  blk_sha1s file = pre ++ cur :: next ->
  blk_at file (Z.of_nat (List.length pre)) = Some cur.
Proof.
  intros H. unfold blk_at. rewrite H.
  destruct (Z.of_nat (List.length pre) <? 0) eqn:E; [apply Z.ltb_lt in E; lia|].
  rewrite Nat2Z.id. rewrite nth_error_app2 by lia.
  now rewrite Nat.sub_diag.
Qed.

Lemma n_blocks_split (file : Seafile) (pre : list string) (cur : string) (next : list string) :
  blk_sha1s file = pre ++ cur :: next ->
  n_blocks file = Z.of_nat (List.length pre) + 1 + Z.of_nat (List.length next).
Proof.
  intros H. unfold n_blocks. rewrite H, length_app. simpl. lia.
Qed.

Lemma chunk_len_pos : (0 < chunk_len)%nat.
Proof. unfold chunk_len, BUFFER_SIZE. lia. Qed.

Lemma chunk_len_Z : Z.of_nat chunk_len = 65536.
Proof. unfold chunk_len, BUFFER_SIZE. lia. Qed.

Lemma chunk_len_fold : Z.to_nat BUFFER_SIZE = chunk_len.
Proof. reflexivity. Qed.

#[local] Opaque chunk_len.

Lemma read_block_chunk (bsz : Z) (raw : bytes) :
  seaf_block_manager_read_block (mkHandle bsz raw) BUFFER_SIZE =
  (Z.of_nat (List.length (firstn chunk_len raw)), firstn chunk_len raw,
   mkHandle bsz (skipn chunk_len raw)).
Proof.
  unfold seaf_block_manager_read_block. cbn [bh_rest bh_size].
  rewrite chunk_len_fold. rewrite to_int_small; [reflexivity|].
  pose proof (firstn_le_length chunk_len raw) as H.
  pose proof chunk_len_Z. lia.
Qed.

Lemma firstn_nil_iff {A : Type} (n : nat) (l : list A) :
  (0 < n)%nat -> firstn n l = [] -> l = [].
Proof. destruct n, l; simpl; intros Hn H; try lia; try discriminate H; reflexivity. Qed.

Lemma skipn_shorter {A : Type} (n : nat) (l : list A) :
  (0 < n)%nat -> l <> [] -> (List.length (skipn n l) < List.length l)%nat.
Proof.
  intros Hn Hl. rewrite length_skipn. destruct l; [congruence|].
  cbn [List.length]. lia.
Qed.

(** With its block already open, the callback skips the opening
    prologue. *)
Lemma write_data_open_some (blk_id : string) (data : SendfileData) (w : World)
      (h : BlockHandle) :
  sf_handle data = Some h -> write_data_open blk_id data w = inl (h, data, w).
Proof. intros H. unfold write_data_open. now rewrite H. Qed.

(** Opening a stored block of an engine state that has none open. *)
Lemma write_data_open_none (blk_id : string) (b p : bytes)
      (file : Seafile) (crypt : option SeafileCrypt) (enc : bool)
      (ctx : option EVP_CIPHER_CTX) (remain idx : Z) (store : string) (ver : Z)
      (user tt : string) (cb : Callbacks) (w : World) :
  stored store ver blk_id b -> block_plain crypt b p ->
  exists enc' ctx' w',
    write_data_open blk_id
      (mkSendfileData file crypt enc ctx None remain idx store ver user tt cb) w =
    inl (mkHandle (Z.of_nat (List.length b)) b,
         mkSendfileData file crypt enc' ctx'
                        (Some (mkHandle (Z.of_nat (List.length b)) b))
                        (Z.of_nat (List.length b)) idx store ver user tt cb, w') /\
    wire w' = wire w /\
    open_inv crypt ctx' (Z.of_nat (List.length b)) b p.
Proof.
  intros Hst Hpl. unfold write_data_open, seaf_block_manager_open_block.
  cbn [sf_handle sf_store_id sf_repo_version]. unfold stored in Hst. rewrite Hst.
  cbn [seaf_block_manager_stat_block_by_handle bh_size sf_set_handle sf_set_remain
       sf_crypt sf_file sf_enc_init sf_ctx sf_handle sf_remain sf_idx sf_store_id
       sf_repo_version sf_user sf_token_type sf_saved_cb].
  destruct crypt as [c|].
  - destruct Hpl as (Hne & Hsz & Hdec). unfold decrypt_block in Hdec.
    destruct (seafile_decrypt_init _ _ _) as [cx|] eqn:Ei; [|discriminate].
    destruct (EVP_DecryptUpdate cx b) as [[cx1 o]|] eqn:Eu; [|discriminate].
    destruct (EVP_DecryptFinal_ex cx1) as [f|] eqn:Ef; [|discriminate].
    injection Hdec as <-.
    exists true, (Some cx), (W.cipher 1 (W.handle 1 w)).
    split; [reflexivity|]. split; [reflexivity|].
    cbn [open_inv]. split; [reflexivity|]. split; [exact Hsz|].
    right. split; [exact Hne|]. exists cx, cx1, o, f. auto.
  - exists enc, ctx, (W.handle 1 w). cbn in Hpl. subst p.
    split; [reflexivity|]. split; [reflexivity|]. reflexivity.
Qed.

(** Sending the chunk just read from an open block. *)
Lemma write_data_send_ok
      (file : Seafile) (crypt : option SeafileCrypt) (enc : bool)
      (ctx : option EVP_CIPHER_CTX) (remain idx bsz : Z) (store : string) (ver : Z)
      (user tt : string) (cb : Callbacks) (w : World) (raw pend : bytes) :
  (crypt <> None -> update_streams) ->
  open_inv crypt ctx remain raw pend -> raw <> [] ->
  exists ctx' remain' out pend' w',
    write_data_send (firstn chunk_len raw)
      (mkSendfileData file crypt enc ctx (Some (mkHandle bsz (skipn chunk_len raw)))
         (u64 (remain - Z.of_nat (List.length (firstn chunk_len raw))))
         idx store ver user tt cb) w =
    (Some (mkSendfileData file crypt enc ctx'
             (Some (mkHandle bsz (skipn chunk_len raw))) remain' idx store ver
             user tt cb), w') /\
    wire w' = wire_write out (wire w) /\
    pend = out ++ pend' /\
    open_inv crypt ctx' remain' (skipn chunk_len raw) pend'.
Proof.
  intros Hlaw Hinv Hraw. unfold write_data_send. cbn [sf_crypt].
  pose proof (firstn_skipn chunk_len raw) as Hsplit.
  assert (Hlen : List.length raw =
                 (List.length (firstn chunk_len raw)
                  + List.length (skipn chunk_len raw))%nat).
  { now rewrite <- length_app, Hsplit. }
  destruct crypt as [c|].
  - cbn [open_inv] in Hinv.
    destruct Hinv as (Hrem & Hsz & [[Hnil _]|(_ & cx & cxf & o & f & Hctx & Hup & Hfin & Hpend)]);
      [congruence|].
    subst ctx. cbn [sf_ctx].
    assert (Hrem' : u64 (remain - Z.of_nat (List.length (firstn chunk_len raw)))
                    = Z.of_nat (List.length (skipn chunk_len raw))).
    { rewrite u64_small; lia. }
    destruct (skipn chunk_len raw) as [|r0 rest] eqn:Erest.
    + rewrite app_nil_r in Hsplit. rewrite Hsplit, Hup.
      cbn [sf_set_ctx sf_remain sf_enc_init sf_file sf_crypt sf_handle sf_idx
           sf_store_id sf_repo_version sf_user sf_token_type sf_saved_cb].
      rewrite Hsplit in Hrem'. rewrite Hrem'. cbn [List.length Z.of_nat Z.eqb].
      rewrite Hfin.
      exists (Some cxf), 0, (o ++ f), [], (W.write (o ++ f) w).
      split; [reflexivity|]. split; [reflexivity|].
      split; [now rewrite app_nil_r|].
      cbn [open_inv]. split; [reflexivity|]. split; [lia|]. left. auto.
    + assert (Hc : firstn chunk_len raw <> []).
      { intros E. apply firstn_nil_iff in E; [congruence | apply chunk_len_pos]. }
      assert (Hr : r0 :: rest <> []) by discriminate.
      pose proof (Hlaw ltac:(discriminate) cx _ _ Hc Hr) as Hl.
      rewrite Hsplit, Hup in Hl.
      destruct (EVP_DecryptUpdate cx (firstn chunk_len raw)) as [[cx1 o1]|];
        [|discriminate].
      destruct (EVP_DecryptUpdate cx1 (r0 :: rest)) as [[cx2 o2]|] eqn:Eu2;
        [|discriminate].
      injection Hl as <- ->.
      cbn [sf_set_ctx sf_remain sf_enc_init sf_file sf_crypt sf_handle sf_idx
           sf_store_id sf_repo_version sf_user sf_token_type sf_saved_cb].
      rewrite Hrem'.
      destruct (Z.of_nat (List.length (r0 :: rest)) =? 0) eqn:E0;
        [apply Z.eqb_eq in E0; cbn [List.length] in E0; lia|].
      exists (Some cx1), (Z.of_nat (List.length (r0 :: rest))), o1, (o2 ++ f),
             (W.write o1 w).
      split; [reflexivity|]. split; [reflexivity|].
      split; [now rewrite app_assoc|].
      cbn [open_inv]. split; [reflexivity|]. split.
      * lia.
      * right. split; [exact Hr|]. exists cx1, cxf, o2, f. auto.
  - cbn [open_inv] in Hinv. subst pend.
    exists ctx, (u64 (remain - Z.of_nat (List.length (firstn chunk_len raw)))),
           (firstn chunk_len raw), (skipn chunk_len raw),
           (W.write (firstn chunk_len raw) w).
    split; [reflexivity|]. split; [reflexivity|].
    split; [now rewrite Hsplit|]. reflexivity.
Qed.

(** A callback that finds no block open opens the current one and goes on
    as if it had been open. *)
Lemma write_data_next_opens (g : nat) (blk_id : string) (b p : bytes)
      (file : Seafile) (crypt : option SeafileCrypt) (enc : bool)
      (ctx : option EVP_CIPHER_CTX) (remain idx : Z) (store : string) (ver : Z)
      (user tt : string) (cb : Callbacks) (w : World) :
  blk_at file idx = Some blk_id ->
  stored store ver blk_id b -> block_plain crypt b p ->
  exists enc' ctx' w',
    write_data_next (S g)
      (mkSendfileData file crypt enc ctx None remain idx store ver user tt cb) w =
    write_data_next (S g)
      (mkSendfileData file crypt enc' ctx'
         (Some (mkHandle (Z.of_nat (List.length b)) b))
         (Z.of_nat (List.length b)) idx store ver user tt cb) w' /\
    wire w' = wire w /\
    open_inv crypt ctx' (Z.of_nat (List.length b)) b p.
Proof.
  intros Hat Hst Hpl.
  destruct (write_data_open_none blk_id b p file crypt enc ctx remain idx store ver
              user tt cb w Hst Hpl) as (enc' & ctx' & w' & Hopen & Hw & Hinv).
  exists enc', ctx', w'. split; [|split; assumption].
  cbn [write_data_next sf_file sf_idx]. rewrite Hat, Hopen.
  rewrite (write_data_open_some _ _ _ (mkHandle (Z.of_nat (List.length b)) b));
    reflexivity.
Qed.

Lemma tick_open (nexts_raw : list bytes) :
  forall (gas : nat) (file : Seafile) (crypt : option SeafileCrypt) (enc : bool)
         (ctx : option EVP_CIPHER_CTX) (remain bsz : Z) (store : string) (ver : Z)
         (user tt : string) (cb : Callbacks) (w : World)
         (pre_ids : list string) (cur_id : string) (next_ids : list string)
         (raw pend : bytes) (nexts_plain : list bytes),
    (crypt <> None -> update_streams) ->
    blk_sha1s file = pre_ids ++ cur_id :: next_ids ->
    Forall2 (stored store ver) next_ids nexts_raw ->
    Forall2 (block_plain crypt) nexts_raw nexts_plain ->
    open_inv crypt ctx remain raw pend ->
    (List.length nexts_raw < gas)%nat ->
    tick_result crypt (wire w) (pend ++ List.concat nexts_plain)
      (List.length raw + total_len nexts_raw)
      (write_data_next gas
         (mkSendfileData file crypt enc ctx (Some (mkHandle bsz raw)) remain
            (Z.of_nat (List.length pre_ids)) store ver user tt cb) w).
Proof.
  induction nexts_raw as [|cur2 nexts' IH];
    intros gas file crypt enc ctx remain bsz store ver user tt cb w
           pre_ids cur_id next_ids raw pend nexts_plain
           Hlaw Hids Hst Hpl Hinv Hgas;
    (destruct gas as [|g]; [cbn [List.length] in Hgas; lia|]);
    cbn [write_data_next sf_file sf_idx];
    rewrite (blk_at_middle _ _ _ _ Hids);
    rewrite (write_data_open_some _ _ _ (mkHandle bsz raw)) by reflexivity;
    rewrite read_block_chunk;
    sf_simpl;
    (destruct (Z.of_nat (List.length (firstn chunk_len raw)) <? 0) eqn:Eneg;
      [apply Z.ltb_lt in Eneg; lia|]);
    destruct raw as [|r0 raw'].
  - (* last block, drained *)
    rewrite firstn_nil. cbn [List.length Z.of_nat Z.eqb].
    inversion Hst; subst. inversion Hpl; subst.
    assert (Hpend : pend = []).
    { destruct crypt; cbn [open_inv] in Hinv.
      - destruct Hinv as (_ & _ & [[_ H]|[H _]]); congruence.
      - exact Hinv. }
    subst pend.
    assert (Hlast : (Z.of_nat (List.length pre_ids) =? n_blocks file - 1) = true).
    { rewrite (n_blocks_split _ _ _ _ Hids). cbn [List.length Z.of_nat].
      apply Z.eqb_eq. lia. }
    destruct crypt as [c|];
      sf_simpl;
      rewrite Hlast; cbn [tick_result];
      (split; [reflexivity|]);
      destruct (negb (String.eqb tt "view")); autorewrite with wire; reflexivity.
  - (* last block, data to send *)
    inversion Hst; subst. inversion Hpl; subst.
    assert (Hne : r0 :: raw' <> []) by discriminate.
    assert (Hc : firstn chunk_len (r0 :: raw') <> []).
    { intros E. apply firstn_nil_iff in E; [congruence | apply chunk_len_pos]. }
    destruct (Z.of_nat (List.length (firstn chunk_len (r0 :: raw'))) =? 0) eqn:E0.
    { apply Z.eqb_eq in E0. destruct (firstn chunk_len (r0 :: raw')); [congruence|].
      cbn [List.length] in E0. lia. }
    destruct (write_data_send_ok file crypt enc ctx remain
                (Z.of_nat (List.length pre_ids)) bsz store ver user tt cb w
                (r0 :: raw') pend Hlaw Hinv Hne)
      as (ctx' & remain' & out & pend' & w' & Hsend & Hw & Hpend & Hinv').
    rewrite Hsend. cbn [tick_result].
    exists out, (pend' ++ List.concat []),
           (List.length (skipn chunk_len (r0 :: raw')) + total_len [])%nat.
    split; [rewrite Hpend; now rewrite app_assoc|].
    split; [exact Hw|]. split.
    + exists pre_ids, cur_id, [], (skipn chunk_len (r0 :: raw')), pend', [], [], bsz.
      cbn [sf_file sf_crypt sf_enc_init sf_ctx sf_handle sf_remain sf_idx
           sf_store_id sf_repo_version sf_user sf_token_type sf_saved_cb].
      repeat split; auto.
    + pose proof (skipn_shorter chunk_len (r0 :: raw') chunk_len_pos Hne). lia.
  - (* drained, more blocks follow *)
    rewrite firstn_nil. cbn [List.length Z.of_nat Z.eqb].
    inversion Hst as [|id2 b2 ids' bs' Hst2 Hst' E1 E2]; subst.
    inversion Hpl as [|b2' p2 bs'' ps' Hp2 Hpl' E1 E2]; subst.
    assert (Hlast : (Z.of_nat (List.length pre_ids) =? n_blocks file - 1) = false).
    { rewrite (n_blocks_split _ _ _ _ Hids). cbn [List.length].
      apply Z.eqb_neq. lia. }
    assert (Hpend : pend = []).
    { destruct crypt; cbn [open_inv] in Hinv.
      - destruct Hinv as (_ & _ & [[_ H]|[H _]]); congruence.
      - exact Hinv. }
    subst pend.
    assert (Hids' : blk_sha1s file = (pre_ids ++ [cur_id]) ++ id2 :: ids').
    { rewrite Hids. now rewrite <- app_assoc. }
    assert (Hidx : Z.of_nat (List.length pre_ids) + 1
                   = Z.of_nat (List.length (pre_ids ++ [cur_id]))).
    { rewrite length_app. cbn [List.length]. lia. }
    assert (Hg : (List.length nexts' < g)%nat) by (cbn [List.length] in Hgas; lia).
    destruct g as [|g']; [lia|].
    destruct crypt as [c|]; sf_simpl; rewrite Hlast, Hidx;
      match goal with
      | |- tick_result _ _ _ _
             (write_data_next _ (mkSendfileData _ ?cr ?e1 _ _ _ _ _ _ _ _ _) ?wn) =>
          destruct (write_data_next_opens g' id2 cur2 p2 file cr e1 ctx
                      (u64 (remain - 0))
                      (Z.of_nat (List.length (pre_ids ++ [cur_id])))
                      store ver user tt cb wn (blk_at_middle _ _ _ _ Hids') Hst2 Hp2)
            as (enc' & ctx' & w' & Heq & Hw' & Hinv');
          rewrite Heq;
          pose proof (IH (S g') file cr enc' ctx' (Z.of_nat (List.length cur2))
                         (Z.of_nat (List.length cur2)) store ver user tt cb w'
                         (pre_ids ++ [cur_id]) id2 ids' cur2 p2 ps'
                         Hlaw Hids' Hst' Hpl' Hinv' Hg) as Hres;
          rewrite Hw' in Hres; autorewrite with wire in Hres;
          cbn [app List.concat]; unfold total_len in *;
          cbn [List.concat List.length]; rewrite length_app; exact Hres
      end.
  - (* data to send, more blocks follow *)
    assert (Hne : r0 :: raw' <> []) by discriminate.
    assert (Hc : firstn chunk_len (r0 :: raw') <> []).
    { intros E. apply firstn_nil_iff in E; [congruence | apply chunk_len_pos]. }
    destruct (Z.of_nat (List.length (firstn chunk_len (r0 :: raw'))) =? 0) eqn:E0.
    { apply Z.eqb_eq in E0. destruct (firstn chunk_len (r0 :: raw')); [congruence|].
      cbn [List.length] in E0. lia. }
    destruct (write_data_send_ok file crypt enc ctx remain
                (Z.of_nat (List.length pre_ids)) bsz store ver user tt cb w
                (r0 :: raw') pend Hlaw Hinv Hne)
      as (ctx' & remain' & out & pend' & w' & Hsend & Hw & Hpend & Hinv').
    rewrite Hsend. cbn [tick_result].
    exists out, (pend' ++ List.concat nexts_plain),
           (List.length (skipn chunk_len (r0 :: raw')) + total_len (cur2 :: nexts'))%nat.
    split; [rewrite Hpend; now rewrite app_assoc|].
    split; [exact Hw|]. split.
    + exists pre_ids, cur_id, next_ids, (skipn chunk_len (r0 :: raw')), pend',
             (cur2 :: nexts'), nexts_plain, bsz.
      cbn [sf_file sf_crypt sf_enc_init sf_ctx sf_handle sf_remain sf_idx
           sf_store_id sf_repo_version sf_user sf_token_type sf_saved_cb].
      repeat split; auto.
    + pose proof (skipn_shorter chunk_len (r0 :: raw') chunk_len_pos Hne). lia.
Qed.

(** One call of the write callback between two ticks. *)
Lemma write_data_cb_tick (crypt : option SeafileCrypt) (data : SendfileData)
      (pending : bytes) (m : nat) (w : World) :
  (crypt <> None -> update_streams) ->
  sf_streaming crypt data pending m ->
  tick_result crypt (wire w) pending m (write_data_cb data w).
Proof.
  intros Hlaw (pre_ids & cur_id & next_ids & raw & pend & nexts_raw & nexts_plain & bsz
               & Hcr & Hids & Hidx & Hh & Hst & Hpl & Hinv & Hp & Hm).
  destruct data as [file crypt' enc ctx handle remain idx store ver user tt cb].
  cbn [sf_file sf_crypt sf_enc_init sf_ctx sf_handle sf_remain sf_idx
       sf_store_id sf_repo_version sf_user sf_token_type sf_saved_cb] in *.
  subst handle idx crypt' pending m. unfold write_data_cb.
  cbn [sf_file sf_idx].
  apply tick_open with (cur_id := cur_id) (next_ids := next_ids); auto.
  apply Forall2_length in Hst. rewrite <- Hst.
  rewrite (n_blocks_split _ _ _ _ Hids). lia.
Qed.

(** The first call, on the state [do_file] installs. *)
Lemma write_data_cb_first (file : Seafile) (crypt : option SeafileCrypt)
      (store : string) (ver : Z) (user tt : string) (cb : Callbacks) (w : World)
      (raws plains : list bytes) :
  (crypt <> None -> update_streams) ->
  blk_sha1s file <> [] ->
  Forall2 (stored store ver) (blk_sha1s file) raws ->
  Forall2 (block_plain crypt) raws plains ->
  tick_result crypt (wire w) (List.concat plains) (total_len raws)
    (write_data_cb
       (mkSendfileData file crypt false None None 0 0 store ver user tt cb) w).
Proof.
  intros Hlaw Hne Hst Hpl.
  destruct (blk_sha1s file) as [|id1 ids] eqn:Hids; [congruence|].
  inversion Hst as [|i1 b1 is1 bs Hst1 Hst' E1 E2]; subst.
  inversion Hpl as [|b1' p1 bs' ps Hp1 Hpl' E1 E2]; subst.
  unfold write_data_cb. cbn [sf_file sf_idx].
  assert (Hids0 : blk_sha1s file = [] ++ id1 :: ids) by exact Hids.
  destruct (write_data_next_opens (Z.to_nat (n_blocks file - 0)) id1 b1 p1 file crypt
              false None 0 (Z.of_nat (List.length (@nil string))) store ver user tt cb w
              (blk_at_middle _ _ _ _ Hids0) Hst1 Hp1)
    as (enc' & ctx' & w' & Heq & Hw' & Hinv').
  cbn [List.length Z.of_nat] in Heq. rewrite Heq.
  rewrite <- Hw'.
  cbn [List.concat]. unfold total_len. cbn [List.concat]. rewrite length_app.
  apply (tick_open bs (S (Z.to_nat (n_blocks file - 0))) file crypt enc' ctx'
           (Z.of_nat (List.length b1)) (Z.of_nat (List.length b1)) store ver user tt
           cb w' [] id1 ids b1 p1 ps); auto.
  apply Forall2_length in Hst'. rewrite <- Hst'.
  rewrite (n_blocks_split _ _ _ _ Hids0). cbn [List.length]. lia.
Qed.

(** Driven by the transport, a streaming engine sends what is pending,
    ends the reply and frees its state. *)
Lemma run_sendfile_streaming (crypt : option SeafileCrypt) (m : nat) :
  forall (data : SendfileData) (pending : bytes) (m' : nat) (w : World),
    (crypt <> None -> update_streams) ->
    sf_streaming crypt data pending m' -> (m' <= m)%nat ->
    exists ticks w',
      run_sendfile ticks data w = (None, w') /\
      wire w' = wire_end (wire_write pending (wire w)).
Proof.
  induction m as [|m IH]; intros data pending m' w Hlaw Hs Hle;
    pose proof (write_data_cb_tick crypt data pending m' w Hlaw Hs) as Ht;
    destruct (write_data_cb data w) as [[data'|] w1] eqn:Ecb; cbn [tick_result] in Ht.
  - destruct Ht as (? & ? & m'' & _ & _ & _ & Hlt). lia.
  - destruct Ht as [-> Hw]. exists 1%nat, w1. cbn [run_sendfile]. rewrite Ecb.
    split; [reflexivity|]. now rewrite wire_write_nil.
  - destruct Ht as (chunk & pending' & m'' & -> & Hw & Hs' & Hlt).
    destruct (IH data' pending' m'' w1 Hlaw Hs' ltac:(lia)) as (ticks & w' & Hrun & Hw').
    exists (S ticks), w'. cbn [run_sendfile]. rewrite Ecb.
    split; [exact Hrun|]. rewrite Hw', Hw. now rewrite wire_write_app.
  - destruct Ht as [-> Hw]. exists 1%nat, w1. cbn [run_sendfile]. rewrite Ecb.
    split; [reflexivity|]. now rewrite wire_write_nil.
Qed.

(** From the state [do_file] installs to the end of the reply. *)
Lemma run_sendfile_complete (file : Seafile) (crypt : option SeafileCrypt)
      (store : string) (ver : Z) (user tt : string) (cb : Callbacks) (w : World)
      (raws plains : list bytes) :
  (crypt <> None -> update_streams) ->
  blk_sha1s file <> [] ->
  Forall2 (stored store ver) (blk_sha1s file) raws ->
  Forall2 (block_plain crypt) raws plains ->
  exists ticks w',
    run_sendfile ticks
      (mkSendfileData file crypt false None None 0 0 store ver user tt cb) w = (None, w') /\
    wire w' = wire_end (wire_write (List.concat plains) (wire w)).
Proof.
  intros Hlaw Hne Hst Hpl.
  pose proof (write_data_cb_first file crypt store ver user tt cb w raws plains
                Hlaw Hne Hst Hpl) as Ht.
  destruct (write_data_cb _ w) as [[data'|] w1] eqn:Ecb; cbn [tick_result] in Ht.
  - destruct Ht as (chunk & pending' & m' & Hp & Hw & Hs & _).
    destruct (run_sendfile_streaming crypt m' data' pending' m' w1 Hlaw Hs (le_n _))
      as (ticks & w' & Hrun & Hw').
    exists (S ticks), w'. cbn [run_sendfile]. rewrite Ecb.
    split; [exact Hrun|]. rewrite Hw', Hw, Hp. now rewrite wire_write_app.
  - destruct Ht as [Hp Hw]. exists 1%nat, w1. cbn [run_sendfile]. rewrite Ecb.
    split; [reflexivity|]. rewrite Hp. now rewrite wire_write_nil.
Qed.

Lemma header_values_add (k v key : string) (w : World) :
  header_values (W.add_header k v w) key =
  header_values w key ++ (if String.eqb k key then [v] else []).
Proof.
  unfold header_values, W.add_header. cbn [w_headers_out].
  rewrite filter_app, map_app. cbn [filter fst].
  destruct (String.eqb k key); reflexivity.
Qed.

Lemma fmt_i64_nonneg (z : Z) : 0 <= z < 2 ^ 63 -> fmt_i64 (as_i64 z) = fmt_u64 z.
Proof.
  intros H. unfold as_i64. rewrite u64_small by lia.
  destruct (z <? 2 ^ 63) eqn:E; [|apply Z.ltb_ge in E; lia].
  unfold fmt_i64, fmt_u64. destruct z; try reflexivity. lia.
Qed.

Lemma wire_end_write_fields (w w' : World) (p : bytes) :
  wire w' = wire_end (wire_write p (wire w)) ->
  w_headers_out w' = w_headers_out w /\ w_status w' = w_status w /\
  w_body w' = w_body w ++ p /\ w_reply_done w' = true /\
  w_conn_freed w' = w_conn_freed w /\ w_fault w' = w_fault w.
Proof.
  unfold wire, wire_end, wire_write. intros H. injection H as H1 H2 H3 H4 H5 H6.
  auto 10.
Qed.

(** On a GET request for a non-empty file [do_file] installs the engine
    at the first block and starts a 200 reply. *)
Lemma do_file_starts (req : Request) (repo : SeafRepo)
      (file_id filename operation user : string) (key : option SeafileCryptKey)
      (w : World) (file : Seafile) :
  req_method req = htp_method_GET ->
  fs_mgr_get_seafile seaf (store_id repo) (version repo) file_id = Some file ->
  blk_sha1s file <> [] ->
  exists cb w1,
    do_file req repo file_id filename operation key user w =
    (0, Some (mkSendfileData file (crypt_of repo key) false None None 0 0
                (copy_store_id (store_id repo)) (version repo) user operation cb),
     w1) /\
    w_status w1 = Some 200 /\
    w_body w1 = w_body w /\ w_conn_freed w1 = w_conn_freed w /\
    w_fault w1 = w_fault w /\
    header_values w1 "Content-Length" =
      header_values w "Content-Length" ++ [fmt_i64 (as_i64 (file_size file))] /\
    header_values w1 "Content-Range" = header_values w "Content-Range".
Proof.
  intros Hget Hfile Hne.
  unfold do_file. rewrite Hfile, Hget.
  assert (Hn : (n_blocks file =? 0) = false).
  { apply Z.eqb_neq. unfold n_blocks. destruct (blk_sha1s file); [congruence|].
    cbn [List.length]. lia. }
  rewrite Hn.
  set (w0 := W.file_ref 1 w).
  assert (Hw0 : forall k, header_values w0 k = header_values w k) by reflexivity.
  assert (Hb0 : w_body w0 = w_body w /\ w_conn_freed w0 = w_conn_freed w
                /\ w_fault w0 = w_fault w) by (repeat split).
  clearbody w0.
  destruct key as [k|]; cbn [crypt_of];
    destruct (g_strcmp0_ne (parse_content_type filename) "image/jpg");
    do 2 eexists; (split; [reflexivity|]); (split; [reflexivity|]);
    cbn [w_body w_conn_freed w_fault W.send_reply_start W.pause W.setcb
         W.add_header W.crypt W.with_heap];
    (repeat split; try (apply Hb0));
    unfold header_values;
    cbn [w_headers_out W.send_reply_start W.pause W.setcb];
    match goal with
    | |- map snd (filter _ (w_headers_out ?x)) = _ =>
        change (map snd (filter (fun kv => String.eqb (fst kv) ?key) (w_headers_out x)))
          with (header_values x key)
    end;
    rewrite !header_values_add;
    change (header_values (W.crypt 1 w0)) with (header_values w0);
    rewrite Hw0; cbn [String.eqb Ascii.eqb Bool.eqb]; rewrite ?app_nil_r; reflexivity.
Qed.

(** C1. An unencrypted, non-empty file served in whole-file mode on a GET
    request: [do_file] starts a 200 reply whose Content-Length is the
    file's [file_size], and the transport, driving the write callback,
    receives as body the contents of the file's blocks in list order, after
    which the reply is ended. *)
Theorem whole_file_body_is_block_concatenation
        (req : Request) (repo : SeafRepo) (file_id filename operation user : string)
        (w : World) (file : Seafile) (blocks : list bytes) :
  req_method req = htp_method_GET ->
  fs_mgr_get_seafile seaf (store_id repo) (version repo) file_id = Some file ->
  blk_sha1s file <> [] ->
  0 <= file_size file < 2 ^ 63 ->
  Forall2 (stored (copy_store_id (store_id repo)) (version repo)) (blk_sha1s file) blocks ->
  header_values w "Content-Length" = [] ->
  exists data w1,
    do_file req repo file_id filename operation None user w = (0, Some data, w1) /\
    w_status w1 = Some 200 /\
    header_values w1 "Content-Length" = [fmt_u64 (file_size file)] /\
    exists ticks w2,
      run_sendfile ticks data w1 = (None, w2) /\
      w_status w2 = Some 200 /\
      w_headers_out w2 = w_headers_out w1 /\
      w_body w2 = w_body w ++ List.concat blocks /\
      w_reply_done w2 = true /\
      w_conn_freed w2 = w_conn_freed w /\
      w_fault w2 = w_fault w.
Proof.
  intros Hget Hfile Hne Hsize Hst Hcl.
  destruct (do_file_starts req repo file_id filename operation user None w file
              Hget Hfile Hne)
    as (cb & w1 & Hdo & Hs1 & Hb1 & Hf1 & Hu1 & Hcl1 & _).
  cbn [crypt_of] in Hdo. rewrite Hdo. do 2 eexists. split; [reflexivity|].
  split; [exact Hs1|]. split.
  { rewrite Hcl1, Hcl. rewrite fmt_i64_nonneg by exact Hsize. reflexivity. }
  destruct (run_sendfile_complete file None (copy_store_id (store_id repo))
              (version repo) user operation cb w1 blocks blocks
              ltac:(congruence) Hne Hst) as (ticks & w2 & Hrun & Hw).
  { clear. induction blocks; constructor; [reflexivity | assumption]. }
  exists ticks, w2. split; [exact Hrun|].
  apply wire_end_write_fields in Hw.
  destruct Hw as (Hh & Hs & Hb & Hd & Hf & Hu).
  repeat split; congruence.
Qed.

(* ================================================================== *)
(** * Properties of the byte-range engine *)
(* ================================================================== *)

Lemma range_bsize (r : nat) :
  Z.to_nat (to_int (if Z.of_nat r <? BUFFER_SIZE then Z.of_nat r else BUFFER_SIZE))
  = Nat.min r chunk_len.
Proof.
  pose proof chunk_len_Z as HN. unfold BUFFER_SIZE.
  destruct (Z.of_nat r <? 1024 * 64) eqn:E.
  - apply Z.ltb_lt in E. rewrite to_int_small by lia. lia.
  - apply Z.ltb_ge in E. rewrite to_int_small by lia. lia.
Qed.

Lemma read_block_range (bsz : Z) (raw : bytes) (r : nat) :
  seaf_block_manager_read_block (mkHandle bsz raw)
    (to_int (if Z.of_nat r <? BUFFER_SIZE then Z.of_nat r else BUFFER_SIZE)) =
  (Z.of_nat (List.length (firstn (Nat.min r chunk_len) raw)),
   firstn (Nat.min r chunk_len) raw,
   mkHandle bsz (skipn (Nat.min r chunk_len) raw)).
Proof.
  unfold seaf_block_manager_read_block. cbn [bh_rest bh_size].
  rewrite range_bsize. rewrite to_int_small; [reflexivity|].
  pose proof (firstn_le_length (Nat.min r chunk_len) raw) as H.
  pose proof chunk_len_Z. lia.
Qed.

Lemma firstn_plus {A : Type} (a b : nat) (l : list A) :
  firstn (a + b) l = firstn a l ++ firstn b (skipn a l).
Proof.
  revert l. induction a as [|a IH]; intros l; [reflexivity|].
  destruct l as [|x l]; cbn [Nat.add firstn skipn app].
  - now rewrite firstn_nil.
  - now rewrite IH.
Qed.

(** The first [r] bytes of an open block and what follows it, split at
    the chunk one read delivers. *)
Lemma firstn_chunk_split (r k : nat) (raw rest : bytes) :
  (k <= r)%nat ->
  firstn r (raw ++ rest) =
  firstn k raw ++
  firstn (r - List.length (firstn k raw)) (skipn k raw ++ rest).
Proof.
  intros Hk.
  destruct (Nat.le_gt_cases k (List.length raw)) as [Hle|Hgt].
  - rewrite length_firstn, Nat.min_l by exact Hle.
    replace r with (k + (r - k))%nat at 1 by lia.
    rewrite firstn_plus. f_equal.
    + rewrite firstn_app. replace (k - List.length raw)%nat with 0%nat by lia.
      cbn [firstn]. now rewrite app_nil_r.
    + rewrite skipn_app. replace (k - List.length raw)%nat with 0%nat by lia.
      reflexivity.
  - rewrite (firstn_all2 (n:=k) raw) by lia. rewrite (skipn_all2 (n:=k) raw) by lia.
    rewrite firstn_app. rewrite (firstn_all2 (n:=r) raw) by lia. reflexivity.
Qed.

Lemma write_file_range_next_opens (g : nat) (blk_id : string) (b : bytes)
      (file : Seafile) (idx start_off remain : Z) (store : string) (ver : Z)
      (user tt : string) (cb : Callbacks) (w : World) :
  blk_at file idx = Some blk_id -> stored store ver blk_id b ->
  write_file_range_next (S g)
    (mkRangeData file None idx start_off remain store ver user tt cb) w =
  write_file_range_next (S g)
    (mkRangeData file (Some (mkHandle (Z.of_nat (List.length b)) b)) idx start_off
       remain store ver user tt cb) (W.handle 1 w).
Proof.
  intros Hat Hst. cbn [write_file_range_next fr_file fr_blk_idx fr_handle
                       fr_store_id fr_repo_version].
  rewrite Hat. unfold seaf_block_manager_open_block. unfold stored in Hst.
  rewrite Hst. reflexivity.
Qed.

(** A call that finds data in the open block sends one chunk and, when
    the range is complete, ends the reply. *)
Lemma range_tick_send (g : nat) (file : Seafile) (start_off bsz : Z) (store : string)
      (ver : Z) (user tt : string) (cb : Callbacks) (w : World)
      (pre_ids : list string) (cur_id : string) (next_ids : list string)
      (raw : bytes) (nexts_raw : list bytes) (r : nat) :
  blk_sha1s file = pre_ids ++ cur_id :: next_ids ->
  Forall2 (stored store ver) next_ids nexts_raw ->
  raw <> [] ->
  (0 < r <= List.length raw + total_len nexts_raw)%nat ->
  Z.of_nat r < 2 ^ 64 ->
  fr_tick_result (wire w) (firstn r (raw ++ List.concat nexts_raw)) r
    (write_file_range_next (S g)
       (mkRangeData file (Some (mkHandle bsz raw)) (Z.of_nat (List.length pre_ids))
          start_off (Z.of_nat r) store ver user tt cb) w).
Proof.
  intros Hids Hst Hne Hr Hr64.
  cbn [write_file_range_next fr_file fr_blk_idx fr_handle fr_range_remain].
  rewrite (blk_at_middle _ _ _ _ Hids).
  rewrite read_block_range. fr_simpl.
  pose proof chunk_len_pos as HN.
  set (k := Nat.min r chunk_len).
  assert (Hk : (0 < k <= r)%nat) by (subst k; lia).
  assert (Hn : (0 < List.length (firstn k raw) <= k)%nat).
  { split; [|apply firstn_le_length].
    destruct (firstn k raw) eqn:E; [|cbn [List.length]; lia].
    apply firstn_nil_iff in E; [congruence|lia]. }
  set (n := List.length (firstn k raw)) in *.
  destruct (Z.of_nat n <? 0) eqn:Eneg; [apply Z.ltb_lt in Eneg; lia|].
  destruct (Z.of_nat n =? 0) eqn:E0; [apply Z.eqb_eq in E0; lia|].
  replace (u64 (Z.of_nat r - Z.of_nat n)) with (Z.of_nat (r - n))
    by (rewrite u64_small; lia).
  rewrite (firstn_chunk_split r k raw (List.concat nexts_raw)) by lia.
  fold n.
  destruct (Z.of_nat (r - n) =? 0) eqn:Edone.
  - apply Z.eqb_eq in Edone. replace (r - n)%nat with 0%nat by lia.
    cbn [firstn fr_tick_result]. rewrite app_nil_r.
    unfold finish_file_range_request.
    destruct (u64 (start_off + Z.of_nat n) >=? file_size file);
      autorewrite with wire; reflexivity.
  - apply Z.eqb_neq in Edone. cbn [fr_tick_result].
    exists (firstn k raw), (firstn (r - n) (skipn k raw ++ List.concat nexts_raw)),
           (r - n)%nat.
    split; [reflexivity|]. split; [reflexivity|]. split; [|lia].
    exists pre_ids, cur_id, next_ids, (skipn k raw), nexts_raw, bsz.
    fr_simpl. repeat split; auto; try lia.
    rewrite length_skipn.
    assert (Hnk : n = Nat.min k (List.length raw)) by (subst n; apply length_firstn).
    lia.
Qed.

Lemma range_tick_open (nexts_raw : list bytes) :
  forall (gas : nat) (file : Seafile) (start_off bsz : Z) (store : string) (ver : Z)
         (user tt : string) (cb : Callbacks) (w : World)
         (pre_ids : list string) (cur_id : string) (next_ids : list string)
         (raw : bytes) (r : nat),
    blk_sha1s file = pre_ids ++ cur_id :: next_ids ->
    Forall2 (stored store ver) next_ids nexts_raw ->
    (0 < r <= List.length raw + total_len nexts_raw)%nat ->
    Z.of_nat r < 2 ^ 64 ->
    (List.length nexts_raw < gas)%nat ->
    fr_tick_result (wire w) (firstn r (raw ++ List.concat nexts_raw)) r
      (write_file_range_next gas
         (mkRangeData file (Some (mkHandle bsz raw)) (Z.of_nat (List.length pre_ids))
            start_off (Z.of_nat r) store ver user tt cb) w).
Proof.
  induction nexts_raw as [|cur2 nexts' IH];
    intros gas file start_off bsz store ver user tt cb w pre_ids cur_id next_ids raw r
           Hids Hst Hr Hr64 Hgas;
    (destruct gas as [|g]; [cbn [List.length] in Hgas; lia|]);
    destruct raw as [|r0 raw'].
  - unfold total_len in Hr. cbn [List.length List.concat] in Hr. lia.
  - apply (range_tick_send g file start_off bsz store ver user tt cb w pre_ids cur_id
             next_ids (r0 :: raw') [] r Hids Hst); (discriminate || assumption).
  - (* block drained: on to the next one *)
    cbn [write_file_range_next fr_file fr_blk_idx fr_handle fr_range_remain].
    rewrite (blk_at_middle _ _ _ _ Hids).
    rewrite read_block_range. fr_simpl.
    rewrite firstn_nil. cbn [List.length Z.of_nat Z.eqb Z.ltb Z.compare].
    inversion Hst as [|id2 b2 ids' bs' Hst2 Hst' E1 E2]; subst.
    assert (Hids' : blk_sha1s file = (pre_ids ++ [cur_id]) ++ id2 :: ids').
    { rewrite Hids. now rewrite <- app_assoc. }
    assert (Hidx : Z.of_nat (List.length pre_ids) + 1
                   = Z.of_nat (List.length (pre_ids ++ [cur_id]))).
    { rewrite length_app. cbn [List.length]. lia. }
    assert (Hg : (List.length nexts' < g)%nat) by (cbn [List.length] in Hgas; lia).
    destruct g as [|g']; [lia|].
    rewrite Hidx. rewrite Z.sub_0_r. rewrite u64_small by lia.
    rewrite (write_file_range_next_opens g' id2 cur2 file _ start_off (Z.of_nat r)
               store ver user tt cb _ (blk_at_middle _ _ _ _ Hids') Hst2).
    pose proof (IH (S g') file start_off (Z.of_nat (List.length cur2)) store ver user tt
                   cb (W.handle 1 (W.handle (-1) w)) (pre_ids ++ [cur_id]) id2 ids'
                   cur2 r Hids' Hst') as Hres.
    autorewrite with wire in Hres. cbn [app List.concat]. apply Hres; try lia.
    unfold total_len in *. cbn [List.concat List.length] in Hr.
    rewrite length_app in Hr. lia.
  - apply (range_tick_send g file start_off bsz store ver user tt cb w pre_ids cur_id
             next_ids (r0 :: raw') (cur2 :: nexts') r Hids Hst);
      (discriminate || assumption).
Qed.

Lemma range_cb_tick (data : SendFileRangeData) (pending : bytes) (r : nat) (w : World) :
  fr_streaming data pending r ->
  fr_tick_result (wire w) pending r (write_file_range_cb data w).
Proof.
  intros (pre_ids & cur_id & next_ids & raw & nexts_raw & bsz
          & Hids & Hidx & Hh & Hst & Hrem & Hr & Hr64 & Hp).
  destruct data as [file handle idx start_off remain store ver user tt cb].
  cbn [fr_file fr_handle fr_blk_idx fr_start_off fr_range_remain fr_store_id
       fr_repo_version fr_user fr_token_type fr_saved_cb] in *.
  subst handle idx remain pending. unfold write_file_range_cb.
  cbn [fr_blk_idx fr_file].
  destruct (Z.of_nat (List.length pre_ids) =? -1) eqn:E; [apply Z.eqb_eq in E; lia|].
  apply range_tick_open with (cur_id := cur_id) (next_ids := next_ids); auto.
  apply Forall2_length in Hst. rewrite <- Hst. cbn [fr_file fr_blk_idx].
  rewrite (n_blocks_split _ _ _ _ Hids). lia.
Qed.

Lemma run_file_range_streaming (m : nat) :
  forall (data : SendFileRangeData) (pending : bytes) (r : nat) (w : World),
    fr_streaming data pending r -> (r <= m)%nat ->
    exists ticks w',
      run_file_range ticks data w = (None, w') /\
      wire w' = wire_end (wire_write pending (wire w)).
Proof.
  induction m as [|m IH]; intros data pending r w Hs Hle;
    pose proof (range_cb_tick data pending r w Hs) as Ht;
    destruct (write_file_range_cb data w) as [[data'|] w1] eqn:Ecb;
    cbn [fr_tick_result] in Ht.
  - destruct Ht as (? & ? & r' & _ & _ & _ & Hlt). lia.
  - exists 1%nat, w1. cbn [run_file_range]. rewrite Ecb. auto.
  - destruct Ht as (chunk & pending' & r' & -> & Hw & Hs' & Hlt).
    destruct (IH data' pending' r' w1 Hs' ltac:(lia)) as (ticks & w' & Hrun & Hw').
    exists (S ticks), w'. cbn [run_file_range]. rewrite Ecb.
    split; [exact Hrun|]. rewrite Hw', Hw. now rewrite wire_write_app.
  - exists 1%nat, w1. cbn [run_file_range]. rewrite Ecb. auto.
Qed.

(** The scan of [get_start_block_handle] stops at the block that holds
    byte [start]. *)
Lemma start_block_scan_finds (store : string) (ver : Z) (start : Z)
      (ids : list string) (raws : list bytes) :
  Forall2 (stored store ver) ids raws ->
  forall (i tol : Z) (last : option string),
    0 <= tol <= start ->
    start < tol + Z.of_nat (total_len raws) ->
    tol + Z.of_nat (total_len raws) < 2 ^ 64 ->
    exists pre cur next praws craw nraws,
      ids = pre ++ cur :: next /\ raws = praws ++ craw :: nraws /\
      stored store ver cur craw /\
      Forall2 (stored store ver) next nraws /\
      start_block_scan store ver ids i tol start last =
        Some (i + Z.of_nat (List.length pre), tol + Z.of_nat (total_len praws), Some cur) /\
      tol + Z.of_nat (total_len praws) <= start
        < tol + Z.of_nat (total_len praws) + Z.of_nat (List.length craw).
Proof.
  unfold total_len.
  induction 1 as [|id b ids raws Hb Hrest IH]; intros i tol last Htol Hstart Hmax.
  - cbn [List.concat List.length] in Hstart. lia.
  - cbn [List.concat] in Hstart, Hmax. rewrite length_app in Hstart, Hmax.
    cbn [start_block_scan]. unfold seaf_block_manager_stat_block.
    unfold stored in Hb. rewrite Hb.
    rewrite u64_small by lia.
    destruct (start <? tol + Z.of_nat (List.length b)) eqn:E.
    + apply Z.ltb_lt in E.
      exists [], id, ids, [], b, raws.
      change (Z.of_nat (List.length (@nil string))) with 0.
      change (Z.of_nat (List.length (List.concat (@nil bytes)))) with 0.
      rewrite !Z.add_0_r. repeat split; auto; lia.
    + apply Z.ltb_ge in E.
      destruct (IH (i + 1) (tol + Z.of_nat (List.length b)) (Some id))
        as (pre & cur & next & praws & craw & nraws & -> & -> & Hc & Hn & Hscan & Hrange);
        try lia.
      exists (id :: pre), cur, next, (b :: praws), craw, nraws.
      change (List.concat (b :: praws)) with (b ++ List.concat praws).
      rewrite length_app. change (List.length (id :: pre)) with (S (List.length pre)).
      repeat split; auto; try lia.
      rewrite Hscan. do 3 f_equal; lia.
Qed.

(** [get_start_block_handle] opens the block that holds byte [start] and
    leaves it positioned at that byte. *)
Lemma get_start_block_handle_ok (store : string) (ver : Z) (file : Seafile)
      (start : Z) (w : World) (raws : list bytes) :
  Forall2 (stored store ver) (blk_sha1s file) raws ->
  Forall (fun b => Z.of_nat (List.length b) < 2 ^ 31) raws ->
  0 <= start < Z.of_nat (total_len raws) ->
  Z.of_nat (total_len raws) < 2 ^ 64 ->
  exists pre cur next craw nraws off,
    blk_sha1s file = pre ++ cur :: next /\
    Forall2 (stored store ver) next nraws /\
    get_start_block_handle store ver file start w =
      (Some (mkHandle (Z.of_nat (List.length craw)) (skipn off craw),
             Z.of_nat (List.length pre)), W.handle 1 w) /\
    skipn (Z.to_nat start) (List.concat raws) = skipn off craw ++ List.concat nraws.
Proof.
  intros Hst Hsmall Hstart Hmax.
  destruct (start_block_scan_finds store ver start _ _ Hst 0 0 None)
    as (pre & cur & next & praws & craw & nraws & Hids & Hraws & Hc & Hn & Hscan & Hrange);
    try lia.
  cbn [Z.add] in Hscan, Hrange.
  assert (Hcraw : Z.of_nat (List.length craw) < 2 ^ 31).
  { rewrite Forall_forall in Hsmall. apply Hsmall. rewrite Hraws.
    apply in_or_app. right. left. reflexivity. }
  set (off := Z.to_nat (start - Z.of_nat (total_len praws))).
  exists pre, cur, next, craw, nraws, off.
  split; [exact Hids|]. split; [exact Hn|]. split.
  - unfold get_start_block_handle. rewrite Hscan.
    rewrite (n_blocks_split _ _ _ _ Hids).
    destruct (Z.of_nat (List.length pre) =?
              Z.of_nat (List.length pre) + 1 + Z.of_nat (List.length next)) eqn:E;
      [apply Z.eqb_eq in E; lia|].
    unfold seaf_block_manager_open_block. unfold stored in Hc. rewrite Hc.
    destruct (start >? Z.of_nat (total_len praws)) eqn:Egt.
    + unfold seaf_block_manager_read_block. cbn [bh_rest bh_size].
      rewrite (to_int_small (start - Z.of_nat (total_len praws))) by lia.
      fold off.
      assert (Hlen : List.length (firstn off craw) = off).
      { rewrite length_firstn. subst off. lia. }
      rewrite Hlen. rewrite to_int_small by (subst off; lia).
      replace (Z.of_nat off) with (start - Z.of_nat (total_len praws)) by (subst off; lia).
      rewrite Z.eqb_refl. reflexivity.
    + replace off with 0%nat.
      * reflexivity.
      * subst off. rewrite Z.gtb_ltb in Egt. apply Z.ltb_ge in Egt. lia.
  - rewrite Hraws. rewrite concat_app. cbn [List.concat].
    unfold total_len in *.
    rewrite skipn_app. rewrite skipn_all2 by lia. cbn [app].
    replace (Z.to_nat start - List.length (List.concat praws))%nat with off
      by (subst off; lia).
    rewrite skipn_app. replace (off - List.length craw)%nat with 0%nat by (subst off; lia).
    reflexivity.
Qed.

(** From the state [do_file_range] installs to the end of the reply. *)
Lemma run_file_range_complete (file : Seafile) (start : Z) (r : nat) (store : string)
      (ver : Z) (user tt : string) (cb : Callbacks) (w : World) (raws : list bytes) :
  Forall2 (stored store ver) (blk_sha1s file) raws ->
  Forall (fun b => Z.of_nat (List.length b) < 2 ^ 31) raws ->
  Z.of_nat (total_len raws) < 2 ^ 64 ->
  0 <= start -> (0 < r)%nat -> start + Z.of_nat r <= Z.of_nat (total_len raws) ->
  exists ticks w',
    run_file_range ticks
      (mkRangeData file None (-1) start (Z.of_nat r) store ver user tt cb) w = (None, w') /\
    wire w' =
    wire_end (wire_write (firstn r (skipn (Z.to_nat start) (List.concat raws))) (wire w)).
Proof.
  intros Hst Hsmall Hmax Hstart Hlen Hend.
  destruct (get_start_block_handle_ok store ver file start w raws Hst Hsmall
              ltac:(lia) Hmax)
    as (pre & cur & next & craw & nraws & off & Hids & Hn & Hget & Hskip).
  assert (Hfirst :
            fr_tick_result (wire w)
              (firstn r (skipn (Z.to_nat start) (List.concat raws))) r
              (write_file_range_cb
                 (mkRangeData file None (-1) start (Z.of_nat r) store ver user tt cb) w)).
  { unfold write_file_range_cb.
    cbn [fr_blk_idx fr_store_id fr_repo_version fr_file fr_start_off].
    change (-1 =? -1) with true. cbv iota.
    rewrite Hget. fr_simpl.
    rewrite Hskip. rewrite <- (wire_handle 1 w).
    apply range_tick_open with (cur_id := cur) (next_ids := next); auto.
    - assert (Hl : List.length (skipn (Z.to_nat start) (List.concat raws))
                   = (total_len raws - Z.to_nat start)%nat)
        by (unfold total_len; apply length_skipn).
      rewrite Hskip, length_app in Hl. unfold total_len in *. lia.
    - unfold total_len in *. lia.
    - apply Forall2_length in Hn. rewrite <- Hn.
      rewrite (n_blocks_split _ _ _ _ Hids). lia. }
  destruct (write_file_range_cb _ w) as [[data'|] w1] eqn:Ecb; cbn [fr_tick_result] in Hfirst.
  - destruct Hfirst as (chunk & pending' & r' & Hp & Hw & Hs & _).
    destruct (run_file_range_streaming r' data' pending' r' w1 Hs (le_n _))
      as (ticks & w' & Hrun & Hw').
    exists (S ticks), w'. cbn [run_file_range]. rewrite Ecb.
    split; [exact Hrun|]. rewrite Hw', Hw, Hp. now rewrite wire_write_app.
  - exists 1%nat, w1. cbn [run_file_range]. rewrite Ecb. auto.
Qed.

(** On a parsed range of a non-empty file [do_file_range] installs the
    engine before the first block and starts a 206 reply. *)
Lemma do_file_range_starts (req : Request) (repo : SeafRepo)
      (file_id filename operation byte_ranges user : string) (w : World)
      (file : Seafile) (start end_ : Z) :
  fs_mgr_get_seafile seaf (store_id repo) (version repo) file_id = Some file ->
  blk_sha1s file <> [] ->
  parse_range_val byte_ranges (file_size file) = RangeOk start end_ ->
  exists cb w1,
    do_file_range req repo file_id filename operation byte_ranges user w =
    (0, Some (mkRangeData file None (-1) start (u64 (end_ - start + 1))
                (copy_store_id (store_id repo)) (version repo) user operation cb),
     w1) /\
    w_status w1 = Some 206 /\
    w_body w1 = w_body w /\ w_conn_freed w1 = w_conn_freed w /\
    w_fault w1 = w_fault w /\
    header_values w1 "Content-Length" =
      header_values w "Content-Length" ++ [fmt_u64 (u64 (end_ - start + 1))] /\
    header_values w1 "Content-Range" =
      header_values w "Content-Range" ++
      [("bytes " ++ fmt_u64 start ++ "-" ++ fmt_u64 end_ ++ "/"
                 ++ fmt_u64 (file_size file))%string] /\
    header_values w1 "Content-Disposition" =
      header_values w "Content-Disposition" ++
      header_values (set_resp_disposition req operation filename world0)
                    "Content-Disposition".
Proof.
  intros Hfile Hne Hparse.
  unfold do_file_range. rewrite Hfile.
  assert (Hn : (n_blocks file =? 0) = false).
  { apply Z.eqb_neq. unfold n_blocks. destruct (blk_sha1s file); [congruence|].
    cbn [List.length]. lia. }
  rewrite Hn, Hparse.
  set (w0 := W.file_ref 1 w).
  assert (Hw0 : forall k, header_values w0 k = header_values w k) by reflexivity.
  assert (Hb0 : w_body w0 = w_body w /\ w_conn_freed w0 = w_conn_freed w
                /\ w_fault w0 = w_fault w) by (repeat split).
  clearbody w0.
  unfold set_resp_disposition.
  destruct (g_strcmp0_ne (parse_content_type filename) "image/jpg");
    do 2 eexists; (split; [reflexivity|]); (split; [reflexivity|]);
    cbn [w_body w_conn_freed w_fault W.send_reply_start W.pause W.setcb
         W.add_header];
    (repeat split; try (apply Hb0));
    unfold header_values at 1;
    cbn [w_headers_out W.send_reply_start W.pause W.setcb];
    match goal with
    | |- map snd (filter _ (w_headers_out ?x)) = _ =>
        change (map snd (filter (fun kv => String.eqb (fst kv) ?key) (w_headers_out x)))
          with (header_values x key)
    end;
    rewrite !header_values_add;
    rewrite Hw0; cbn [String.eqb Ascii.eqb Bool.eqb world0 w_headers_out];
    rewrite ?app_nil_r; reflexivity.
Qed.

(** C2. A byte range of an unencrypted file: when the parser yields
    [(start, end)] with [0 <= start <= end < file_size], [do_file_range]
    starts a 206 reply with [Content-Range: bytes start-end/file_size] and
    [Content-Length: end-start+1], and the transport receives as body the
    bytes [start] to [end] of the concatenation of the file's blocks,
    after which the reply is ended. *)
Theorem byte_range_body_is_slice
        (req : Request) (repo : SeafRepo)
        (file_id filename operation byte_ranges user : string) (w : World)
        (file : Seafile) (blocks : list bytes) (start end_ : Z) :
  fs_mgr_get_seafile seaf (store_id repo) (version repo) file_id = Some file ->
  Forall2 (stored (copy_store_id (store_id repo)) (version repo)) (blk_sha1s file) blocks ->
  Forall (fun b => Z.of_nat (List.length b) < 2 ^ 31) blocks ->
  file_size file = Z.of_nat (total_len blocks) ->
  file_size file < 2 ^ 64 ->
  parse_range_val byte_ranges (file_size file) = RangeOk start end_ ->
  0 <= start <= end_ /\ end_ < file_size file ->
  header_values w "Content-Length" = [] ->
  header_values w "Content-Range" = [] ->
  exists data w1,
    do_file_range req repo file_id filename operation byte_ranges user w
      = (0, Some data, w1) /\
    w_status w1 = Some 206 /\
    header_values w1 "Content-Range" =
      [("bytes " ++ fmt_u64 start ++ "-" ++ fmt_u64 end_ ++ "/"
                 ++ fmt_u64 (file_size file))%string] /\
    header_values w1 "Content-Length" = [fmt_u64 (end_ - start + 1)] /\
    exists ticks w2,
      run_file_range ticks data w1 = (None, w2) /\
      w_status w2 = Some 206 /\
      w_headers_out w2 = w_headers_out w1 /\
      w_body w2 =
        w_body w ++ firstn (Z.to_nat (end_ - start + 1))
                           (skipn (Z.to_nat start) (List.concat blocks)) /\
      w_reply_done w2 = true /\
      w_conn_freed w2 = w_conn_freed w /\
      w_fault w2 = w_fault w.
Proof.
  intros Hfile Hst Hsmall Hsize Hmax Hparse [Hse He] Hcl Hcr.
  assert (Hne : blk_sha1s file <> []).
  { intros E. rewrite E in Hst. inversion Hst; subst.
    unfold total_len in Hsize. cbn in Hsize. lia. }
  destruct (do_file_range_starts req repo file_id filename operation byte_ranges user
              w file start end_ Hfile Hne Hparse)
    as (cb & w1 & Hdo & Hs1 & Hb1 & Hf1 & Hu1 & Hcl1 & Hcr1 & _).
  rewrite u64_small in * by lia.
  replace (end_ - start + 1) with (Z.of_nat (Z.to_nat (end_ - start + 1))) in Hdo
    by lia.
  rewrite Hdo. do 2 eexists. split; [reflexivity|].
  split; [exact Hs1|]. split; [now rewrite Hcr1, Hcr|].
  split; [now rewrite Hcl1, Hcl|].
  destruct (run_file_range_complete file start (Z.to_nat (end_ - start + 1))
              (copy_store_id (store_id repo)) (version repo) user operation cb w1
              blocks Hst Hsmall) as (ticks & w2 & Hrun & Hw); try lia.
  exists ticks, w2. split; [exact Hrun|].
  apply wire_end_write_fields in Hw.
  destruct Hw as (Hh & Hs & Hb & Hd & Hf & Hu).
  repeat split; congruence.
Qed.

(** ** When the range engine reports a download

    The test before [send_statistic_msg] adds the size of the last read,
    not the length of the range, to [start_off]. A range that starts more
    than one buffer before the end of the file therefore never reports,
    wherever it ends. *)

Lemma get_start_block_handle_stats (store : string) (ver : Z) (file : Seafile)
      (start : Z) (w : World) :
  w_stats (snd (get_start_block_handle store ver file start w)) = w_stats w.
Proof.
  unfold get_start_block_handle.
  destruct (start_block_scan _ _ _ _ _ _ _) as [[[i tol] [blkid|]]|]; cbn [snd];
    try reflexivity.
  - destruct (i =? n_blocks file); [reflexivity|].
    destruct (seaf_block_manager_open_block store ver blkid); [|reflexivity].
    destruct (start >? tol); [|reflexivity].
    destruct (seaf_block_manager_read_block _ _) as [[n buf] h'].
    destruct (negb _); reflexivity.
  - destruct (i =? n_blocks file); reflexivity.
Qed.

Lemma range_read_bounds (h : BlockHandle) (remain : Z) :
  0 <= remain ->
  let '(n, _, _) :=
    seaf_block_manager_read_block h
      (to_int (if remain <? BUFFER_SIZE then remain else BUFFER_SIZE)) in
  0 <= n <= BUFFER_SIZE.
Proof.
  intros Hr. unfold seaf_block_manager_read_block.
  set (bsize := to_int (if remain <? BUFFER_SIZE then remain else BUFFER_SIZE)).
  assert (Hb : 0 <= bsize <= BUFFER_SIZE).
  { subst bsize. unfold BUFFER_SIZE in *.
    destruct (remain <? 1024 * 64) eqn:E.
    - apply Z.ltb_lt in E. rewrite to_int_small by lia. lia.
    - rewrite to_int_small by lia. lia. }
  pose proof (firstn_le_length (Z.to_nat bsize) (bh_rest h)) as Hl.
  unfold BUFFER_SIZE in *. rewrite to_int_small by lia. lia.
Qed.

Lemma write_file_range_next_stats (gas : nat) :
  forall (data : SendFileRangeData) (w : World),
    0 <= fr_start_off data -> 0 <= fr_range_remain data ->
    fr_start_off data + BUFFER_SIZE < file_size (fr_file data) ->
    file_size (fr_file data) < 2 ^ 64 ->
    w_stats (snd (write_file_range_next gas data w)) = w_stats w /\
    forall data', fst (write_file_range_next gas data w) = Some data' ->
                  fr_file data' = fr_file data /\
                  fr_start_off data' = fr_start_off data /\
                  0 <= fr_range_remain data'.
Proof.
  induction gas as [|gas IH]; intros data w Hs Hr Hfar Hmax;
    cbn [write_file_range_next]; [split; [reflexivity | discriminate]|].
  destruct (blk_at (fr_file data) (fr_blk_idx data)) as [blk_id|];
    [|split; [reflexivity | discriminate]].
  assert (Herr : forall d w0, w_stats w0 = w_stats w ->
             w_stats (snd (write_file_range_err d w0)) = w_stats w).
  { intros d w0 H. unfold write_file_range_err, free_send_file_range_data.
    cbn [snd]. destruct (fr_handle d); exact H. }
  assert (Hopen : exists o,
             match fr_handle data with
             | Some h => Some (h, w)
             | None =>
                 match seaf_block_manager_open_block (fr_store_id data)
                                                     (fr_repo_version data) blk_id with
                 | Some h => Some (h, W.handle 1 w)
                 | None => None
                 end
             end = o /\
             match o with Some (_, w0) => w_stats w0 = w_stats w | None => True end).
  { eexists. split; [reflexivity|].
    destruct (fr_handle data); [reflexivity|].
    destruct (seaf_block_manager_open_block _ _ _); [reflexivity | exact I]. }
  destruct Hopen as (o & -> & Ho).
  destruct o as [[handle w0]|];
    [|split; [apply Herr; reflexivity | discriminate]].
  pose proof (range_read_bounds handle (fr_range_remain data) Hr) as Hn.
  destruct (seaf_block_manager_read_block handle _) as [[n buf] handle'].
  fr_simpl.
  destruct (n <? 0) eqn:Eneg; [apply Z.ltb_lt in Eneg; lia|].
  destruct (n =? 0) eqn:E0.
  - destruct (IH (mkRangeData (fr_file data) None (fr_blk_idx data + 1)
                    (fr_start_off data) (u64 (fr_range_remain data - n))
                    (fr_store_id data) (fr_repo_version data) (fr_user data)
                    (fr_token_type data) (fr_saved_cb data))
                 (W.handle (-1) w0)) as [Hst Hd]; fr_simpl;
      try assumption; try apply u64_range.
    split; [rewrite Hst; exact Ho|]. exact Hd.
  - destruct (u64 (fr_range_remain data - n) =? 0).
    + assert (Hno : (u64 (fr_start_off data + n) >=? file_size (fr_file data)) = false).
      { rewrite u64_small by (unfold BUFFER_SIZE in *; lia).
        rewrite Z.geb_leb. apply Z.leb_gt. lia. }
      rewrite Hno. cbn [snd fst]. split; [|discriminate].
      unfold finish_file_range_request, free_send_file_range_data. fr_simpl.
      exact Ho.
    + cbn [snd fst]. split; [exact Ho|].
      intros data' H. injection H as <-. fr_simpl.
      repeat split. apply u64_range.
Qed.

(** A range that starts more than one buffer before the end of the file
    is served without any statistics event, however long the transport
    drives the engine. *)
Lemma run_file_range_far_from_eof_no_stat (ticks : nat) :
  forall (data : SendFileRangeData) (w : World),
    0 <= fr_start_off data -> 0 <= fr_range_remain data ->
    fr_start_off data + BUFFER_SIZE < file_size (fr_file data) ->
    file_size (fr_file data) < 2 ^ 64 ->
    w_stats (snd (run_file_range ticks data w)) = w_stats w.
Proof.
  induction ticks as [|ticks IH]; intros data w Hs Hr Hfar Hmax;
    cbn [run_file_range]; [reflexivity|].
  assert (Hcb : w_stats (snd (write_file_range_cb data w)) = w_stats w /\
                forall data', fst (write_file_range_cb data w) = Some data' ->
                              fr_file data' = fr_file data /\
                              fr_start_off data' = fr_start_off data /\
                              0 <= fr_range_remain data').
  { unfold write_file_range_cb.
    destruct (fr_blk_idx data =? -1).
    - pose proof (get_start_block_handle_stats (fr_store_id data) (fr_repo_version data)
                    (fr_file data) (fr_start_off data) w) as Hg.
      destruct (get_start_block_handle _ _ _ _ w) as [[[h i]|] w0]; cbn [snd] in Hg.
      + destruct (write_file_range_next_stats
                    (S (Z.to_nat (n_blocks (fr_file (fr_set_blk_idx i
                                                      (fr_set_handle (Some h) data)))
                                  - fr_blk_idx (fr_set_blk_idx i
                                                  (fr_set_handle (Some h) data)))))
                    (fr_set_blk_idx i (fr_set_handle (Some h) data)) w0)
          as [Hst Hd]; try assumption.
        split; [rewrite Hst; exact Hg | exact Hd].
      + split; [|discriminate].
        unfold write_file_range_err, free_send_file_range_data. cbn [snd].
        destruct (fr_handle data); exact Hg.
    - apply write_file_range_next_stats; assumption. }
  destruct Hcb as [Hst Hd].
  destruct (write_file_range_cb data w) as [[data'|] w1]; cbn [snd fst] in *.
  - destruct (Hd data' eq_refl) as (Hf & Hso & Hrr).
    rewrite IH; [exact Hst | | | |]; rewrite ?Hf, ?Hso; assumption.
  - exact Hst.
Qed.

(* ================================================================== *)
(** * Properties of the dispatcher *)
(* ================================================================== *)

(** C9. A GET request on [/files] for a file of an encrypted repository
    that carries a Range header and passes the prelude (token, operation,
    repository, key, object) is served in whole-file mode: the status is
    200, no Content-Range is sent, and the body is the plaintext of every
    block in list order; the Range header is not looked at. The cipher is
    assumed to stream ([update_streams]). *)
Theorem encrypted_range_request_served_whole
        (req : Request) (token filename byte_ranges : string) (more : list string)
        (wa : SeafileWebAccess) (repo : SeafRepo) (key : SeafileCryptKey)
        (file : Seafile) (blocks plains : list bytes) :
  update_streams ->
  req_method req = htp_method_GET ->
  CStr.g_strsplit_slash (CStr.drop 1 (req_path_full req))
    = "files"%string :: token :: filename :: more ->
  evhtp_kv_find (req_headers_in req) "Range" = Some byte_ranges ->
  evhtp_kv_find (req_headers_in req) "If-Modified-Since" = None ->
  web_at_mgr_query seaf token = Some wa ->
  In (wa_op wa) ["view"; "download"; "download-link"]%string ->
  repo_mgr_get_repo seaf (wa_repo_id wa) = Some repo ->
  encrypted repo = true ->
  passwd_mgr_get_decrypt_key seaf (wa_repo_id wa) (wa_username wa) = Some key ->
  fs_mgr_object_exists seaf (store_id repo) (version repo) (wa_obj_id wa) = true ->
  fs_mgr_get_seafile seaf (store_id repo) (version repo) (wa_obj_id wa) = Some file ->
  blk_sha1s file <> [] ->
  Forall2 (stored (copy_store_id (store_id repo)) (version repo)) (blk_sha1s file) blocks ->
  Forall2 (block_plain (crypt_of repo (Some key))) blocks plains ->
  exists data w1,
    access_cb req world0 = (Some (EngSendfile data), w1) /\
    w_status w1 = Some 200 /\
    header_values w1 "Content-Range" = [] /\
    exists ticks w2,
      run_sendfile ticks data w1 = (None, w2) /\
      w_status w2 = Some 200 /\
      w_headers_out w2 = w_headers_out w1 /\
      w_body w2 = List.concat plains /\
      w_reply_done w2 = true /\
      w_conn_freed w2 = false /\
      w_fault w2 = false.
Proof.
  intros Hlaw Hget Hpath Hrange Hims Htok Hop Hrepo Henc Hkey Hex Hfile Hne Hst Hpl.
  set (wc := W.add_header "Cache-Control" "max-age=3600"
               (W.add_header "Last-Modified" (http_date_now seaf) world0)).
  destruct (do_file_starts req repo (wa_obj_id wa) filename (wa_op wa) (wa_username wa)
              (Some key) wc file Hget Hfile Hne)
    as (cb & w1 & Hdo & Hs1 & Hb1 & Hf1 & Hu1 & _ & Hcr1).
  assert (Hacc : access_cb req world0 =
                 (Some (EngSendfile
                          (mkSendfileData file (crypt_of repo (Some key)) false None None
                             0 0 (copy_store_id (store_id repo)) (version repo)
                             (wa_username wa) (wa_op wa) cb)), w1)).
  { unfold access_cb. rewrite Hpath. cbn [String.eqb Ascii.eqb Bool.eqb negb].
    rewrite Htok.
    assert (Hopb : (negb (String.eqb (wa_op wa) "view") &&
                    negb (String.eqb (wa_op wa) "download") &&
                    negb (String.eqb (wa_op wa) "download-link"))%bool = false).
    { destruct Hop as [H|[H|[H|[]]]]; rewrite <- H; reflexivity. }
    rewrite Hopb. unfold can_use_cached_content. rewrite Hims.
    fold wc. rewrite Hrepo, Henc, Hkey. cbn [andb]. rewrite Hex. cbn [negb].
    rewrite Hdo. reflexivity. }
  rewrite Hacc. do 2 eexists. split; [reflexivity|].
  split; [exact Hs1|]. split; [rewrite Hcr1; reflexivity|].
  destruct (run_sendfile_complete file (crypt_of repo (Some key))
              (copy_store_id (store_id repo)) (version repo) (wa_username wa)
              (wa_op wa) cb w1 blocks plains (fun _ => Hlaw) Hne Hst Hpl)
    as (ticks & w2 & Hrun & Hw).
  exists ticks, w2. split; [exact Hrun|].
  apply wire_end_write_fields in Hw.
  destruct Hw as (Hh & Hs & Hb & Hd & Hf & Hu).
  repeat split; try congruence.
  - rewrite Hb, Hb1. reflexivity.
  - rewrite Hf, Hf1. reflexivity.
  - rewrite Hu, Hu1. reflexivity.
Qed.

(* ================================================================== *)
(** * Properties of the response headers *)
(* ================================================================== *)

Local Open Scope string_scope.

(** [snprintf] leaves a text alone that fits the buffer. *)
Lemma snprintf_fits (size : nat) (s : string) :
  (String.length s < size)%nat -> CStr.snprintf size s = s.
Proof.
  unfold CStr.snprintf. intros H.
  assert (G : forall n t, (String.length t <= n)%nat -> String.substring 0 n t = t).
  { intros n t. revert n. induction t as [|a t IH]; intros n Hn.
    - destruct n; reflexivity.
    - destruct n; [cbn [String.length] in Hn; lia|].
      cbn [String.substring]. rewrite IH; [reflexivity|].
      cbn [String.length] in Hn. lia. }
  apply G. lia.
Qed.

Lemma length_disposition (a s : bool) (filename : string) :
  (String.length (disposition_value a s filename) <= String.length filename + 32)%nat.
Proof.
  unfold disposition_value.
  destruct a, s; rewrite !length_append; cbn [String.length dquote]; lia.
Qed.

(** C6 (amended). In whole-file mode the two download operations get
    [attachment] with the [filename*] form whatever the user agent is, and
    every other operation gets [inline] with the [filename*] form exactly
    when the lower-cased User-Agent contains [firefox]. In byte-range mode
    [download] gets [attachment] and [view] gets [inline], with the
    [filename*] form exactly for Firefox. (File names that fit the header
    buffer of [SEAF_PATH_MAX] bytes.) *)
Theorem disposition_by_mode
        (req : Request) (repo : SeafRepo) (file_id filename operation user : string)
        (key : option SeafileCryptKey) (byte_ranges : string) (w : World)
        (file : Seafile) :
  fs_mgr_get_seafile seaf (store_id repo) (version repo) file_id = Some file ->
  (String.length filename + 32 < SEAF_PATH_MAX)%nat ->
  header_values w "Content-Disposition" = [] ->
  (let attach := String.eqb operation "download" || String.eqb operation "download-link" in
   header_values (snd (do_file req repo file_id filename operation key user w))
                 "Content-Disposition"
   = [disposition_value attach (attach || test_firefox req) filename]) /\
  (blk_sha1s file <> [] ->
   operation = "download" \/ operation = "view" ->
   forall start end_,
     parse_range_val byte_ranges (file_size file) = RangeOk start end_ ->
     header_values (snd (do_file_range req repo file_id filename operation
                                       byte_ranges user w))
                   "Content-Disposition"
     = [disposition_value (String.eqb operation "download") (test_firefox req) filename]).
Proof.
  intros Hfile Hfit Hcd. split.
  - cbv zeta. unfold do_file. rewrite Hfile.
    set (w0 := W.file_ref 1 w).
    assert (Hw0 : header_values w0 "Content-Disposition" = []) by exact Hcd.
    clearbody w0.
    assert (Hd : do_file_disposition req operation filename =
                 disposition_value
                   (String.eqb operation "download" || String.eqb operation "download-link")
                   (String.eqb operation "download" || String.eqb operation "download-link"
                    || test_firefox req) filename).
    { unfold do_file_disposition.
      pose proof (length_disposition true true filename).
      pose proof (length_disposition false true filename).
      pose proof (length_disposition false false filename).
      destruct (String.eqb operation "download" || String.eqb operation "download-link");
        [|destruct (test_firefox req)]; cbn [orb];
        rewrite <- snprintf_fits with (size := SEAF_PATH_MAX) by lia; reflexivity. }
    rewrite Hd.
    destruct key as [k|];
      destruct (g_strcmp0_ne (parse_content_type filename) "image/jpg");
      destruct (req_method req); try destruct (n_blocks file =? 0)%Z;
      cbn [snd];
      unfold header_values;
      cbn [w_headers_out W.send_reply_start W.send_reply W.pause W.setcb
           W.file_ref W.with_heap];
      match goal with
      | |- map snd (filter _ (w_headers_out ?x)) = _ =>
          change (map snd (filter (fun kv => String.eqb (fst kv) ?key) (w_headers_out x)))
            with (header_values x key)
      end;
      rewrite !header_values_add;
      change (header_values (W.crypt 1 w0)) with (header_values w0);
      rewrite Hw0; reflexivity.
  - intros Hne Hop start end_ Hparse.
    destruct (do_file_range_starts req repo file_id filename operation byte_ranges user
                w file start end_ Hfile Hne Hparse)
      as (cb & w1 & Hdo & _ & _ & _ & _ & _ & _ & Hdisp).
    rewrite Hdo. cbn [snd]. rewrite Hdisp, Hcd. cbn [app].
    unfold set_resp_disposition. rewrite header_values_add.
    cbn [String.eqb Ascii.eqb Bool.eqb]. unfold disposition_value.
    destruct (String.eqb operation "download"), (test_firefox req); reflexivity.
Qed.

(** No entry of [ftmap] has the type the nosniff guard compares with, so
    the guard holds for every file name. *)
Lemma nosniff_guard_always (filename : string) :
  g_strcmp0_ne (parse_content_type filename) "image/jpg" = true.
Proof.
  unfold parse_content_type.
  destruct (CStr.strrchr filename "."); [|reflexivity].
  generalize (CStr.drop (S n) filename). intros p.
  unfold ftmap. cbn [ftmap_lookup].
  repeat match goal with
         | |- context [if String.eqb p ?s then _ else _] =>
             destruct (String.eqb p s); [reflexivity|]
         end.
  reflexivity.
Qed.

(** Every content response of [do_file] carries the nosniff header. *)
Lemma do_file_sends_nosniff (req : Request) (repo : SeafRepo)
      (file_id filename operation user : string) (key : option SeafileCryptKey)
      (w : World) (file : Seafile) :
  fs_mgr_get_seafile seaf (store_id repo) (version repo) file_id = Some file ->
  In ("X-Content-Type-Options", "nosniff")
     (w_headers_out (snd (do_file req repo file_id filename operation key user w))).
Proof.
  intros Hfile. unfold do_file. rewrite Hfile, nosniff_guard_always.
  destruct key; destruct (req_method req); try destruct (n_blocks file =? 0)%Z;
    cbn [snd w_headers_out W.send_reply_start W.send_reply W.pause W.setcb
         W.file_ref W.with_heap W.add_header];
    apply in_or_app; right; left; reflexivity.
Qed.

(** A HEAD request leaves [do_file] with the file object still
    referenced and no engine installed that could release it. *)
Lemma do_file_head_keeps_file (req : Request) (repo : SeafRepo)
      (file_id filename operation user : string) (w : World) (file : Seafile) :
  req_method req = htp_method_HEAD ->
  fs_mgr_get_seafile seaf (store_id repo) (version repo) file_id = Some file ->
  exists w',
    do_file req repo file_id filename operation None user w = (0%Z, None, w') /\
    w_reply_done w' = true /\ w_cb w' = w_cb w /\
    file_refs (w_heap w') = (file_refs (w_heap w) + 1)%Z.
Proof.
  intros Hhead Hfile. unfold do_file. rewrite Hfile, Hhead, nosniff_guard_always.
  eexists. split; [reflexivity|]. repeat split.
Qed.

(** On [/blks], a token whose operation is not [downloadblks] passes the
    prelude and then gets no reply at all. *)
Lemma access_blks_cb_other_operation (req : Request) (token blkid : string)
      (more : list string) (wa : SeafileWebAccess) (repo : SeafRepo) (w : World) :
  CStr.g_strsplit_slash (CStr.drop 1 (req_path_full req))
    = "blks" :: token :: blkid :: more ->
  web_at_mgr_query seaf token = Some wa ->
  evhtp_kv_find (req_headers_in req) "If-Modified-Since" = None ->
  repo_mgr_get_repo seaf (wa_repo_id wa) = Some repo ->
  fs_mgr_object_exists seaf (store_id repo) (version repo) (wa_obj_id wa) = true ->
  wa_op wa <> "downloadblks" ->
  exists w',
    access_blks_cb req w = (None, w') /\
    w_status w' = w_status w /\ w_body w' = w_body w /\
    w_reply_done w' = w_reply_done w.
Proof.
  intros Hpath Htok Hims Hrepo Hex Hop.
  unfold access_blks_cb. rewrite Hpath. cbn [String.eqb Ascii.eqb Bool.eqb negb].
  rewrite Htok. unfold can_use_cached_content. rewrite Hims, Hrepo, Hex.
  cbn [negb].
  destruct (String.eqb (wa_op wa) "downloadblks") eqn:E;
    [apply String.eqb_eq in E; congruence|].
  eexists. split; [reflexivity|]. repeat split.
Qed.

(* ================================================================== *)
(** * Properties of the single-block engine *)
(* ================================================================== *)

Local Open Scope list_scope.
Local Open Scope Z_scope.

Lemma heap_ext (h h' : Heap) :
  file_refs h = file_refs h' -> block_handles h = block_handles h' ->
  cipher_ctxs h = cipher_ctxs h' -> crypt_objs h = crypt_objs h' -> h = h'.
Proof. destruct h, h'. cbn. intros. subst. reflexivity. Qed.

Lemma write_write (a b : bytes) (w : World) :
  W.write b (W.write a w) = W.write (a ++ b) w.
Proof. unfold W.write. cbn. now rewrite app_assoc. Qed.

Lemma write_nil (w : World) : W.write [] w = w.
Proof. destruct w. unfold W.write. cbn. now rewrite app_nil_r. Qed.

(** One call of the callback with its block open: at the end of the block
    it finishes the reply, otherwise it writes the next chunk. *)
Lemma write_block_data_cb_open (id : string) (bsz : Z) (rest : bytes) (bsize remain : Z)
      (store : string) (ver : Z) (user : string) (cb : Callbacks) (w : World) :
  write_block_data_cb
    (mkBlockData id (Some (mkHandle bsz rest)) bsize remain store ver user cb) w
  = match rest with
    | [] =>
        (None,
         W.send_statistic_msg store user "web-file-download" bsize
           (W.send_reply_end (W.pause false (W.setcb cb (W.handle (-1) w)))))
    | _ :: _ =>
        (Some (mkBlockData id (Some (mkHandle bsz (skipn chunk_len rest))) bsize
                 ((remain - Z.of_nat (List.length (firstn chunk_len rest))) mod 2 ^ 32)
                 store ver user cb),
         W.write (firstn chunk_len rest) w)
    end.
Proof.
  unfold write_block_data_cb. cbn [sb_handle].
  change (1024 * 64) with BUFFER_SIZE. rewrite read_block_chunk.
  destruct rest as [|b rest].
  - rewrite firstn_nil. reflexivity.
  - pose proof chunk_len_pos as Hc.
    destruct chunk_len as [|k] eqn:Ek; [lia|].
    cbn [firstn List.length].
    destruct (Z.of_nat (S (List.length (firstn k rest))) <? 0) eqn:E1;
      [apply Z.ltb_lt in E1; lia|].
    destruct (Z.of_nat (S (List.length (firstn k rest))) =? 0) eqn:E2;
      [apply Z.eqb_eq in E2; lia|].
    reflexivity.
Qed.

(** The first call opens the block and goes on as a call on the open
    block does. *)
Lemma write_block_data_cb_first (id : string) (b : bytes) (bsize remain : Z)
      (store : string) (ver : Z) (user : string) (cb : Callbacks) (w : World) :
  block_mgr_content seaf store ver id = Some b ->
  write_block_data_cb (mkBlockData id None bsize remain store ver user cb) w
  = write_block_data_cb
      (mkBlockData id (Some (mkHandle (Z.of_nat (List.length b)) b)) bsize bsize
                   store ver user cb) (W.handle 1 w).
Proof.
  intros H. unfold write_block_data_cb.
  cbn [sb_handle sb_store_id sb_repo_version sb_block_id sb_bsize].
  unfold seaf_block_manager_open_block. rewrite H.
  unfold sb_set_handle.
  cbn [sb_handle sb_store_id sb_repo_version sb_block_id sb_bsize sb_remain sb_user
       sb_saved_cb].
  reflexivity.
Qed.

(** An open block is drained in finitely many calls, and the last one
    ends the reply. *)
Lemma run_send_block_drains (n : nat) :
  forall rest : bytes, (List.length rest <= n)%nat ->
  forall (id : string) (bsz bsize remain : Z) (store : string) (ver : Z) (user : string)
         (cb : Callbacks) (w : World),
  exists ticks,
    run_send_block ticks
      (mkBlockData id (Some (mkHandle bsz rest)) bsize remain store ver user cb) w
    = (None,
       W.send_statistic_msg store user "web-file-download" bsize
         (W.send_reply_end (W.pause false (W.setcb cb (W.handle (-1) (W.write rest w)))))).
Proof.
  induction n as [|n IH]; intros rest Hlen id bsz bsize remain store ver user cb w.
  - destruct rest; [|cbn in Hlen; lia].
    exists 1%nat. cbn [run_send_block]. rewrite write_block_data_cb_open.
    now rewrite write_nil.
  - destruct rest as [|b rest].
    + exists 1%nat. cbn [run_send_block]. rewrite write_block_data_cb_open.
      now rewrite write_nil.
    + destruct (IH (skipn chunk_len (b :: rest))) with
        (id := id) (bsz := bsz) (bsize := bsize)
        (remain := (remain - Z.of_nat (List.length (firstn chunk_len (b :: rest))))
                     mod 2 ^ 32)
        (store := store) (ver := ver) (user := user) (cb := cb)
        (w := W.write (firstn chunk_len (b :: rest)) w) as [ticks Ht].
      { pose proof (skipn_shorter chunk_len (b :: rest) chunk_len_pos) as Hs.
        cbn [List.length] in Hs, Hlen. assert (b :: rest <> []) by discriminate.
        specialize (Hs H). lia. }
      exists (S ticks). cbn [run_send_block]. rewrite write_block_data_cb_open.
      rewrite Ht. rewrite write_write, firstn_skipn. reflexivity.
Qed.

(** The search of [do_block] finds a listed block that is in the store. *)
Lemma do_block_find_listed (store : string) (ver : Z) (blk_id : string) (b : bytes) :
  block_mgr_content seaf store ver blk_id = Some b ->
  forall ids, In blk_id ids ->
  do_block_find store ver ids blk_id = Some (Z.of_nat (List.length b)).
Proof.
  intros Hb ids. induction ids as [|i ids IH]; intros Hin; [destruct Hin|].
  cbn [do_block_find]. unfold seaf_block_manager_stat_block. rewrite Hb.
  destruct (memcmp40_eq i blk_id) eqn:E.
  - destruct (Z.of_nat (List.length b) >=? 0) eqn:G; [reflexivity|].
    rewrite Z.geb_leb in G. apply Z.leb_gt in G. lia.
  - destruct Hin as [->|Hin]; [|now apply IH].
    unfold memcmp40_eq in E. now rewrite String.eqb_refl in E.
Qed.

(** It finds nothing when no listed id agrees with the requested one on
    its first 40 characters, or when the requested block is not in the
    store. *)
Lemma do_block_find_none (store : string) (ver : Z) (blk_id : string) (ids : list string) :
  Forall (fun i => memcmp40_eq i blk_id = false) ids \/
  block_mgr_content seaf store ver blk_id = None ->
  do_block_find store ver ids blk_id = None.
Proof.
  intros H. induction ids as [|i ids IH]; [reflexivity|].
  cbn [do_block_find]. unfold seaf_block_manager_stat_block.
  destruct H as [H|H].
  - inversion H as [|? ? Hi Hr]; subst. rewrite Hi. apply IH. now left.
  - rewrite H. destruct (memcmp40_eq i blk_id); [reflexivity|]. apply IH. now right.
Qed.

(** [do_block] on a listed block that is in the store. *)
Lemma do_block_starts (req : Request) (repo : SeafRepo) (user file_id blk_id : string)
      (file : Seafile) (b : bytes) (w : World) :
  fs_mgr_get_seafile seaf (store_id repo) (version repo) file_id = Some file ->
  In blk_id (blk_sha1s file) ->
  block_mgr_content seaf (store_id repo) (version repo) blk_id = Some b ->
  exists cd,
    cd = CStr.snprintf SEAF_PATH_MAX
           (if test_firefox req
            then "attachment;filename*=" ++ dquote ++ "utf-8' '" ++ blk_id ++ dquote
            else "attachment;filename=" ++ dquote ++ blk_id ++ dquote)%string /\
    do_block req repo user file_id blk_id w =
    (0,
     Some (mkBlockData blk_id None (Z.of_nat (List.length b)) 0
             (copy_store_id (store_id repo)) (version repo) user (w_cb w)),
     W.send_reply_start EVHTP_RES_OK
       (W.pause true
          (W.setcb CbSendBlock
             (W.add_header "Content-Length" (fmt_u64 (Z.of_nat (List.length b)))
                (W.add_header "Content-Disposition" cd
                   (W.add_header "Access-Control-Allow-Origin" "*"
                      (W.file_ref (-1) (W.file_ref 1 w)))))))).
Proof.
  intros Hfile Hin Hb.
  unfold do_block. rewrite Hfile.
  rewrite (do_block_find_listed _ _ _ _ Hb _ Hin).
  eexists. split; [reflexivity|].
  destruct (test_firefox req); reflexivity.
Qed.

Lemma run_send_block_S (k : nat) (data : SendBlockData) (w : World) :
  run_send_block (S k) data w =
  match write_block_data_cb data w with
  | (Some data', w') => run_send_block k data' w'
  | (None, w') => (None, w')
  end.
Proof. reflexivity. Qed.

(** The engine [do_block] installs, driven to its end. *)
Lemma run_send_block_complete (blk_id : string) (b : bytes) (bsize remain : Z)
      (store : string) (ver : Z) (user : string) (cb : Callbacks) (w : World) :
  block_mgr_content seaf store ver blk_id = Some b ->
  exists ticks,
    run_send_block ticks (mkBlockData blk_id None bsize remain store ver user cb) w
    = (None,
       W.send_statistic_msg store user "web-file-download" bsize
         (W.send_reply_end
            (W.pause false (W.setcb cb (W.handle (-1) (W.write b (W.handle 1 w))))))).
Proof.
  intros Hb.
  destruct (run_send_block_drains (List.length b) b (Nat.le_refl _) blk_id
              (Z.of_nat (List.length b)) bsize bsize store ver user cb (W.handle 1 w))
    as [ticks Ht].
  destruct ticks as [|k]; [discriminate Ht|].
  exists (S k). rewrite run_send_block_S in Ht |- *.
  rewrite (write_block_data_cb_first _ b) by exact Hb. exact Ht.
Qed.

(** X1. A block listed in the file and present in the store, requested
    through [do_block]: the reply starts with status 200, a
    Content-Length equal to the size of the block and an attachment
    disposition that names the block id, no Content-Type is sent, and
    the transport, driving [write_block_data_cb], receives
    exactly the bytes of the block; then the reply is ended, one
    [web-file-download] event with the block size is reported, the saved
    callbacks are back and nothing is left allocated. *)
Theorem block_request_delivers_the_block
        (req : Request) (repo : SeafRepo) (user file_id blk_id : string)
        (file : Seafile) (b : bytes) (w : World) :
  fs_mgr_get_seafile seaf (store_id repo) (version repo) file_id = Some file ->
  In blk_id (blk_sha1s file) ->
  copy_store_id (store_id repo) = store_id repo ->
  block_mgr_content seaf (store_id repo) (version repo) blk_id = Some b ->
  exists data w1,
    do_block req repo user file_id blk_id w = (0, Some data, w1) /\
    w_status w1 = Some EVHTP_RES_OK /\
    w_reply_done w1 = w_reply_done w /\
    w_cb w1 = CbSendBlock /\
    header_values w1 "Content-Length" =
      header_values w "Content-Length" ++ [fmt_u64 (Z.of_nat (List.length b))] /\
    header_values w1 "Content-Type" = header_values w "Content-Type" /\
    header_values w1 "Content-Disposition" =
      header_values w "Content-Disposition" ++
      [CStr.snprintf SEAF_PATH_MAX
         (if test_firefox req
          then "attachment;filename*=" ++ dquote ++ "utf-8' '" ++ blk_id ++ dquote
          else "attachment;filename=" ++ dquote ++ blk_id ++ dquote)%string] /\
    exists ticks w2,
      run_send_block ticks data w1 = (None, w2) /\
      w_body w2 = w_body w ++ b /\
      w_reply_done w2 = true /\
      w_conn_freed w2 = w_conn_freed w /\
      w_status w2 = Some EVHTP_RES_OK /\
      w_stats w2 =
        w_stats w ++ [mkStat (store_id repo) user "web-file-download"
                             (Z.of_nat (List.length b))] /\
      w_cb w2 = w_cb w /\
      w_heap w2 = w_heap w.
Proof.
  intros Hfile Hin Hcopy Hb.
  destruct (do_block_starts req repo user file_id blk_id file b w Hfile Hin Hb)
    as (cd & Hcd & Hdo).
  rewrite Hdo, Hcopy. clear Hdo.
  do 2 eexists. split; [reflexivity|].
  split; [reflexivity|]. split; [reflexivity|]. split; [reflexivity|].
  split.
  { unfold W.send_reply_start, W.pause, W.setcb, header_values at 1.
    cbn [w_headers_out].
    change (map snd (filter (fun kv => String.eqb (fst kv) "Content-Length")
                            (w_headers_out ?x)))
      with (header_values x "Content-Length").
    rewrite !header_values_add. cbn [String.eqb Ascii.eqb Bool.eqb].
    rewrite ?app_nil_r. reflexivity. }
  split.
  { unfold W.send_reply_start, W.pause, W.setcb, header_values at 1.
    cbn [w_headers_out].
    change (map snd (filter (fun kv => String.eqb (fst kv) "Content-Type")
                            (w_headers_out ?x)))
      with (header_values x "Content-Type").
    rewrite !header_values_add. cbn [String.eqb Ascii.eqb Bool.eqb].
    rewrite ?app_nil_r. reflexivity. }
  split.
  { unfold W.send_reply_start, W.pause, W.setcb, header_values at 1.
    cbn [w_headers_out].
    change (map snd (filter (fun kv => String.eqb (fst kv) "Content-Disposition")
                            (w_headers_out ?x)))
      with (header_values x "Content-Disposition").
    rewrite !header_values_add. cbn [String.eqb Ascii.eqb Bool.eqb].
    rewrite ?app_nil_r. rewrite Hcd. reflexivity. }
  match goal with
  | |- exists ticks w2, run_send_block ticks (mkBlockData _ _ ?bs ?rm ?st ?vr ?us ?cb) ?x
                        = _ /\ _ =>
      destruct (run_send_block_complete blk_id b bs rm st vr us cb x Hb) as [ticks Ht]
  end.
  exists ticks. eexists. split; [exact Ht|].
  cbn [w_body w_reply_done w_conn_freed w_status w_stats w_cb w_heap
       W.send_statistic_msg W.send_reply_end W.pause W.setcb W.handle W.write
       W.with_heap W.send_reply_start W.add_header W.file_ref].
  repeat (split; [reflexivity|]).
  apply heap_ext; cbn; lia.
Qed.

(** X2. A token gives access to the blocks of its own file only: when no
    block id of the file agrees with the requested id on its first 40
    characters, or the requested block is not in the store, [do_block]
    answers 400 with no header and no body of its own, installs no engine
    and keeps nothing allocated; the block store is not read. *)
Theorem block_outside_the_file_is_refused
        (req : Request) (repo : SeafRepo) (user file_id blk_id : string)
        (file : Seafile) (w : World) :
  fs_mgr_get_seafile seaf (store_id repo) (version repo) file_id = Some file ->
  Forall (fun i => memcmp40_eq i blk_id = false) (blk_sha1s file) \/
  block_mgr_content seaf (store_id repo) (version repo) blk_id = None ->
  exists w',
    do_block req repo user file_id blk_id w = (0, None, w') /\
    w_status w' = Some EVHTP_RES_BADREQ /\
    w_reply_done w' = true /\
    w_headers_out w' = w_headers_out w /\
    w_body w' = w_body w /\
    w_cb w' = w_cb w /\
    w_stats w' = w_stats w /\
    w_heap w' = w_heap w.
Proof.
  intros Hfile Hno.
  unfold do_block. rewrite Hfile.
  rewrite (do_block_find_none _ _ _ _ Hno).
  eexists. split; [reflexivity|].
  repeat (split; [reflexivity|]).
  apply heap_ext; cbn; lia.
Qed.




(* ================================================================== *)
(** * Resources and statistics of the whole-file engine *)
(* ================================================================== *)

Lemma blk_at_some (file : Seafile) (i : Z) :
  0 <= i < n_blocks file -> exists id, blk_at file i = Some id.
Proof.
  intros H. unfold blk_at. destruct (i <? 0) eqn:E; [apply Z.ltb_lt in E; lia|].
  destruct (nth_error (blk_sha1s file) (Z.to_nat i)) eqn:N; [eauto|].
  apply nth_error_None in N. unfold n_blocks in H. lia.
Qed.

Lemma download_event_same (d d' : SendfileData) :
  sf_same_request d d' -> download_event d' = download_event d.
Proof.
  intros (Hf & _ & Hs & Hu & Ht & _). unfold download_event.
  now rewrite Hf, Hs, Hu, Ht.
Qed.

(** A summary of later calls is a summary from an earlier state of the
    same request that holds as much and has sent as much. *)
Lemma sf_tick_ok_rebase (data d1 : SendfileData) (w w1 : World)
      (r : option SendfileData * World) :
  sf_same_request data d1 -> w_fault w1 = w_fault w ->
  w_heap (free_sendfile_data d1 w1) = w_heap (free_sendfile_data data w) ->
  w_stats w1 = w_stats w -> w_reply_done w1 = w_reply_done w ->
  w_conn_freed w1 = w_conn_freed w ->
  sf_tick_ok d1 w1 r -> sf_tick_ok data w r.
Proof.
  intros Hsame Hf Hh Hs Hr Hc. pose proof (download_event_same _ _ Hsame) as He.
  destruct Hsame as (S1 & S2 & S3 & S4 & S5 & S6).
  unfold sf_tick_ok. destruct r as [[d|] w']; cbn [fst snd].
  - intros (F & Wf & (T1 & T2 & T3 & T4 & T5 & T6) & H1 & H2 & H3 & H4).
    split; [congruence|]. split; [exact Wf|].
    split; [unfold sf_same_request; repeat split; congruence|].
    repeat split; congruence.
  - intros (F & H1 & H2).
    split; [congruence|]. split; [congruence|].
    destruct H2 as [(A & B & C & D & E)|(A & B & C)]; [left|right].
    + rewrite <- He, <- Hs. repeat split; congruence.
    + repeat split; congruence.
Qed.

(** One call with a block open, given the summary for the calls that
    go on to later blocks. *)
Lemma write_data_next_open_ok (gas : nat)
      (IH : forall data w, sf_wf data ->
            n_blocks (sf_file data) - sf_idx data <= Z.of_nat gas ->
            sf_tick_ok data w (write_data_next gas data w)) :
  forall data w h, sf_wf data -> sf_handle data = Some h ->
    n_blocks (sf_file data) - sf_idx data <= Z.of_nat (S gas) ->
    sf_tick_ok data w (write_data_next (S gas) data w).
Proof.
  intros data w h Hwf Hh Hgas.
  destruct data as [file crypt ei ctx hd remain idx store ver user tt cb].
  cbn [sf_handle sf_file sf_idx] in Hh, Hgas. subst hd.
  destruct Hwf as [Hidx Hc]. cbn [sf_file sf_idx sf_crypt sf_handle sf_enc_init sf_ctx]
    in Hidx, Hc.
  cbn [write_data_next sf_file sf_idx].
  destruct (blk_at_some file idx Hidx) as [id Hid]. rewrite Hid.
  rewrite (write_data_open_some _ _ _ h) by reflexivity.
  destruct (seaf_block_manager_read_block h BUFFER_SIZE) as [[n buf] h'].
  cbv beta iota zeta.
  assert (Hnext : (idx =? n_blocks file - 1) = false ->
                  0 <= idx + 1 < n_blocks file /\
                  n_blocks file - (idx + 1) <= Z.of_nat gas).
  { intros E. apply Z.eqb_neq in E. lia. }
  destruct crypt as [c|]; sf_simpl.
  - destruct Hc as [-> Hctx]. destruct ctx as [cx|]; [clear Hctx|congruence].
    destruct (n <? 0); [sf_abort|].
    destruct (n =? 0).
    + destruct (idx =? n_blocks file - 1) eqn:Elast.
      * sf_finish tt.
      * destruct (Hnext eq_refl) as [Hi Hg].
        eapply sf_tick_ok_rebase; [| | | | | |apply IH]; sf_fields;
          try reflexivity; try (repeat split; (reflexivity || lia)).
    + unfold write_data_send; sf_simpl.
      destruct (EVP_DecryptUpdate cx buf) as [[cx1 out]|]; [|sf_abort]. sf_simpl.
      destruct (u64 (remain - n) =? 0);
        [destruct (EVP_DecryptFinal_ex cx1); [|sf_abort]|];
        sf_goes_on.
  - destruct (n <? 0); [destruct ei; sf_abort|].
    destruct (n =? 0).
    + destruct (idx =? n_blocks file - 1) eqn:Elast.
      * destruct ei; sf_finish tt.
      * destruct (Hnext eq_refl) as [Hi Hg].
        eapply sf_tick_ok_rebase; [| | | | | |apply IH]; sf_fields;
          try reflexivity; try (repeat split; (reflexivity || lia)).
    + unfold write_data_send; sf_simpl. destruct ei; sf_goes_on.
Qed.

(** Any call of the callback in a well-formed state. *)
Lemma write_data_next_ok (gas : nat) :
  forall data w, sf_wf data ->
    n_blocks (sf_file data) - sf_idx data <= Z.of_nat gas ->
    sf_tick_ok data w (write_data_next gas data w).
Proof.
  induction gas as [|gas IH]; intros data w Hwf Hgas.
  - destruct Hwf as [Hidx _]. cbn in Hgas. lia.
  - destruct (sf_handle data) as [h|] eqn:Hh.
    + eapply write_data_next_open_ok; eauto.
    + destruct data as [file crypt ei ctx hd remain idx store ver user tt cb].
      cbn [sf_handle sf_file sf_idx] in Hh, Hgas. subst hd.
      destruct Hwf as [Hidx Hc].
      cbn [sf_file sf_idx sf_crypt sf_handle sf_enc_init sf_ctx] in Hidx, Hc.
      destruct (blk_at_some file idx Hidx) as [id Hid].
      destruct (block_mgr_content seaf store ver id) as [b|] eqn:Hb.
      * set (h := mkHandle (Z.of_nat (List.length b)) b).
        assert (Hopen : forall d1 w1,
                  write_data_open id
                    (mkSendfileData file crypt ei ctx None remain idx store ver user tt cb) w
                  = inl (h, d1, w1) ->
                  sf_handle d1 = Some h -> sf_file d1 = file -> sf_idx d1 = idx ->
                  write_data_next (S gas)
                    (mkSendfileData file crypt ei ctx None remain idx store ver user tt cb) w
                  = write_data_next (S gas) d1 w1).
        { intros d1 w1 Ho H1 H2 H3. cbn [write_data_next sf_file sf_idx].
          rewrite H2, H3, Hid, Ho. rewrite (write_data_open_some _ _ _ h) by exact H1.
          reflexivity. }
        destruct crypt as [c|].
        -- destruct (seafile_decrypt_init (crypt_version c) (crypt_key c) (crypt_iv c))
             as [cx|] eqn:Ei.
           ++ rewrite (Hopen
                 (mkSendfileData file (Some c) true (Some cx) (Some h)
                    (Z.of_nat (List.length b)) idx store ver user tt cb)
                 (W.cipher 1 (W.handle 1 w))); try reflexivity.
              ** eapply sf_tick_ok_rebase;
                   [| | | | | |eapply write_data_next_open_ok with (h := h)];
                   try exact IH; try exact Hgas; sf_fields;
                   try reflexivity; try (repeat split; (reflexivity || lia || discriminate)).
                 subst ei. apply heap_ext; cbn; lia.
              ** unfold write_data_open, seaf_block_manager_open_block.
                 cbn [sf_handle sf_store_id sf_repo_version]. rewrite Hb.
                 fold h. cbn [seaf_block_manager_stat_block_by_handle]. sf_simpl.
                 rewrite Ei. reflexivity.
           ++ cbn [write_data_next sf_file sf_idx]. rewrite Hid.
              unfold write_data_open, seaf_block_manager_open_block.
              cbn [sf_handle sf_store_id sf_repo_version]. rewrite Hb.
              cbn [seaf_block_manager_stat_block_by_handle]. sf_simpl.
              rewrite Ei. subst ei.
              unfold sf_tick_ok; sf_fields.
              split; [reflexivity|]. split; [apply heap_ext; cbn; lia|].
              right; repeat split.
        -- rewrite (Hopen
                 (mkSendfileData file None ei ctx (Some h)
                    (Z.of_nat (List.length b)) idx store ver user tt cb)
                 (W.handle 1 w)); try reflexivity.
           ** eapply sf_tick_ok_rebase;
                [| | | | | |eapply write_data_next_open_ok with (h := h)];
                try exact IH; try exact Hgas; sf_fields;
                try reflexivity; try (repeat split; (reflexivity || lia || discriminate)).
              destruct ei; apply heap_ext; cbn; lia.
           ** unfold write_data_open, seaf_block_manager_open_block.
              cbn [sf_handle sf_store_id sf_repo_version]. rewrite Hb.
              reflexivity.
      * cbn [write_data_next sf_file sf_idx]. rewrite Hid.
        unfold write_data_open, seaf_block_manager_open_block.
        cbn [sf_handle sf_store_id sf_repo_version]. rewrite Hb.
        destruct crypt; [subst ei|destruct ei]; sf_abort.
Qed.

Lemma run_sendfile_S (k : nat) (data : SendfileData) (w : World) :
  run_sendfile (S k) data w =
  match write_data_cb data w with
  | (Some data', w') => run_sendfile k data' w'
  | (None, w') => (None, w')
  end.
Proof. reflexivity. Qed.

Lemma sf_same_request_refl (d : SendfileData) : sf_same_request d d.
Proof. unfold sf_same_request. repeat split. Qed.

(** Any number of calls of the callback from a well-formed state. *)
Lemma run_sendfile_ok (ticks : nat) :
  forall data w, sf_wf data -> sf_tick_ok data w (run_sendfile ticks data w).
Proof.
  induction ticks as [|k IH]; intros data w Hwf.
  - cbn [run_sendfile]. unfold sf_tick_ok. cbn [fst snd].
    split; [reflexivity|]. split; [exact Hwf|].
    split; [apply sf_same_request_refl|]. repeat split.
  - rewrite run_sendfile_S. unfold write_data_cb.
    pose proof (write_data_next_ok
                  (S (Z.to_nat (n_blocks (sf_file data) - sf_idx data))) data w Hwf)
      as Ht.
    destruct (write_data_next _ data w) as [[d|] w'].
    + assert (Hg : n_blocks (sf_file data) - sf_idx data
                   <= Z.of_nat (S (Z.to_nat (n_blocks (sf_file data) - sf_idx data))))
        by lia.
      destruct (Ht Hg) as (F & Wf & Same & H1 & H2 & H3 & H4). cbn [fst snd] in *.
      eapply sf_tick_ok_rebase; [exact Same| | | | | |apply IH; exact Wf]; assumption.
    + apply Ht. lia.
Qed.

(** The state [do_file] installs is well formed and holds exactly what
    [do_file] took. *)
Lemma do_file_installs (req : Request) (repo : SeafRepo)
      (file_id filename operation user : string) (key : option SeafileCryptKey)
      (ret : Z) (data : SendfileData) (w w1 : World) :
  do_file req repo file_id filename operation key user w = (ret, Some data, w1) ->
  sf_wf data /\
  fs_mgr_get_seafile seaf (store_id repo) (version repo) file_id = Some (sf_file data) /\
  sf_store_id data = copy_store_id (store_id repo) /\
  sf_user data = user /\ sf_token_type data = operation /\
  sf_saved_cb data = w_cb w /\
  w_heap (free_sendfile_data data w1) = w_heap w /\
  w_fault w1 = w_fault w /\ w_stats w1 = w_stats w /\
  w_reply_done w1 = w_reply_done w /\ w_conn_freed w1 = w_conn_freed w.
Proof.
  unfold do_file. intros H.
  destruct (fs_mgr_get_seafile seaf (store_id repo) (version repo) file_id) as [file|];
    [|discriminate H].
  assert (Hn : (n_blocks file =? 0) = false -> 0 <= 0 < n_blocks file).
  { intros E. apply Z.eqb_neq in E. unfold n_blocks in *. lia. }
  destruct key as [k|];
    destruct (g_strcmp0_ne (parse_content_type filename) "image/jpg");
    destruct (req_method req); try discriminate H;
    destruct (n_blocks file =? 0) eqn:E; try discriminate H;
    injection H as _ Hd Hw; subst data w1; sf_fields;
    (split; [split; [exact (Hn eq_refl)|reflexivity]|]);
    repeat (split; [reflexivity|]);
    (split; [apply heap_ext; cbn; lia|]); repeat split.
Qed.


(** X5. The statistics of a whole-file download follow the operation of
    the token: when the engine [do_file] installed ends the reply it
    reports exactly one event, [web-file-download] for [download] (and for
    any operation other than [view] and [download-link]),
    [link-file-download] for [download-link], and none for [view], with
    the [file_size] of the file object as byte count; as long as the reply
    is not ended, and when the connection is freed instead, it reports
    nothing. The reply is ended only by the engine going away, with the
    saved callbacks restored and the connection kept. *)
Theorem whole_file_statistics_follow_the_operation
        (req : Request) (repo : SeafRepo) (file_id filename operation user : string)
        (key : option SeafileCryptKey) (ret : Z) (data : SendfileData)
        (w w1 : World) (ticks : nat) :
  do_file req repo file_id filename operation key user w = (ret, Some data, w1) ->
  w_reply_done w = false ->
  fs_mgr_get_seafile seaf (store_id repo) (version repo) file_id = Some (sf_file data) /\
  w_stats (snd (run_sendfile ticks data w1)) =
    w_stats w ++
    (if w_reply_done (snd (run_sendfile ticks data w1)) then
       if String.eqb operation "view" then []
       else [mkStat (copy_store_id (store_id repo)) user
                    (if String.eqb operation "download-link"
                     then "link-file-download"%string else "web-file-download"%string)
                    (file_size (sf_file data))]
     else []) /\
  (w_reply_done (snd (run_sendfile ticks data w1)) = true ->
   fst (run_sendfile ticks data w1) = None /\
   w_cb (snd (run_sendfile ticks data w1)) = w_cb w /\
   w_conn_freed (snd (run_sendfile ticks data w1)) = w_conn_freed w).
Proof.
  intros Hdo Hnd.
  destruct (do_file_installs _ _ _ _ _ _ _ _ _ _ _ Hdo)
    as (Wf & Hfile & Hst & Hus & Htt & Hcb & _ & _ & Hs & Hr & Hc).
  split; [exact Hfile|].
  pose proof (run_sendfile_ok ticks data w1 Wf) as Hok.
  unfold sf_tick_ok in Hok.
  destruct (run_sendfile ticks data w1) as [[d|] w2]; cbn [fst snd] in *.
  - destruct Hok as (_ & _ & _ & _ & H2 & H3 & _).
    rewrite H3, Hr, Hnd. rewrite app_nil_r. split; [congruence|].
    intros H. discriminate H.
  - destruct Hok as (_ & _ & [(A & B & C & D & E)|(A & B & C)]).
    + rewrite A, C. unfold download_event. rewrite Hst, Hus, Htt, Hs.
      split; [reflexivity|]. intros _. split; [reflexivity|]. split; congruence.
    + rewrite B, Hr, Hnd. rewrite app_nil_r. split; [congruence|].
      intros H. discriminate H.
Qed.

(* ================================================================== *)
(** * Resources and statistics of the byte-range engine *)
(* ================================================================== *)

Lemma fr_tick_ok_rebase (data d1 : SendFileRangeData) (w w1 : World)
      (r : option SendFileRangeData * World) :
  fr_same_request data d1 ->
  (w_fault w1 = false -> w_fault w = false) ->
  w_heap (free_send_file_range_data d1 w1)
    = w_heap (free_send_file_range_data data w) ->
  w_stats w1 = w_stats w -> w_reply_done w1 = w_reply_done w ->
  w_conn_freed w1 = w_conn_freed w ->
  fr_tick_ok d1 w1 r -> fr_tick_ok data w r.
Proof.
  intros Hsame Hf Hh Hs Hr Hc.
  assert (He : range_event d1 = range_event data).
  { destruct Hsame as (S1 & S2 & S3 & S4 & S5). unfold range_event.
    now rewrite S1, S2, S3, S4. }
  destruct Hsame as (S1 & S2 & S3 & S4 & S5).
  unfold fr_tick_ok. destruct r as [[d|] w']; cbn [fst snd]; intros H F;
    destruct (H F) as [F1 H']; (split; [exact (Hf F1)|]).
  - destruct H' as (Wf & (T1 & T2 & T3 & T4 & T5) & H1 & H2 & H3 & H4).
    split; [exact Wf|].
    split; [unfold fr_same_request; repeat split; congruence|].
    repeat split; congruence.
  - destruct H' as (H1 & H2). split; [congruence|].
    destruct H2 as [(A & B & C & D & E)|(A & B & C)]; [left|right].
    + rewrite <- He, <- Hs. repeat split; try congruence.
    + repeat split; congruence.
Qed.

(** Any call of the callback from the label [next:] on. *)
Lemma write_file_range_next_ok (gas : nat) :
  forall data w, 0 <= fr_blk_idx data ->
    fr_tick_ok data w (write_file_range_next gas data w).
Proof.
  induction gas as [|gas IH]; intros data w Hidx.
  - unfold fr_tick_ok. cbn [write_file_range_next snd W.fault w_fault]. discriminate.
  - destruct data as [file hd idx start remain store ver user tt cb].
    cbn [fr_blk_idx] in Hidx.
    cbn [write_file_range_next fr_file fr_blk_idx fr_handle fr_store_id
         fr_repo_version fr_range_remain].
    destruct (blk_at file idx) as [id|];
      [|unfold fr_tick_ok; cbn [snd W.fault w_fault]; discriminate].
    destruct hd as [h|];
      [|destruct (seaf_block_manager_open_block store ver id) as [h|];
        [|unfold fr_tick_ok; fr_fields; intros F; (split; [exact F|]);
          split; [reflexivity|]; right; repeat split]];
      (destruct (seaf_block_manager_read_block h _) as [[n buf] h']; fr_simpl;
       destruct (n <? 0);
       [unfold fr_tick_ok; fr_fields; intros F; (split; [exact F|]);
        split; [try reflexivity; apply heap_ext; cbn; lia|]; right; repeat split|];
       destruct (n =? 0);
       [eapply fr_tick_ok_rebase; [| | | | | |apply IH]; fr_fields;
        try lia; try reflexivity; try (repeat split; reflexivity);
        try (intros F; exact F);
        apply heap_ext; cbn; lia|];
       destruct (u64 (remain - n) =? 0);
       [destruct (u64 (start + n) >=? file_size file);
        unfold fr_tick_ok; fr_fields; intros F; (split; [exact F|]);
        (split; [try reflexivity; apply heap_ext; cbn; lia|]); left;
        repeat split; ((left; reflexivity) || (right; reflexivity))
       |unfold fr_tick_ok; fr_fields; intros F; (split; [exact F|]);
        (split; [right; exact Hidx|]);
        (split; [repeat split|]);
        (split; [try reflexivity; apply heap_ext; cbn; lia|]);
        repeat split]).
Qed.

Lemma start_block_scan_index (store : string) (ver : Z) (start : Z) (blks : list string) :
  forall i tol blkid i' tol' blkid',
    start_block_scan store ver blks i tol start blkid = Some (i', tol', blkid') ->
    i <= i'.
Proof.
  induction blks as [|b blks IH]; intros i tol blkid i' tol' blkid' H;
    cbn [start_block_scan] in H.
  - injection H as <- _ _. lia.
  - destruct (seaf_block_manager_stat_block store ver b) as [size|]; [|discriminate H].
    destruct (start <? u64 (tol + size)).
    + injection H as <- _ _. lia.
    + apply IH in H. lia.
Qed.

(** [get_start_block_handle] changes nothing but the count of open
    blocks, which goes up by one exactly when it returns a handle. *)
Lemma get_start_block_handle_world (store : string) (ver : Z) (file : Seafile)
      (start : Z) (w : World) :
  (w_fault (snd (get_start_block_handle store ver file start w)) = false ->
   w_fault w = false) /\
  w_stats (snd (get_start_block_handle store ver file start w)) = w_stats w /\
  w_reply_done (snd (get_start_block_handle store ver file start w)) = w_reply_done w /\
  w_conn_freed (snd (get_start_block_handle store ver file start w)) = w_conn_freed w /\
  match fst (get_start_block_handle store ver file start w) with
  | Some (h, i) =>
      0 <= i /\
      w_heap (snd (get_start_block_handle store ver file start w)) = w_heap (W.handle 1 w)
  | None => w_heap (snd (get_start_block_handle store ver file start w)) = w_heap w
  end.
Proof.
  unfold get_start_block_handle.
  destruct (start_block_scan store ver (blk_sha1s file) 0 0 start None)
    as [[[i tol] blkid]|] eqn:Escan; [|repeat split; auto].
  apply start_block_scan_index in Escan.
  destruct (i =? n_blocks file); [repeat split; auto|].
  destruct blkid as [blkid|]; [|repeat split; cbn; discriminate].
  destruct (seaf_block_manager_open_block store ver blkid) as [h|]; [|repeat split; auto].
  destruct (start >? tol); [|repeat split; auto].
  destruct (seaf_block_manager_read_block h _) as [[n buf] h'].
  destruct (negb _); cbn [fst snd].
  - repeat split; auto. apply heap_ext; cbn; lia.
  - repeat split; auto.
Qed.

(** Any call of the byte-range callback in a well-formed state. *)
Lemma write_file_range_cb_ok (data : SendFileRangeData) (w : World) :
  fr_wf data -> fr_tick_ok data w (write_file_range_cb data w).
Proof.
  intros Hwf. unfold write_file_range_cb.
  destruct (fr_blk_idx data =? -1) eqn:E.
  - destruct Hwf as [[Hi Hh]|Hi]; [|apply Z.eqb_eq in E; lia].
    destruct data as [file hd idx start remain store ver user tt cb].
    cbn [fr_handle fr_blk_idx] in Hi, Hh. subst hd idx.
    cbn [fr_store_id fr_repo_version fr_file fr_start_off].
    destruct (get_start_block_handle_world store ver file start w)
      as (G0 & G1 & G2 & G3 & G4).
    destruct (get_start_block_handle store ver file start w) as [[[h i]|] w0];
      cbn [fst snd] in *.
    + destruct G4 as [Hi Hheap].
      eapply fr_tick_ok_rebase; [| | | | | |apply write_file_range_next_ok];
        fr_fields; try assumption; try (repeat split; reflexivity).
      apply heap_ext; cbn; rewrite Hheap; cbn; lia.
    + unfold fr_tick_ok; fr_fields. intros F. split; [exact (G0 F)|].
      split; [apply heap_ext; cbn; rewrite G4; cbn; lia|].
      right. repeat split; assumption.
  - apply write_file_range_next_ok. apply Z.eqb_neq in E.
    destruct Hwf as [[Hi _]|Hi]; [congruence|exact Hi].
Qed.

Lemma run_file_range_S (k : nat) (data : SendFileRangeData) (w : World) :
  run_file_range (S k) data w =
  match write_file_range_cb data w with
  | (Some data', w') => run_file_range k data' w'
  | (None, w') => (None, w')
  end.
Proof. reflexivity. Qed.

(** A fault, once raised, stays. *)
Lemma write_file_range_next_sticky (gas : nat) :
  forall data w, w_fault w = true ->
    w_fault (snd (write_file_range_next gas data w)) = true.
Proof.
  induction gas as [|gas IH]; intros data w H; cbn [write_file_range_next];
    [reflexivity|].
  destruct (blk_at (fr_file data) (fr_blk_idx data)); [|reflexivity].
  destruct data as [file hd idx start remain store ver user tt cb]. fr_simpl.
  destruct hd as [h|];
    [|destruct (seaf_block_manager_open_block store ver s) as [h|];
      [|fr_fields; exact H]];
    (destruct (seaf_block_manager_read_block h _) as [[n buf] h']; fr_simpl;
     destruct (n <? 0); [fr_fields; exact H|];
     destruct (n =? 0); [apply IH; exact H|];
     destruct (u64 (remain - n) =? 0);
     [destruct (u64 (start + n) >=? file_size file)|];
     fr_fields; exact H).
Qed.

Lemma write_file_range_cb_sticky (data : SendFileRangeData) (w : World) :
  w_fault w = true -> w_fault (snd (write_file_range_cb data w)) = true.
Proof.
  intros H. unfold write_file_range_cb.
  destruct (fr_blk_idx data =? -1); [|apply write_file_range_next_sticky; exact H].
  assert (G : w_fault (snd (get_start_block_handle (fr_store_id data)
                              (fr_repo_version data) (fr_file data)
                              (fr_start_off data) w)) = true).
  { destruct (get_start_block_handle_world (fr_store_id data) (fr_repo_version data)
                (fr_file data) (fr_start_off data) w) as (G0 & _).
    destruct (w_fault (snd (get_start_block_handle _ _ _ _ w))); [reflexivity|].
    rewrite (G0 eq_refl) in H. discriminate H. }
  destruct (get_start_block_handle _ _ _ _ w) as [[[h i]|] w0]; cbn [snd] in G.
  - apply write_file_range_next_sticky. exact G.
  - unfold write_file_range_err, free_send_file_range_data. cbn [snd].
    destruct (fr_handle data); exact G.
Qed.

Lemma run_file_range_sticky (ticks : nat) :
  forall data w, w_fault w = true ->
    w_fault (snd (run_file_range ticks data w)) = true.
Proof.
  induction ticks as [|k IH]; intros data w H; [exact H|].
  rewrite run_file_range_S.
  pose proof (write_file_range_cb_sticky data w H) as Hs.
  destruct (write_file_range_cb data w) as [[d|] w']; cbn [snd] in *.
  - apply IH. exact Hs.
  - exact Hs.
Qed.

(** Any number of calls of the callback from a well-formed state. *)
Lemma run_file_range_ok (ticks : nat) :
  forall data w, fr_wf data -> fr_tick_ok data w (run_file_range ticks data w).
Proof.
  induction ticks as [|k IH]; intros data w Hwf.
  - cbn [run_file_range]. unfold fr_tick_ok. cbn [fst snd]. intros F.
    split; [exact F|].
    split; [exact Hwf|]. split; [unfold fr_same_request; repeat split|].
    repeat split.
  - rewrite run_file_range_S.
    pose proof (write_file_range_cb_ok data w Hwf) as Ht.
    destruct (write_file_range_cb data w) as [[d|] w'].
    + assert (Hgo : w_fault w' = false ->
                    fr_tick_ok data w (run_file_range k d w')).
      { intros Fw.
        destruct (Ht Fw) as (F0 & Wf & Same & H1 & H2 & H3 & H4).
        cbn [fst snd] in *.
        eapply fr_tick_ok_rebase; [exact Same| | | | | |apply IH; exact Wf]; auto. }
      intros F. apply Hgo; [|exact F].
      destruct (w_fault w') eqn:Fw; [|reflexivity].
      rewrite (run_file_range_sticky k d w' Fw) in F. discriminate F.
    + exact Ht.
Qed.

(** The state [do_file_range] installs is well formed and holds exactly
    what [do_file_range] took. *)
Lemma do_file_range_installs (req : Request) (repo : SeafRepo)
      (file_id filename operation byte_ranges user : string)
      (ret : Z) (data : SendFileRangeData) (w w1 : World) :
  do_file_range req repo file_id filename operation byte_ranges user w
    = (ret, Some data, w1) ->
  fr_wf data /\
  fs_mgr_get_seafile seaf (store_id repo) (version repo) file_id = Some (fr_file data) /\
  fr_store_id data = copy_store_id (store_id repo) /\
  fr_user data = user /\ fr_token_type data = operation /\
  fr_saved_cb data = w_cb w /\
  w_heap (free_send_file_range_data data w1) = w_heap w /\
  w_fault w1 = w_fault w /\ w_stats w1 = w_stats w /\
  w_reply_done w1 = w_reply_done w /\ w_conn_freed w1 = w_conn_freed w.
Proof.
  unfold do_file_range. intros H.
  destruct (fs_mgr_get_seafile seaf (store_id repo) (version repo) file_id) as [file|];
    [|discriminate H].
  destruct (n_blocks file =? 0); [discriminate H|].
  destruct (parse_range_val byte_ranges (file_size file)) as [| |s e];
    try discriminate H.
  unfold set_resp_disposition in H.
  destruct (g_strcmp0_ne (parse_content_type filename) "image/jpg");
    injection H as _ Hd Hw; subst data w1; fr_fields;
    (split; [left; split; reflexivity|]);
    repeat (split; [reflexivity|]);
    (split; [apply heap_ext; cbn; lia|]); repeat split.
Qed.


(** X7. The byte-range engine reports at most one statistics event and
    only together with the end of the reply: none while the reply is
    open, none when the connection is freed. The event carries the
    [file_size] of the file, not the length of the range, and its
    operation is [link-file-download] for a [download-link] token and
    [web-file-download] for every other token, [view] included. *)
Theorem range_statistics_only_with_the_reply_end
        (req : Request) (repo : SeafRepo)
        (file_id filename operation byte_ranges user : string)
        (ret : Z) (data : SendFileRangeData) (w w1 : World) (ticks : nat) :
  do_file_range req repo file_id filename operation byte_ranges user w
    = (ret, Some data, w1) ->
  w_fault (snd (run_file_range ticks data w1)) = false ->
  fs_mgr_get_seafile seaf (store_id repo) (version repo) file_id = Some (fr_file data) /\
  (w_stats (snd (run_file_range ticks data w1)) = w_stats w \/
   w_reply_done (snd (run_file_range ticks data w1)) = true /\
   fst (run_file_range ticks data w1) = None /\
   w_stats (snd (run_file_range ticks data w1)) =
     w_stats w ++
     [mkStat (copy_store_id (store_id repo)) user
             (if String.eqb operation "download-link"
              then "link-file-download"%string else "web-file-download"%string)
             (file_size (fr_file data))]).
Proof.
  intros Hdo F.
  destruct (do_file_range_installs _ _ _ _ _ _ _ _ _ _ _ Hdo)
    as (Wf & Hfile & Hst & Hus & Htt & Hcb & _ & _ & Hs & Hr & Hc).
  split; [exact Hfile|].
  pose proof (run_file_range_ok ticks data w1 Wf F) as [_ Hok].
  destruct (run_file_range ticks data w1) as [[d|] w2]; cbn [fst snd] in *.
  - destruct Hok as (_ & _ & _ & H2 & _). left. congruence.
  - destruct Hok as (_ & [(A & B & C & D & [E|E])|(A & B & C)]).
    + left. congruence.
    + right. split; [exact A|]. split; [reflexivity|].
      rewrite E, Hs. unfold range_event. now rewrite Hst, Hus, Htt.
    + left. congruence.
Qed.

(* ================================================================== *)
(** * Further properties of the dispatcher *)
(* ================================================================== *)





(** X9. A conditional request is answered by the mere presence of the
    header: with a known token and any value of [If-Modified-Since],
    [access_cb] (for an operation it serves) and [access_blks_cb] (for any
    operation) reply 304 at once, with no header and no body added; the
    repository, the file object and the block store are not consulted. *)
Theorem conditional_request_gets_not_modified
        (req : Request) (p0 token name : string) (more : list string)
        (wa : SeafileWebAccess) (since : string) (w : World) :
  CStr.g_strsplit_slash (CStr.drop 1 (req_path_full req)) = p0 :: token :: name :: more ->
  web_at_mgr_query seaf token = Some wa ->
  evhtp_kv_find (req_headers_in req) "If-Modified-Since" = Some since ->
  (p0 = "files"%string ->
   In (wa_op wa) ["view"; "download"; "download-link"]%string ->
   access_cb req w = (None, W.send_reply EVHTP_RES_NOTMOD w)) /\
  (p0 = "blks"%string ->
   access_blks_cb req w = (None, W.send_reply EVHTP_RES_NOTMOD w)).
Proof.
  intros Hpath Htok Hims. split.
  - intros -> Hop. unfold access_cb. rewrite Hpath.
    cbn [String.eqb Ascii.eqb Bool.eqb negb]. rewrite Htok.
    assert (Hok : (negb (String.eqb (wa_op wa) "view") &&
                   negb (String.eqb (wa_op wa) "download") &&
                   negb (String.eqb (wa_op wa) "download-link"))%bool = false).
    { destruct Hop as [<-|[<-|[<-|[]]]]; reflexivity. }
    rewrite Hok. unfold can_use_cached_content. rewrite Hims. reflexivity.
  - intros ->. unfold access_blks_cb. rewrite Hpath.
    cbn [String.eqb Ascii.eqb Bool.eqb negb]. rewrite Htok.
    unfold can_use_cached_content. rewrite Hims. reflexivity.
Qed.



(* ================================================================== *)
(** * Properties of the content type *)
(* ================================================================== *)

Lemma strrchr_none (s : string) (c : ascii) :
  CStr.strchr s c = None -> CStr.strrchr s c = None.
Proof.
  induction s as [|a s IH]; cbn [CStr.strchr CStr.strrchr]; intros H; [reflexivity|].
  destruct (Ascii.eqb a c); [discriminate H|].
  destruct (CStr.strchr s c); [discriminate H|]. now rewrite IH.
Qed.

Lemma strrchr_app_last (stem ext : string) (c : ascii) :
  CStr.strchr ext c = None ->
  CStr.strrchr (stem ++ String c ext)%string c = Some (String.length stem).
Proof.
  intros H. induction stem as [|a stem IH]; cbn [String.append CStr.strrchr String.length].
  - rewrite (strrchr_none _ _ H). now rewrite Ascii.eqb_refl.
  - now rewrite IH.
Qed.

(** X12. The content type is decided by the text after the last dot of
    the file name and by nothing else: a name [stem.ext] whose [ext] has
    no dot gets the table entry of [ext], compared with case, whatever
    [stem] is, and a name without a dot has no type, for which
    [application/octet-stream] is sent. *)
Theorem content_type_is_decided_by_the_last_suffix (stem ext : string) :
  CStr.strchr ext "." = None ->
  parse_content_type (stem ++ "." ++ ext)%string = ftmap_lookup ftmap ext /\
  parse_content_type ext = None /\
  content_type_of (parse_content_type ext) = "application/octet-stream"%string.
Proof.
  intros H. unfold parse_content_type.
  change (stem ++ "." ++ ext)%string with (stem ++ String "." ext)%string.
  rewrite (strrchr_app_last stem ext "." H).
  rewrite (strrchr_none _ _ H).
  split; [|split; reflexivity].
  f_equal.
  replace (S (String.length stem)) with (String.length (stem ++ ".")%string)
    by (rewrite length_append; cbn; lia).
  change (stem ++ String "." ext)%string with (stem ++ "." ++ ext)%string.
  rewrite <- append_assoc'. apply drop_app_length.
Qed.

(** X13. The charset parameter is added for [txt] only: for every suffix
    of the table the Content-Type sent is the table entry itself, except
    for [txt], which is sent as [text/plain; charset=gbk]. *)
Theorem charset_is_added_for_txt_only (ext type : string) :
  ftmap_lookup ftmap ext = Some type ->
  content_type_of (Some type) =
  if String.eqb ext "txt" then "text/plain; charset=gbk"%string else type.
Proof.
  unfold ftmap. intros H.
  repeat (cbn [ftmap_lookup] in H;
          match type of H with
          | (if String.eqb ext ?s then _ else _) = _ =>
              let E := fresh "E" in
              destruct (String.eqb ext s) eqn:E;
              [apply String.eqb_eq in E; injection H as <-; subst ext; reflexivity|]
          end).
  discriminate H.
Qed.

(* ================================================================== *)
(** * The two engines together *)
(* ================================================================== *)

Lemma block_plain_clear (raws : list bytes) : Forall2 (block_plain None) raws raws.
Proof. induction raws; constructor; [reflexivity|assumption]. Qed.

(** X14. Whole-file mode and byte-range mode agree: for an unencrypted
    file whose blocks are all in the store, cut at any byte [k] inside
    the file, the body of the range [0 .. k-1] followed by the body of the
    range [k .. size-1] is the body of the whole-file response. Each of
    the three engines runs to the end of its reply. *)
Theorem whole_file_is_two_ranges_joined
        (file : Seafile) (store : string) (ver : Z) (user tt : string)
        (cb : Callbacks) (w : World) (raws : list bytes) (k : nat) :
  Forall2 (stored store ver) (blk_sha1s file) raws ->
  Forall (fun b => Z.of_nat (List.length b) < 2 ^ 31) raws ->
  Z.of_nat (total_len raws) < 2 ^ 64 ->
  (0 < k < total_len raws)%nat ->
  exists t0 w0 t1 w1 t2 w2 b1 b2,
    run_sendfile t0
      (mkSendfileData file None false None None 0 0 store ver user tt cb) w
      = (None, w0) /\
    run_file_range t1
      (mkRangeData file None (-1) 0 (Z.of_nat k) store ver user tt cb) w
      = (None, w1) /\
    run_file_range t2
      (mkRangeData file None (-1) (Z.of_nat k) (Z.of_nat (total_len raws - k))
                   store ver user tt cb) w
      = (None, w2) /\
    w_body w1 = w_body w ++ b1 /\
    w_body w2 = w_body w ++ b2 /\
    w_body w0 = w_body w ++ b1 ++ b2 /\
    List.length b1 = k /\
    w_reply_done w0 = true /\ w_reply_done w1 = true /\ w_reply_done w2 = true.
Proof.
  intros Hst Hsmall Hmax Hk.
  assert (Hne : blk_sha1s file <> []).
  { intros E. rewrite E in Hst. inversion Hst; subst.
    unfold total_len in Hk. cbn in Hk. lia. }
  destruct (run_sendfile_complete file None store ver user tt cb w raws raws)
    as (t0 & w0 & R0 & W0); [congruence|exact Hne|exact Hst|apply block_plain_clear|].
  destruct (run_file_range_complete file 0 k store ver user tt cb w raws Hst Hsmall)
    as (t1 & w1 & R1 & W1); try lia.
  destruct (run_file_range_complete file (Z.of_nat k) (total_len raws - k) store ver
              user tt cb w raws Hst Hsmall)
    as (t2 & w2 & R2 & W2); try lia.
  apply wire_end_write_fields in W0, W1, W2.
  destruct W0 as (_ & _ & B0 & D0 & _). destruct W1 as (_ & _ & B1 & D1 & _).
  destruct W2 as (_ & _ & B2 & D2 & _).
  rewrite Nat2Z.id in B2. cbn [Z.to_nat skipn] in B1.
  exists t0, w0, t1, w1, t2, w2. do 2 eexists.
  split; [exact R0|]. split; [exact R1|]. split; [exact R2|].
  split; [exact B1|]. split; [exact B2|].
  unfold total_len in *.
  split.
  { rewrite B0. f_equal.
    rewrite (firstn_all2 (n := List.length (List.concat raws) - k))
      by (rewrite length_skipn; lia).
    symmetry. apply firstn_skipn. }
  split; [rewrite length_firstn; lia|]. auto.
Qed.

(* ================================================================== *)
(** * Properties of the archive download *)
(* ================================================================== *)

Lemma readn_chunk (fd : bytes) :
  readn fd (64 * 1024) =
  (Z.of_nat (List.length (firstn chunk_len fd)), firstn chunk_len fd, skipn chunk_len fd).
Proof.
  unfold readn. replace (64 * 1024) with BUFFER_SIZE by reflexivity.
  rewrite chunk_len_fold. rewrite to_int_small; [reflexivity|].
  pose proof (firstn_le_length chunk_len fd) as H.
  pose proof chunk_len_Z. lia.
Qed.

(** At the end of the file the callback does nothing at all. *)
Lemma write_dir_data_cb_eof (remain total : Z) (zipfile token user tt repo_id : string)
      (cb : Callbacks) (w : World) (z : ZipLedger) :
  write_dir_data_cb (mkDirData remain total [] zipfile token user tt repo_id cb) w z
  = (Some (mkDirData remain total [] zipfile token user tt repo_id cb), w, z).
Proof.
  unfold write_dir_data_cb. cbn [zd_zipfd]. rewrite readn_chunk.
  rewrite firstn_nil, skipn_nil. reflexivity.
Qed.

(** With bytes left to read the callback writes the next chunk, and ends
    the reply exactly when the count [remain] has come down to zero. *)
Lemma write_dir_data_cb_chunk (remain total : Z) (b : byte) (rest : bytes)
      (zipfile token user tt repo_id : string)
      (cb : Callbacks) (w : World) (z : ZipLedger) :
  write_dir_data_cb
    (mkDirData remain total (b :: rest) zipfile token user tt repo_id cb) w z
  = if u64 (remain - Z.of_nat (List.length (firstn chunk_len (b :: rest)))) =? 0 then
      (None,
       W.send_statistic_msg repo_id user
         (if (String.eqb tt "download-dir-link" || String.eqb tt "download-multi-link")%bool
          then "link-file-download"%string else "web-file-download"%string)
         total
         (W.send_reply_end
            (W.pause false (W.setcb cb (W.write (firstn chunk_len (b :: rest)) w)))),
       mkZipLedger (zl_open_fds z - 1) (zl_deleted z ++ [token]) false)
    else
      (Some (mkDirData
               (u64 (remain - Z.of_nat (List.length (firstn chunk_len (b :: rest)))))
               total (skipn chunk_len (b :: rest)) zipfile token user tt repo_id cb),
       W.write (firstn chunk_len (b :: rest)) w, z).
Proof.
  unfold write_dir_data_cb. cbn [zd_zipfd]. rewrite readn_chunk.
  pose proof chunk_len_pos as Hc.
  destruct chunk_len as [|k] eqn:Ek; [lia|].
  cbn [firstn List.length].
  destruct (Z.of_nat (S (List.length (firstn k rest))) <? 0) eqn:E1;
    [apply Z.ltb_lt in E1; lia|].
  destruct (Z.of_nat (S (List.length (firstn k rest))) >? 0) eqn:E2;
    [|rewrite Z.gtb_ltb in E2; apply Z.ltb_ge in E2; lia].
  unfold zd_set_read.
  cbn [zd_remain zd_total_size zd_zipfd zd_zipfile zd_token zd_user zd_token_type
       zd_repo_id zd_saved_cb].
  destruct (u64 (remain - Z.of_nat (S (List.length (firstn k rest)))) =? 0);
    reflexivity.
Qed.

Lemma run_send_dir_S (k : nat) (data : SendDirData) (w : World) (z : ZipLedger) :
  run_send_dir (S k) data w z =
  match write_dir_data_cb data w z with
  | (Some data', w', z') => run_send_dir k data' w' z'
  | (None, w', z') => (None, w', z')
  end.
Proof. reflexivity. Qed.

(** A non-empty rest of the archive whose length is the count [remain]
    is delivered in finitely many calls, and the last one ends the
    reply. *)
Lemma run_send_dir_drains (n : nat) :
  forall rest : bytes, rest <> [] -> (List.length rest <= n)%nat ->
  Z.of_nat (List.length rest) < 2 ^ 64 ->
  forall (total : Z) (zipfile token user tt repo_id : string)
         (cb : Callbacks) (w : World) (z : ZipLedger),
  exists ticks,
    run_send_dir ticks
      (mkDirData (Z.of_nat (List.length rest)) total rest zipfile token user tt
                 repo_id cb) w z
    = (None,
       W.send_statistic_msg repo_id user
         (if (String.eqb tt "download-dir-link" || String.eqb tt "download-multi-link")%bool
          then "link-file-download"%string else "web-file-download"%string)
         total
         (W.send_reply_end (W.pause false (W.setcb cb (W.write rest w)))),
       mkZipLedger (zl_open_fds z - 1) (zl_deleted z ++ [token]) false).
Proof.
  induction n as [|n IH]; intros rest Hne Hlen Hmax total zipfile token user tt
                                 repo_id cb w z.
  - destruct rest; [congruence|cbn in Hlen; lia].
  - destruct rest as [|b rest]; [congruence|].
    pose proof (firstn_skipn chunk_len (b :: rest)) as Hsplit.
    pose proof (firstn_le_length chunk_len (b :: rest)) as Hle.
    assert (Hlen' : List.length (b :: rest) =
                    (List.length (firstn chunk_len (b :: rest)) +
                     List.length (skipn chunk_len (b :: rest)))%nat).
    { rewrite <- length_app, Hsplit. reflexivity. }
    assert (Hrem : u64 (Z.of_nat (List.length (b :: rest)) -
                        Z.of_nat (List.length (firstn chunk_len (b :: rest))))
                   = Z.of_nat (List.length (skipn chunk_len (b :: rest)))).
    { rewrite u64_small by lia. lia. }
    destruct (skipn chunk_len (b :: rest)) as [|b' rest'] eqn:Eskip.
    + exists 1%nat. rewrite run_send_dir_S, write_dir_data_cb_chunk.
      rewrite Hrem. cbn [List.length Z.of_nat Z.eqb].
      rewrite app_nil_r in Hsplit. rewrite Hsplit. reflexivity.
    + destruct (IH (b' :: rest')) with
        (total := total) (zipfile := zipfile) (token := token) (user := user)
        (tt := tt) (repo_id := repo_id) (cb := cb)
        (w := W.write (firstn chunk_len (b :: rest)) w) (z := z) as [ticks Ht].
      { discriminate. }
      { pose proof (skipn_shorter chunk_len (b :: rest) chunk_len_pos) as Hs.
        rewrite Eskip in Hs. assert (b :: rest <> []) by discriminate.
        specialize (Hs H). lia. }
      { lia. }
      exists (S ticks). rewrite run_send_dir_S, write_dir_data_cb_chunk.
      rewrite Hrem, Eskip.
      destruct (Z.of_nat (List.length (b' :: rest')) =? 0) eqn:E0;
        [apply Z.eqb_eq in E0; cbn [List.length] in E0; lia|].
      rewrite Ht. rewrite write_write. rewrite Hsplit. reflexivity.
Qed.

(** X15. An archive whose size on disk is what [seaf_stat] reports is
    delivered whole: [start_download_zip_file] starts a 200 reply of type
    [application/zip] with the size as Content-Length, and the transport,
    driving [write_dir_data_cb], receives exactly the bytes of the file;
    then the reply is ended, one statistics event with the size is
    reported ([link-file-download] for the two link operations,
    [web-file-download] otherwise), the descriptor is closed and the zip
    progress of the token is deleted. *)
Theorem archive_is_delivered_whole
        (req : Request) (token zipname zipfile repo_id user tt : string)
        (content : bytes) (w : World) (z : ZipLedger) :
  seaf_stat zipfile = Some (Z.of_nat (List.length content)) ->
  g_open zipfile = Some content ->
  content <> [] ->
  Z.of_nat (List.length content) < 2 ^ 64 ->
  exists data w1 z1,
    start_download_zip_file req token zipname zipfile repo_id user tt w z
      = (0, Some data, w1, z1) /\
    w_status w1 = Some EVHTP_RES_OK /\
    header_values w1 "Content-Type" =
      header_values w "Content-Type" ++ ["application/zip"%string] /\
    header_values w1 "Content-Length" =
      header_values w "Content-Length" ++ [fmt_u64 (Z.of_nat (List.length content))] /\
    zl_dir_cb z1 = true /\
    zl_open_fds z1 = zl_open_fds z + 1 /\
    exists ticks w2 z2,
      run_send_dir ticks data w1 z1 = (None, w2, z2) /\
      w_body w2 = w_body w ++ content /\
      w_reply_done w2 = true /\
      w_conn_freed w2 = w_conn_freed w /\
      w_stats w2 =
        w_stats w ++
        [mkStat (CStr.snprintf 37 repo_id) user
                (if (String.eqb tt "download-dir-link" ||
                     String.eqb tt "download-multi-link")%bool
                 then "link-file-download"%string else "web-file-download"%string)
                (Z.of_nat (List.length content))] /\
      w_cb w2 = w_cb w /\
      zl_open_fds z2 = zl_open_fds z /\
      zl_deleted z2 = zl_deleted z ++ [token] /\
      zl_dir_cb z2 = false.
Proof.
  intros Hstat Hopen Hne Hmax.
  unfold start_download_zip_file. rewrite Hstat, Hopen.
  rewrite u64_small by lia.
  do 3 eexists. split; [reflexivity|].
  split; [reflexivity|].
  split.
  { unfold W.send_reply_start, W.pause, header_values at 1. cbn [w_headers_out].
    change (map snd (filter (fun kv => String.eqb (fst kv) "Content-Type")
                            (w_headers_out ?x)))
      with (header_values x "Content-Type").
    rewrite !header_values_add. cbn [String.eqb Ascii.eqb Bool.eqb].
    rewrite ?app_nil_r. reflexivity. }
  split.
  { unfold W.send_reply_start, W.pause, header_values at 1. cbn [w_headers_out].
    change (map snd (filter (fun kv => String.eqb (fst kv) "Content-Length")
                            (w_headers_out ?x)))
      with (header_values x "Content-Length").
    rewrite !header_values_add. cbn [String.eqb Ascii.eqb Bool.eqb].
    rewrite ?app_nil_r. reflexivity. }
  split; [reflexivity|]. split; [reflexivity|].
  match goal with
  | |- exists ticks w2 z2,
         run_send_dir ticks (mkDirData _ ?tot _ ?zf ?tk ?us ?ty ?rp ?cb) ?x ?y = _ /\ _ =>
      destruct (run_send_dir_drains (List.length content) content Hne (Nat.le_refl _)
                  Hmax tot zf tk us ty rp cb x y) as [ticks Ht]
  end.
  exists ticks. do 2 eexists. split; [exact Ht|].
  cbn [w_body w_reply_done w_conn_freed w_stats w_cb
       W.send_statistic_msg W.send_reply_end W.pause W.setcb W.write
       W.send_reply_start W.add_header zl_open_fds zl_deleted zl_dir_cb].
  repeat (split; [reflexivity|]). split; [lia|]. split; reflexivity.
Qed.

(** X16. The archive engine ends only by reaching the size [seaf_stat]
    reported: when the file has fewer bytes than that, or none at all,
    the write callback never ends the reply, however often it is called;
    the engine stays installed, the descriptor open and the zip progress
    of the token in place. *)
Theorem archive_shorter_than_its_size_never_ends
        (req : Request) (token zipname zipfile repo_id user tt : string)
        (size : Z) (content : bytes) (w : World) (z : ZipLedger) (ticks : nat) :
  seaf_stat zipfile = Some size ->
  g_open zipfile = Some content ->
  0 <= size < 2 ^ 64 ->
  content = [] \/ Z.of_nat (List.length content) < size ->
  exists data w1 z1 data' w2,
    start_download_zip_file req token zipname zipfile repo_id user tt w z
      = (0, Some data, w1, z1) /\
    run_send_dir ticks data w1 z1 = (Some data', w2, z1) /\
    w_reply_done w2 = w_reply_done w /\
    w_conn_freed w2 = w_conn_freed w /\
    w_stats w2 = w_stats w /\
    zl_open_fds z1 = zl_open_fds z + 1 /\
    zl_deleted z1 = zl_deleted z /\
    zl_dir_cb z1 = true.
Proof.
  intros Hstat Hopen Hsize Hshort.
  unfold start_download_zip_file. rewrite Hstat, Hopen.
  rewrite u64_small by lia.
  do 3 eexists.
  match goal with
  | |- exists data' w2, (_, Some (mkDirData _ ?tot _ ?zf ?tk ?us ?ty ?rp ?cb), ?x, ?y) = _
                        /\ _ =>
      assert (Hrun : forall k rest remain w0,
                 rest = [] \/ Z.of_nat (List.length rest) < remain ->
                 remain < 2 ^ 64 ->
                 w_reply_done w0 = w_reply_done w -> w_conn_freed w0 = w_conn_freed w ->
                 w_stats w0 = w_stats w ->
                 exists data' w2,
                   run_send_dir k (mkDirData remain tot rest zf tk us ty rp cb) w0 y
                     = (Some data', w2, y) /\
                   w_reply_done w2 = w_reply_done w /\
                   w_conn_freed w2 = w_conn_freed w /\
                   w_stats w2 = w_stats w)
  end.
  { induction k as [|k IH]; intros rest remain w0 Hr Hmax H1 H2 H3.
    - do 2 eexists. split; [reflexivity|]. auto.
    - rewrite run_send_dir_S. destruct rest as [|b rest].
      + rewrite write_dir_data_cb_eof. apply IH; auto.
      + destruct Hr as [Hr|Hr]; [discriminate Hr|].
        rewrite write_dir_data_cb_chunk.
        pose proof (firstn_skipn chunk_len (b :: rest)) as Hsplit.
        assert (Hlen' : List.length (b :: rest) =
                        (List.length (firstn chunk_len (b :: rest)) +
                         List.length (skipn chunk_len (b :: rest)))%nat).
        { rewrite <- length_app, Hsplit. reflexivity. }
        assert (Hrem : u64 (remain -
                            Z.of_nat (List.length (firstn chunk_len (b :: rest))))
                       = remain - Z.of_nat (List.length (firstn chunk_len (b :: rest)))).
        { rewrite u64_small; lia. }
        rewrite Hrem.
        destruct (remain - Z.of_nat (List.length (firstn chunk_len (b :: rest))) =? 0)
          eqn:E0; [apply Z.eqb_eq in E0; lia|].
        apply IH; auto. right. lia. lia. }
  destruct (Hrun ticks content size (W.send_reply_start EVHTP_RES_OK
              (W.pause true
                 (W.add_header "Content-Disposition"
                    (CStr.snprintf SEAF_PATH_MAX
                       ("attachment;filename=" ++ dquote ++ zipname ++ ".zip" ++ dquote)%string)
                    (W.add_header "Content-Length" (fmt_u64 size)
                       (W.add_header "Content-Type" "application/zip" w))))))
    as (data' & w2 & R & A & B & C); try reflexivity; try lia; try exact Hshort.
  exists data', w2. split; [reflexivity|]. split; [exact R|].
  repeat split; assumption.
Qed.




(** X18. Most failures of the archive handler are silent: for a request
    of two path components with a known token and no If-Modified-Since,
    whenever [access_zip_cb] starts no download (the [obj_id] of the token
    is not JSON, it names neither a directory nor a file list, the
    manager has no archive for the token, or the archive cannot be
    statted or opened) it sends no reply at all: no status, no body, the
    reply not completed; nothing is opened and no zip progress is
    deleted. *)
Theorem archive_failures_get_no_reply
        (req : Request) (p0 token : string) (info : SeafileWebAccess)
        (w : World) (z : ZipLedger) :
  CStr.g_strsplit_slash (CStr.drop 1 (req_path_full req)) = [p0; token] ->
  web_at_mgr_query seaf token = Some info ->
  evhtp_kv_find (req_headers_in req) "If-Modified-Since" = None ->
  fst (fst (access_zip_cb req w z)) = None ->
  w_status (snd (fst (access_zip_cb req w z))) = w_status w /\
  w_reply_done (snd (fst (access_zip_cb req w z))) = w_reply_done w /\
  w_body (snd (fst (access_zip_cb req w z))) = w_body w /\
  snd (access_zip_cb req w z) = z.
Proof.
  intros Hpath Htok Hims. unfold access_zip_cb. rewrite Hpath, Htok.
  destruct (json_loadb (wa_obj_id info)) as [obj|]; [|intros _; repeat split].
  destruct (if json_object_has_member obj "dir_name"
            then Some match json_object_get_string_member obj "dir_name" with
                      | Some s => s
                      | None => "(null)"%string
                      end
            else if json_object_has_member obj "file_list"
                 then Some (MULTI_DOWNLOAD_FILE_PREFIX ++ local_date_now)%string
                 else None) as [filename|]; [|intros _; repeat split].
  destruct (zip_download_mgr_get_zip_file_path token) as [path|];
    [|intros _; repeat split].
  unfold can_use_cached_content. rewrite Hims.
  unfold start_download_zip_file.
  destruct (seaf_stat path) as [size|]; [|intros _; repeat split].
  destruct (g_open path) as [content|]; [|intros _; repeat split].
  cbn [fst snd]. intros H. discriminate H.
Qed.

(** X19. A conditional request for an archive: with a known token whose
    [obj_id] names a directory or a file list, an archive at the manager
    and any value of If-Modified-Since, [access_zip_cb] replies 304 with
    nothing added, opens nothing and deletes the zip progress of the
    token. *)
Theorem conditional_archive_request_deletes_the_progress
        (req : Request) (p0 token since path : string) (info : SeafileWebAccess)
        (obj : json_t) (w : World) (z : ZipLedger) :
  CStr.g_strsplit_slash (CStr.drop 1 (req_path_full req)) = [p0; token] ->
  web_at_mgr_query seaf token = Some info ->
  json_loadb (wa_obj_id info) = Some obj ->
  (json_object_has_member obj "dir_name" || json_object_has_member obj "file_list")%bool
    = true ->
  zip_download_mgr_get_zip_file_path token = Some path ->
  evhtp_kv_find (req_headers_in req) "If-Modified-Since" = Some since ->
  access_zip_cb req w z =
  (None, W.send_reply EVHTP_RES_NOTMOD w,
   mkZipLedger (zl_open_fds z) (zl_deleted z ++ [token]) (zl_dir_cb z)).
Proof.
  intros Hpath Htok Hjson Hmem Hzip Hims.
  unfold access_zip_cb. rewrite Hpath, Htok, Hjson, Hzip.
  unfold can_use_cached_content. rewrite Hims.
  destruct (json_object_has_member obj "dir_name"); [reflexivity|].
  cbn [orb] in Hmem. rewrite Hmem. reflexivity.
Qed.

(** X20. The name of the archive: for a request of two path components
    (the first is not looked at) with a known token and an archive that
    can be statted and opened, [access_zip_cb] starts the download with
    the fields of the token record, and the file name it offers is the
    [dir_name] of the token's [obj_id] followed by [.zip] when there is
    one, even if a file list is there too, and [documents-export-]
    with the local date and [.zip] for a file list alone. *)
Theorem archive_is_named_after_the_directory
        (req : Request) (p0 token path : string) (info : SeafileWebAccess)
        (obj : json_t) (size : Z) (content : bytes) (w : World) (z : ZipLedger) :
  CStr.g_strsplit_slash (CStr.drop 1 (req_path_full req)) = [p0; token] ->
  web_at_mgr_query seaf token = Some info ->
  json_loadb (wa_obj_id info) = Some obj ->
  (json_object_has_member obj "dir_name" || json_object_has_member obj "file_list")%bool
    = true ->
  zip_download_mgr_get_zip_file_path token = Some path ->
  evhtp_kv_find (req_headers_in req) "If-Modified-Since" = None ->
  seaf_stat path = Some size ->
  g_open path = Some content ->
  exists data w1 z1,
    access_zip_cb req w z = (Some data, w1, z1) /\
    w_status w1 = Some EVHTP_RES_OK /\
    zd_token data = token /\
    zd_user data = wa_username info /\
    zd_token_type data = wa_op info /\
    zd_repo_id data = CStr.snprintf 37 (wa_repo_id info) /\
    zd_zipfd data = content /\
    header_values w1 "Content-Disposition" =
      header_values w "Content-Disposition" ++
      [CStr.snprintf SEAF_PATH_MAX
         ("attachment;filename=" ++ dquote ++
          (if json_object_has_member obj "dir_name"
           then match json_object_get_string_member obj "dir_name" with
                | Some dir => dir
                | None => "(null)"
                end
           else MULTI_DOWNLOAD_FILE_PREFIX ++ local_date_now)
          ++ ".zip" ++ dquote)%string].
Proof.
  intros Hpath Htok Hjson Hmem Hzip Hims Hstat Hopen.
  unfold access_zip_cb. rewrite Hpath, Htok, Hjson.
  assert (Hname :
            (if json_object_has_member obj "dir_name"
             then Some match json_object_get_string_member obj "dir_name" with
                       | Some s => s
                       | None => "(null)"%string
                       end
             else if json_object_has_member obj "file_list"
                  then Some (MULTI_DOWNLOAD_FILE_PREFIX ++ local_date_now)%string
                  else None)
            = Some (if json_object_has_member obj "dir_name"
                    then match json_object_get_string_member obj "dir_name" with
                         | Some dir => dir
                         | None => "(null)"%string
                         end
                    else (MULTI_DOWNLOAD_FILE_PREFIX ++ local_date_now)%string)).
  { destruct (json_object_has_member obj "dir_name"); [reflexivity|].
    cbn [orb] in Hmem. now rewrite Hmem. }
  rewrite Hname, Hzip. unfold can_use_cached_content. rewrite Hims.
  unfold start_download_zip_file. rewrite Hstat, Hopen.
  do 3 eexists. split; [reflexivity|].
  repeat (split; [reflexivity|]).
  unfold W.send_reply_start, W.pause, header_values at 1. cbn [w_headers_out].
  change (map snd (filter (fun kv => String.eqb (fst kv) "Content-Disposition")
                          (w_headers_out ?x)))
    with (header_values x "Content-Disposition").
  rewrite !header_values_add. cbn [String.eqb Ascii.eqb Bool.eqb].
  rewrite ?app_nil_r. reflexivity.
Qed.

(** X21. The routes and the handlers agree on the first path component:
    a path [access_file_init] routes to [access_cb] splits into [files],
    a token and possibly more, one routed to [access_blks_cb] into
    [blks], a token and possibly more, one routed to [access_zip_cb]
    into [zip], a token and possibly more. So the test of the first
    component in [access_cb] and [access_blks_cb] never fails for a
    routed request, and their [Invalid URL] reply is that of a missing
    third component. *)
Theorem routed_path_begins_with_the_component_of_its_handler (path : string) :
  match access_file_init path with
  | Some HandleFiles =>
      exists token more,
        CStr.g_strsplit_slash (CStr.drop 1 path) = "files"%string :: token :: more
  | Some HandleBlks =>
      exists token more,
        CStr.g_strsplit_slash (CStr.drop 1 path) = "blks"%string :: token :: more
  | Some HandleZip =>
      exists token more,
        CStr.g_strsplit_slash (CStr.drop 1 path) = "zip"%string :: token :: more
  | None => True
  end.
Proof.
  assert (Hsplit : forall s cur, exists t m, CStr.split_slash s cur = t :: m).
  { induction s as [|a s IH]; intros cur; cbn [CStr.split_slash]; [eauto|].
    destruct (Ascii.eqb a "/"); [eauto|apply IH]. }
  unfold access_file_init.
  destruct (String.prefix "/files/" path) eqn:E1.
  { do 7 (destruct path as [|?c path]; [discriminate E1|];
          cbn [String.prefix] in E1;
          match type of E1 with
          | (if ascii_dec ?a ?b then _ else _) = _ =>
              destruct (ascii_dec a b); [subst|discriminate E1]
          end).
    destruct (Hsplit path ""%string) as (t & m & H).
    exists t, m. cbn. now rewrite H. }
  destruct (String.prefix "/blks/" path) eqn:E2.
  { clear E1.
    do 6 (destruct path as [|?c path]; [discriminate E2|];
          cbn [String.prefix] in E2;
          match type of E2 with
          | (if ascii_dec ?a ?b then _ else _) = _ =>
              destruct (ascii_dec a b); [subst|discriminate E2]
          end).
    destruct (Hsplit path ""%string) as (t & m & H).
    exists t, m. cbn. now rewrite H. }
  destruct (String.prefix "/zip/" path) eqn:E3; [|exact I].
  clear E1 E2.
  do 5 (destruct path as [|?c path]; [discriminate E3|];
        cbn [String.prefix] in E3;
        match type of E3 with
        | (if ascii_dec ?a ?b then _ else _) = _ =>
            destruct (ascii_dec a b); [subst|discriminate E3]
        end).
  destruct (Hsplit path ""%string) as (t & m & H).
  exists t, m. cbn. now rewrite H.
Qed.

(* ================================================================== *)
(** * Further properties of the headers and of the block handler *)
(* ================================================================== *)

(** X22. [X-Content-Type-Options: nosniff] goes out with every file
    response, whatever the file name: with every reply [do_file] sends
    for a file object it found (GET or HEAD, empty file or not), and with
    every 206 reply [do_file_range] starts. The comparison with [image/jpg]
    that guards the header never succeeds. *)
Theorem nosniff_is_sent_with_every_file_response
        (req : Request) (repo : SeafRepo)
        (file_id filename operation byte_ranges user : string)
        (key : option SeafileCryptKey) (w : World) (file : Seafile) :
  fs_mgr_get_seafile seaf (store_id repo) (version repo) file_id = Some file ->
  In ("X-Content-Type-Options", "nosniff")%string
     (w_headers_out (snd (do_file req repo file_id filename operation key user w))) /\
  (snd (fst (do_file_range req repo file_id filename operation byte_ranges user w))
     <> None ->
   In ("X-Content-Type-Options", "nosniff")%string
      (w_headers_out
         (snd (do_file_range req repo file_id filename operation byte_ranges user w)))).
Proof.
  intros Hfile. split.
  - unfold do_file. rewrite Hfile, nosniff_guard_always.
    destruct key; destruct (req_method req); try destruct (n_blocks file =? 0);
      cbn [snd w_headers_out W.send_reply_start W.send_reply W.pause W.setcb
           W.file_ref W.with_heap W.add_header];
      apply in_or_app; right; left; reflexivity.
  - unfold do_file_range. rewrite Hfile, nosniff_guard_always.
    destruct (n_blocks file =? 0); [cbn; intros H; congruence|].
    destruct (parse_range_val byte_ranges (file_size file)) as [| |s e].
    + cbn. intros H. congruence.
    + cbn. intros H. congruence.
    + intros _. unfold set_resp_disposition.
      cbn [snd w_headers_out W.send_reply_start W.pause W.setcb W.add_header].
      apply in_or_app; right; left; reflexivity.
Qed.

(** X23. What a HEAD request leaves behind: in its HEAD branch [do_file]
    completes the reply and returns with the file object still
    referenced, and with the crypt object still allocated when the
    repository is encrypted; it installs no engine and no callback that
    could release them, and opens no block and no cipher context. *)
Theorem head_reply_keeps_what_do_file_took
        (req : Request) (repo : SeafRepo)
        (file_id filename operation user : string) (key : option SeafileCryptKey)
        (w : World) (file : Seafile) :
  req_method req = htp_method_HEAD ->
  fs_mgr_get_seafile seaf (store_id repo) (version repo) file_id = Some file ->
  exists w',
    do_file req repo file_id filename operation key user w = (0, None, w') /\
    w_reply_done w' = true /\ w_cb w' = w_cb w /\ w_paused w' = w_paused w /\
    file_refs (w_heap w') = file_refs (w_heap w) + 1 /\
    crypt_objs (w_heap w') =
      crypt_objs (w_heap w) + (match key with Some _ => 1 | None => 0 end) /\
    block_handles (w_heap w') = block_handles (w_heap w) /\
    cipher_ctxs (w_heap w') = cipher_ctxs (w_heap w).
Proof.
  intros Hhead Hfile. unfold do_file. rewrite Hfile, Hhead, nosniff_guard_always.
  destruct key; eexists; (split; [reflexivity|]); cbn; repeat split; lia.
Qed.

(** What [do_block] can return. *)
Lemma do_block_cases (req : Request) (repo : SeafRepo) (user file_id blk_id : string)
      (w : World) :
  do_block req repo user file_id blk_id w = (-1, None, w) \/
  fst (fst (do_block req repo user file_id blk_id w)) = 0 /\
  match snd (fst (do_block req repo user file_id blk_id w)) with
  | None =>
      w_reply_done (snd (do_block req repo user file_id blk_id w)) = true /\
      w_status (snd (do_block req repo user file_id blk_id w)) = Some EVHTP_RES_BADREQ
  | Some _ =>
      w_status (snd (do_block req repo user file_id blk_id w)) = Some EVHTP_RES_OK /\
      w_cb (snd (do_block req repo user file_id blk_id w)) = CbSendBlock
  end.
Proof.
  unfold do_block.
  destruct (fs_mgr_get_seafile seaf (store_id repo) (version repo) file_id) as [file|];
    [right|left; reflexivity].
  destruct (do_block_find _ _ _ _); cbn [fst snd]; repeat split.
Qed.

(** X24. The only [/blks] requests left without a reply are those whose
    token has an operation other than [downloadblks]: [access_blks_cb]
    either sends a complete reply (304, 400, 403 or 500), or starts a 200
    reply with the block engine installed, or, for a request that passed
    every check with such a token, returns having sent nothing, the
    cache headers added and no status set. *)
Theorem blks_request_is_unanswered_only_for_another_operation
        (req : Request) (w : World) :
  (exists code,
     w_status (snd (access_blks_cb req w)) = Some code /\
     match fst (access_blks_cb req w) with
     | None =>
         w_reply_done (snd (access_blks_cb req w)) = true /\
         In code [304; 400; 403; 500]
     | Some (EngSendBlock _) =>
         code = 200 /\ w_cb (snd (access_blks_cb req w)) = CbSendBlock
     | Some _ => False
     end) \/
  (exists token blkid more wa,
     CStr.g_strsplit_slash (CStr.drop 1 (req_path_full req))
       = "blks"%string :: token :: blkid :: more /\
     web_at_mgr_query seaf token = Some wa /\
     wa_op wa <> "downloadblks"%string /\
     fst (access_blks_cb req w) = None /\
     w_status (snd (access_blks_cb req w)) = w_status w /\
     w_reply_done (snd (access_blks_cb req w)) = w_reply_done w /\
     w_body (snd (access_blks_cb req w)) = w_body w).
Proof.
  assert (Herr : forall msg code w0 (P : Prop),
            In code [304; 400; 403; 500] ->
            (exists c,
               w_status (snd (@None Engine, on_error msg code w0)) = Some c /\
               match fst (@None Engine, on_error msg code w0) with
               | None =>
                   w_reply_done (snd (@None Engine, on_error msg code w0)) = true /\
                   In c [304; 400; 403; 500]
               | Some (EngSendBlock _) =>
                   c = 200 /\
                   w_cb (snd (@None Engine, on_error msg code w0)) = CbSendBlock
               | Some _ => False
               end) \/ P).
  { intros msg code w0 P Hin. left. exists code. cbn [fst snd].
    split; [reflexivity|]. split; [reflexivity|exact Hin]. }
  unfold access_blks_cb.
  destruct (CStr.g_strsplit_slash (CStr.drop 1 (req_path_full req)))
    as [|p0 [|token [|blkid more]]] eqn:Hpath;
    try (apply Herr; unfold In; repeat ((left; reflexivity) || right)).
  destruct (String.eqb p0 "blks") eqn:Ep; cbn [negb];
    [apply String.eqb_eq in Ep; subst p0
    |apply Herr; unfold In; repeat ((left; reflexivity) || right)].
  destruct (web_at_mgr_query seaf token) as [wa|] eqn:Htok;
    [|apply Herr; unfold In; repeat ((left; reflexivity) || right)].
  unfold can_use_cached_content.
  destruct (evhtp_kv_find (req_headers_in req) "If-Modified-Since").
  { left. exists 304. cbn [fst snd]. split; [reflexivity|].
    split; [reflexivity|]. unfold In; repeat ((left; reflexivity) || right). }
  destruct (repo_mgr_get_repo seaf (wa_repo_id wa)) as [repo|];
    [|apply Herr; unfold In; repeat ((left; reflexivity) || right)].
  destruct (negb (fs_mgr_object_exists seaf _ _ _));
    [apply Herr; unfold In; repeat ((left; reflexivity) || right)|].
  destruct (String.eqb (wa_op wa) "downloadblks") eqn:Eop.
  - set (w0 := W.add_header "Cache-Control" "max-age=3600"
                 (W.add_header "Last-Modified" (http_date_now seaf) w)).
    destruct (do_block_cases req repo (wa_username wa) (wa_obj_id wa) blkid w0)
      as [E|(R & H)].
    + rewrite E. apply Herr. unfold In; repeat ((left; reflexivity) || right).
    + destruct (do_block req repo (wa_username wa) (wa_obj_id wa) blkid w0)
        as [[ret eng] w1].
      cbn [fst snd] in R, H. subst ret. cbn [Z.ltb Z.compare fst snd].
      left. destruct eng as [d|]; cbn [option_map].
      * exists 200. destruct H as [H1 H2]. split; [exact H1|]. split; [reflexivity|exact H2].
      * exists 400. destruct H as [H1 H2]. split; [exact H2|]. split; [exact H1|].
        unfold In; repeat ((left; reflexivity) || right).
  - right. exists token, blkid, more, wa.
    split; [reflexivity|]. split; [exact Htok|].
    split; [intros E; rewrite E in Eop; discriminate Eop|].
    cbn [fst snd]. repeat split.
Qed.

(** X25. The unit of a Range value is not looked at: the parser starts
    after the first [=], so two values that differ only before it, such
    as [bytes=0-99] and [lines=0-99], are parsed alike. *)
Theorem range_unit_is_not_checked (unit1 unit2 v : string) (fsize : Z) :
  CStr.strchr unit1 "=" = None ->
  CStr.strchr unit2 "=" = None ->
  parse_range_val (unit1 ++ "=" ++ v)%string fsize
  = parse_range_val (unit2 ++ "=" ++ v)%string fsize.
Proof.
  intros H1 H2. now rewrite !parse_range_val_strip.
Qed.

(* ================================================================== *)
(** * A range sent by a single read *)
(* ================================================================== *)

Lemma start_block_scan_bound (store : string) (ver : Z) (start : Z) (blks : list string) :
  forall i tol blkid i' tol' blkid',
    start_block_scan store ver blks i tol start blkid = Some (i', tol', blkid') ->
    i' <= i + Z.of_nat (List.length blks).
Proof.
  induction blks as [|b blks IH]; intros i tol blkid i' tol' blkid' H;
    cbn [start_block_scan] in H.
  - injection H as <- _ _. cbn. lia.
  - destruct (seaf_block_manager_stat_block store ver b) as [size|]; [|discriminate H].
    destruct (start <? u64 (tol + size)).
    + injection H as <- _ _. lia.
    + apply IH in H. cbn [List.length]. lia.
Qed.

(** When [get_start_block_handle] returns a handle, it has opened one
    block, whose index is inside the array, and done nothing else. *)
Lemma get_start_block_handle_some (store : string) (ver : Z) (file : Seafile)
      (start : Z) (w w1 : World) (h : BlockHandle) (i : Z) :
  get_start_block_handle store ver file start w = (Some (h, i), w1) ->
  w1 = W.handle 1 w /\ 0 <= i < n_blocks file.
Proof.
  unfold get_start_block_handle.
  destruct (start_block_scan store ver (blk_sha1s file) 0 0 start None)
    as [[[i0 tol] blkid]|] eqn:Escan; [|discriminate].
  pose proof (start_block_scan_index _ _ _ _ _ _ _ _ _ _ Escan) as Hlo.
  pose proof (start_block_scan_bound _ _ _ _ _ _ _ _ _ _ Escan) as Hhi.
  destruct (i0 =? n_blocks file) eqn:En; [discriminate|]. apply Z.eqb_neq in En.
  destruct blkid as [blkid|]; [|discriminate].
  destruct (seaf_block_manager_open_block store ver blkid) as [h0|]; [|discriminate].
  assert (Hi : 0 <= i0 < n_blocks file) by (unfold n_blocks in *; lia).
  destruct (start >? tol).
  - destruct (seaf_block_manager_read_block h0 _) as [[n buf] h'].
    destruct (negb _); [discriminate|].
    intros H. injection H as _ <- <-. split; [reflexivity|exact Hi].
  - intros H. injection H as _ <- <-. split; [reflexivity|exact Hi].
Qed.

(** X26. A range the engine can send with a single read is counted as a
    download of the whole file, for any token: when the range reaches
    the end of the file, is not longer than the read buffer and lies in
    what is left of its start block, the first call of
    [write_file_range_cb] sends all of it, ends the reply and reports one
    event with [file_size] as byte count, [link-file-download] for a
    [download-link] token and [web-file-download] for any other, [view]
    included. *)
Theorem range_sent_by_one_read_is_counted
        (file : Seafile) (store : string) (ver : Z) (user tt : string)
        (cb : Callbacks) (w w1 : World) (start : Z) (r : nat)
        (bsz i : Z) (rest : bytes) :
  get_start_block_handle store ver file start w = (Some (mkHandle bsz rest, i), w1) ->
  (0 < r <= List.length rest)%nat ->
  Z.of_nat r <= BUFFER_SIZE ->
  0 <= start -> start + Z.of_nat r < 2 ^ 64 ->
  file_size file <= start + Z.of_nat r ->
  exists w2,
    write_file_range_cb
      (mkRangeData file None (-1) start (Z.of_nat r) store ver user tt cb) w
      = (None, w2) /\
    w_body w2 = w_body w ++ firstn r rest /\
    w_reply_done w2 = true /\
    w_conn_freed w2 = w_conn_freed w /\
    w_cb w2 = cb /\
    w_stats w2 =
      w_stats w ++
      [mkStat store user
              (if String.eqb tt "download-link"
               then "link-file-download"%string else "web-file-download"%string)
              (file_size file)].
Proof.
  intros Hstart Hr Hbuf Hs Hmax Heof.
  destruct (get_start_block_handle_some _ _ _ _ _ _ _ _ Hstart) as [-> Hi].
  destruct (blk_at_some file i Hi) as [id Hid].
  unfold write_file_range_cb. fr_simpl.
  cbn [Z.eqb Pos.eqb]. rewrite Hstart. fr_simpl.
  cbn [write_file_range_next fr_file fr_blk_idx fr_handle fr_range_remain].
  rewrite Hid. rewrite read_block_range. fr_simpl.
  pose proof chunk_len_Z as HN. unfold BUFFER_SIZE in Hbuf.
  replace (Nat.min r chunk_len) with r by lia.
  assert (Hn : List.length (firstn r rest) = r) by (rewrite length_firstn; lia).
  rewrite Hn.
  destruct (Z.of_nat r <? 0) eqn:E1; [apply Z.ltb_lt in E1; lia|].
  destruct (Z.of_nat r =? 0) eqn:E2; [apply Z.eqb_eq in E2; lia|].
  replace (Z.of_nat r - Z.of_nat r) with 0 by lia.
  change (u64 0 =? 0) with true. cbv iota.
  rewrite (u64_small (start + Z.of_nat r)) by lia.
  destruct (start + Z.of_nat r >=? file_size file) eqn:E3;
    [|rewrite Z.geb_leb in E3; apply Z.leb_gt in E3; lia].
  eexists. split; [reflexivity|].
  unfold finish_file_range_request, free_send_file_range_data. fr_simpl.
  repeat split.
Qed.

(* ================================================================== *)
(** * A block that is missing from the store *)
(* ================================================================== *)

Section MissingBlock.

Variables (file : Seafile) (store : string) (ver : Z) (user tt : string)
          (cb : Callbacks) (missing : string) (rest : list string).
Hypothesis Hmissing : block_mgr_content seaf store ver missing = None.

(** A chunk of an open block of an unencrypted file is written as it is
    read. *)
Lemma plain_chunk (g : nat) (id : string) (bsz : Z) (b0 : byte) (raw : bytes)
      (ei : bool) (ctx : option EVP_CIPHER_CTX) (remain idx : Z) (w : World) :
  blk_at file idx = Some id ->
  write_data_next (S g)
    (mkSendfileData file None ei ctx (Some (mkHandle bsz (b0 :: raw))) remain idx
                    store ver user tt cb) w
  = (Some (mkSendfileData file None ei ctx
             (Some (mkHandle bsz (skipn chunk_len (b0 :: raw))))
             (u64 (remain - Z.of_nat (List.length (firstn chunk_len (b0 :: raw)))))
             idx store ver user tt cb),
     W.write (firstn chunk_len (b0 :: raw)) w).
Proof.
  intros Hid. cbn [write_data_next sf_file sf_idx]. rewrite Hid.
  rewrite (write_data_open_some _ _ _ (mkHandle bsz (b0 :: raw))) by reflexivity.
  rewrite read_block_chunk. sf_simpl.
  pose proof chunk_len_pos as Hc.
  destruct chunk_len as [|k] eqn:Ek; [lia|].
  cbn [firstn List.length].
  destruct (Z.of_nat (S (List.length (firstn k raw))) <? 0) eqn:E1;
    [apply Z.ltb_lt in E1; lia|].
  destruct (Z.of_nat (S (List.length (firstn k raw))) =? 0) eqn:E2;
    [apply Z.eqb_eq in E2; lia|].
  reflexivity.
Qed.

(** At the end of a block that is not the last one the callback closes
    it and goes to the next. *)
Lemma plain_eof (g : nat) (id : string) (bsz : Z)
      (ei : bool) (ctx : option EVP_CIPHER_CTX) (remain idx : Z) (w : World) :
  blk_at file idx = Some id ->
  (idx =? n_blocks file - 1) = false ->
  exists remain',
    write_data_next (S g)
      (mkSendfileData file None ei ctx (Some (mkHandle bsz [])) remain idx
                      store ver user tt cb) w
    = write_data_next g
        (mkSendfileData file None ei ctx None remain' (idx + 1)
                        store ver user tt cb) (W.handle (-1) w).
Proof.
  intros Hid Hlast. cbn [write_data_next sf_file sf_idx]. rewrite Hid.
  rewrite (write_data_open_some _ _ _ (mkHandle bsz [])) by reflexivity.
  rewrite read_block_chunk. sf_simpl. rewrite firstn_nil.
  cbn [List.length Z.of_nat Z.ltb Z.eqb Z.compare]. rewrite Hlast.
  eexists. reflexivity.
Qed.

(** Opening a block that is not in the store frees the connection. *)
Lemma plain_missing (g : nat) (ei : bool) (ctx : option EVP_CIPHER_CTX)
      (remain idx : Z) (w : World) :
  blk_at file idx = Some missing ->
  write_data_next (S g)
    (mkSendfileData file None ei ctx None remain idx store ver user tt cb) w
  = (None,
     free_sendfile_data
       (mkSendfileData file None ei ctx None remain idx store ver user tt cb)
       (W.connection_free w)).
Proof.
  intros Hid. cbn [write_data_next sf_file sf_idx]. rewrite Hid.
  unfold write_data_open, seaf_block_manager_open_block.
  cbn [sf_handle sf_store_id sf_repo_version]. rewrite Hmissing. reflexivity.
Qed.

Lemma wire_of_abort (data : SendfileData) (w : World) :
  wire (free_sendfile_data data (W.connection_free w)) = wire_abort (wire w).
Proof. rewrite wire_free_sendfile. reflexivity. Qed.

(** A call with a block open, given what the calls do that start at the
    blocks after it. *)
Lemma plain_open_abort (nexts_raw : list bytes)
      (IHc : forall next_ids, Forall2 (stored store ver) next_ids nexts_raw ->
             forall g pre ei ctx remain w,
               blk_sha1s file = pre ++ next_ids ++ missing :: rest ->
               (List.length next_ids <= g)%nat ->
               tick_abort_result file store ver user tt cb missing rest (wire w)
                 (List.concat nexts_raw)
                 (write_data_next (S g)
                    (mkSendfileData file None ei ctx None remain
                                    (Z.of_nat (List.length pre)) store ver user tt cb) w)) :
  forall next_ids, Forall2 (stored store ver) next_ids nexts_raw ->
  forall g pre cur raw bsz ei ctx remain w,
    blk_sha1s file = pre ++ cur :: next_ids ++ missing :: rest ->
    (List.length next_ids < g)%nat ->
    tick_abort_result file store ver user tt cb missing rest (wire w)
      (raw ++ List.concat nexts_raw)
      (write_data_next (S g)
         (mkSendfileData file None ei ctx (Some (mkHandle bsz raw)) remain
                         (Z.of_nat (List.length pre)) store ver user tt cb) w).
Proof.
  intros next_ids Hst g pre cur raw bsz ei ctx remain w Hids Hg.
  pose proof (blk_at_middle _ _ _ _ Hids) as Hid.
  destruct raw as [|b0 raw].
  - assert (Hlast : (Z.of_nat (List.length pre) =? n_blocks file - 1) = false).
    { apply Z.eqb_neq. rewrite (n_blocks_split _ _ _ _ Hids).
      rewrite length_app. cbn [List.length]. lia. }
    destruct (plain_eof g cur bsz ei ctx remain (Z.of_nat (List.length pre)) w Hid Hlast)
      as [remain' ->].
    destruct g as [|g']; [lia|].
    replace (Z.of_nat (List.length pre) + 1)
      with (Z.of_nat (List.length (pre ++ [cur])))
      by (rewrite length_app; cbn [List.length]; lia).
    cbn [app]. rewrite <- (wire_handle (-1) w).
    apply (IHc next_ids Hst g' (pre ++ [cur])); [|lia].
    rewrite <- app_assoc. exact Hids.
  - rewrite (plain_chunk g cur bsz b0 raw ei ctx remain _ w Hid).
    cbn [tick_abort_result].
    exists (firstn chunk_len (b0 :: raw)),
           (skipn chunk_len (b0 :: raw) ++ List.concat nexts_raw).
    split.
    { pose proof chunk_len_pos as Hc.
      destruct chunk_len; [lia|discriminate]. }
    split; [now rewrite app_assoc, firstn_skipn|].
    split; [reflexivity|].
    exists pre, cur, next_ids, nexts_raw, (skipn chunk_len (b0 :: raw)), bsz, ei, ctx.
    eexists. repeat split; [exact Hids|exact Hst].
Qed.

(** A call with no block open, before a run of stored blocks that ends
    at the missing one. *)
Lemma plain_closed_abort (nexts_raw : list bytes) :
  forall next_ids, Forall2 (stored store ver) next_ids nexts_raw ->
  forall g pre ei ctx remain w,
    blk_sha1s file = pre ++ next_ids ++ missing :: rest ->
    (List.length next_ids <= g)%nat ->
    tick_abort_result file store ver user tt cb missing rest (wire w)
      (List.concat nexts_raw)
      (write_data_next (S g)
         (mkSendfileData file None ei ctx None remain
                         (Z.of_nat (List.length pre)) store ver user tt cb) w).
Proof.
  induction nexts_raw as [|b raws IH]; intros next_ids Hst g pre ei ctx remain w Hids Hg;
    inversion Hst as [|id ? ids' ? Hid Hst']; subst.
  - cbn [app] in Hids.
    rewrite (plain_missing g ei ctx remain _ w (blk_at_middle _ _ _ _ Hids)).
    cbn [tick_abort_result List.concat]. split; [reflexivity|apply wire_of_abort].
  - cbn [app] in Hids. cbn [List.length] in Hg.
    destruct (write_data_next_opens g id b b file None ei ctx remain
                (Z.of_nat (List.length pre)) store ver user tt cb w
                (blk_at_middle _ _ _ _ Hids) Hid eq_refl)
      as (enc' & ctx' & w' & Heq & Hw & _).
    rewrite Heq, <- Hw. cbn [List.concat].
    apply (plain_open_abort raws IH ids' Hst' g pre id); [exact Hids|lia].
Qed.

(** On its way to the missing block the engine sends what is pending
    and then frees the connection. *)
Lemma run_sendfile_aborting (m : nat) :
  forall data pending w,
    sf_aborting file store ver user tt cb missing rest data pending ->
    (List.length pending <= m)%nat ->
    exists ticks w',
      run_sendfile ticks data w = (None, w') /\
      wire w' = wire_abort (wire_write pending (wire w)).
Proof.
  induction m as [|m IH]; intros data pending w Hs Hm.
  - destruct Hs as (pre & cur & next_ids & nexts_raw & raw & bsz & ei & ctx & remain
                    & Hids & Hst & -> & ->).
    pose proof (plain_open_abort nexts_raw (plain_closed_abort nexts_raw) next_ids Hst
                  (Z.to_nat (n_blocks file - Z.of_nat (List.length pre)))
                  pre cur raw bsz ei ctx remain w Hids) as Ht.
    rewrite (n_blocks_split _ _ _ _ Hids) in Ht. rewrite length_app in Ht.
    cbn [List.length] in Ht.
    specialize (Ht ltac:(lia)).
    exists 1%nat. rewrite run_sendfile_S. unfold write_data_cb. sf_simpl.
    rewrite (n_blocks_split _ _ _ _ Hids). rewrite length_app. cbn [List.length].
    destruct (write_data_next _ _ w) as [[d'|] w1]; cbn [tick_abort_result] in Ht.
    + destruct Ht as (chunk & pending' & Hne & Hp & _).
      rewrite Hp, length_app in Hm. destruct chunk; [congruence|cbn in Hm; lia].
    + destruct Ht as [Hp Hw]. eexists. split; [reflexivity|].
      rewrite Hp, wire_write_nil. exact Hw.
  - destruct Hs as (pre & cur & next_ids & nexts_raw & raw & bsz & ei & ctx & remain
                    & Hids & Hst & -> & ->).
    pose proof (plain_open_abort nexts_raw (plain_closed_abort nexts_raw) next_ids Hst
                  (Z.to_nat (n_blocks file - Z.of_nat (List.length pre)))
                  pre cur raw bsz ei ctx remain w Hids) as Ht.
    rewrite (n_blocks_split _ _ _ _ Hids) in Ht. rewrite length_app in Ht.
    cbn [List.length] in Ht.
    specialize (Ht ltac:(lia)).
    assert (Hcb : write_data_cb
                    (mkSendfileData file None ei ctx (Some (mkHandle bsz raw)) remain
                       (Z.of_nat (List.length pre)) store ver user tt cb) w
                  = write_data_next
                      (S (Z.to_nat
                            (Z.of_nat (List.length pre) + 1 +
                             Z.of_nat (List.length next_ids + S (List.length rest)) -
                             Z.of_nat (List.length pre))))
                      (mkSendfileData file None ei ctx (Some (mkHandle bsz raw)) remain
                         (Z.of_nat (List.length pre)) store ver user tt cb) w).
    { unfold write_data_cb. sf_simpl.
      rewrite (n_blocks_split _ _ _ _ Hids). rewrite length_app. reflexivity. }
    destruct (write_data_next _ _ w) as [[d'|] w1] eqn:Etick;
      cbn [tick_abort_result] in Ht.
    + destruct Ht as (chunk & pending' & Hne & Hp & Hw & Hs').
      destruct (IH d' pending' w1 Hs') as (ticks & w' & Hrun & Hw').
      { rewrite Hp, length_app in Hm. destruct chunk; [congruence|cbn in Hm; lia]. }
      exists (S ticks), w'. rewrite run_sendfile_S, Hcb.
      split; [exact Hrun|]. rewrite Hw', Hw, Hp. now rewrite wire_write_app.
    + destruct Ht as [Hp Hw]. exists 1%nat, w1.
      rewrite run_sendfile_S, Hcb. split; [reflexivity|].
      rewrite Hp, wire_write_nil. exact Hw.
Qed.

End MissingBlock.

Lemma wire_abort_write_fields (w w' : World) (p : bytes) :
  wire w' = wire_abort (wire_write p (wire w)) ->
  w_headers_out w' = w_headers_out w /\ w_status w' = w_status w /\
  w_body w' = w_body w ++ p /\ w_reply_done w' = w_reply_done w /\
  w_conn_freed w' = true /\ w_fault w' = w_fault w.
Proof.
  unfold wire, wire_abort, wire_write. intros H. injection H as H1 H2 H3 H4 H5 H6.
  auto 10.
Qed.

(** X27. A block missing from the store cuts the reply short: for an
    unencrypted file whose blocks before the missing one are stored, the
    whole-file engine sends exactly the contents of those blocks, in
    order, and then frees the connection; the reply is never ended, no
    statistics event is reported, the status and the headers already sent
    stay as they are, and the file object and the open block are
    released. *)
Theorem missing_block_cuts_the_reply_short
        (file : Seafile) (store : string) (ver : Z) (user tt : string)
        (cb : Callbacks) (w : World)
        (before : list string) (missing : string) (rest : list string)
        (raws : list bytes) :
  blk_sha1s file = before ++ missing :: rest ->
  Forall2 (stored store ver) before raws ->
  block_mgr_content seaf store ver missing = None ->
  w_reply_done w = false ->
  exists ticks w',
    run_sendfile ticks
      (mkSendfileData file None false None None 0 0 store ver user tt cb) w
      = (None, w') /\
    w_body w' = w_body w ++ List.concat raws /\
    w_conn_freed w' = true /\
    w_reply_done w' = false /\
    w_status w' = w_status w /\
    w_headers_out w' = w_headers_out w /\
    w_stats w' = w_stats w /\
    w_heap w' = w_heap (W.file_ref (-1) w).
Proof.
  intros Hids Hst Hmiss Hnd.
  assert (Hn : n_blocks file =
               Z.of_nat (List.length before) + 1 + Z.of_nat (List.length rest))
    by exact (n_blocks_split _ _ _ _ Hids).
  assert (Hrun : exists ticks w',
             run_sendfile ticks
               (mkSendfileData file None false None None 0 0 store ver user tt cb) w
               = (None, w') /\
             wire w' = wire_abort (wire_write (List.concat raws) (wire w))).
  { pose proof (plain_closed_abort file store ver user tt cb missing rest Hmiss raws
                  before Hst (Z.to_nat (n_blocks file - 0)) [] false None 0 w Hids)
      as Ht.
    specialize (Ht ltac:(lia)). cbn [List.length Z.of_nat] in Ht.
    assert (Hcb : write_data_cb
                    (mkSendfileData file None false None None 0 0 store ver user tt cb) w
                  = write_data_next (S (Z.to_nat (n_blocks file - 0)))
                      (mkSendfileData file None false None None 0 0 store ver user tt cb)
                      w) by reflexivity.
    destruct (write_data_next _ _ w) as [[d'|] w1]; cbn [tick_abort_result] in Ht.
    - destruct Ht as (chunk & pending' & Hne & Hp & Hw & Hs').
      destruct (run_sendfile_aborting file store ver user tt cb missing rest Hmiss
                  (List.length pending') d' pending' w1 Hs' (Nat.le_refl _))
        as (ticks & w' & Hr & Hw').
      exists (S ticks), w'. rewrite run_sendfile_S, Hcb. split; [exact Hr|].
      rewrite Hw', Hw, Hp. now rewrite wire_write_app.
    - destruct Ht as [Hp Hw]. exists 1%nat, w1. rewrite run_sendfile_S, Hcb.
      split; [reflexivity|]. rewrite Hp, wire_write_nil. exact Hw. }
  destruct Hrun as (ticks & w' & Hr & Hw).
  exists ticks, w'. split; [exact Hr|].
  apply wire_abort_write_fields in Hw.
  destruct Hw as (Hh & Hs & Hb & Hd & Hf & _).
  assert (Wf : sf_wf (mkSendfileData file None false None None 0 0 store ver user tt cb)).
  { split; [cbn [sf_idx sf_file]; lia|exact I]. }
  pose proof (run_sendfile_ok ticks _ w Wf) as Hok. rewrite Hr in Hok.
  destruct Hok as (_ & Hheap & [(A & _)|(_ & _ & C)]).
  - cbn [snd] in A. congruence.
  - cbn [snd] in C, Hheap.
    repeat split; try assumption; try congruence.
Qed.

(* ================================================================== *)
(** * Empty files and refused tokens *)
(* ================================================================== *)

(** X29. A file without blocks is answered at once, in both modes. For a
    request other than HEAD, [do_file] completes a 200 reply with the
    usual headers, the Content-Length being the printed [file_size],
    installs no engine and releases the file object, but keeps the crypt
    object when a decryption key was given. [do_file_range] completes a
    200 reply, not a 206, without adding any header and without parsing
    the Range value, so that even a value without [=] is harmless. *)
Theorem empty_file_is_answered_at_once
        (req : Request) (repo : SeafRepo)
        (file_id filename operation byte_ranges user : string)
        (key : option SeafileCryptKey) (w : World) (file : Seafile) :
  fs_mgr_get_seafile seaf (store_id repo) (version repo) file_id = Some file ->
  blk_sha1s file = [] ->
  req_method req <> htp_method_HEAD ->
  (exists w',
     do_file req repo file_id filename operation key user w = (0, None, w') /\
     w_status w' = Some EVHTP_RES_OK /\ w_reply_done w' = true /\
     w_body w' = w_body w /\ w_cb w' = w_cb w /\
     header_values w' "Content-Length" =
       header_values w "Content-Length" ++ [fmt_i64 (as_i64 (file_size file))] /\
     file_refs (w_heap w') = file_refs (w_heap w) /\
     crypt_objs (w_heap w') =
       crypt_objs (w_heap w) + (match key with Some _ => 1 | None => 0 end)) /\
  (exists w',
     do_file_range req repo file_id filename operation byte_ranges user w
       = (0, None, w') /\
     w_status w' = Some EVHTP_RES_OK /\ w_reply_done w' = true /\
     w_body w' = w_body w /\ w_cb w' = w_cb w /\
     w_headers_out w' = w_headers_out w /\
     w_heap w' = w_heap w /\ w_fault w' = w_fault w).
Proof.
  intros Hfile Hempty Hmeth.
  assert (Hn : (n_blocks file =? 0) = true).
  { unfold n_blocks. rewrite Hempty. reflexivity. }
  split.
  - unfold do_file. rewrite Hfile, Hn, nosniff_guard_always.
    destruct (req_method req) eqn:Em; [|congruence|];
      destruct key; eexists; (split; [reflexivity|]);
      (split; [reflexivity|]); (split; [reflexivity|]);
      (split; [reflexivity|]); (split; [reflexivity|]);
      (split;
       [unfold W.file_ref, W.with_heap, W.send_reply, header_values at 1;
        cbn [w_headers_out];
        change (map snd (filter (fun kv => String.eqb (fst kv) "Content-Length")
                                (w_headers_out ?x)))
          with (header_values x "Content-Length");
        rewrite !header_values_add; cbn [String.eqb Ascii.eqb Bool.eqb];
        rewrite ?app_nil_r; reflexivity|]);
      cbn; split; lia.
  - unfold do_file_range. rewrite Hfile, Hn.
    eexists. split; [reflexivity|]. repeat (split; [reflexivity|]).
    split; [apply heap_ext; cbn; lia|reflexivity].
Qed.

(** X30. Access is refused before anything else is looked at: for a
    [/files] request of at least three path components, an unknown token
    is answered 403 with the text [Access token not found] and a token
    whose operation is not [view], [download] or [download-link] is
    answered 403 with the text [Operation does not match access token.],
    each followed by a newline; no header is added and nothing is
    allocated, and neither the If-Modified-Since header nor the
    repository is consulted. *)
Theorem access_is_refused_before_anything_else
        (req : Request) (token filename : string) (more : list string) (w : World) :
  CStr.g_strsplit_slash (CStr.drop 1 (req_path_full req))
    = "files"%string :: token :: filename :: more ->
  match web_at_mgr_query seaf token with
  | None =>
      access_cb req w =
      (None,
       W.send_reply EVHTP_RES_FORBIDDEN
         (W.write (list_byte_of_string ("Access token not found" ++ LF)) w))
  | Some wa =>
      In (wa_op wa) ["view"; "download"; "download-link"]%string \/
      access_cb req w =
      (None,
       W.send_reply EVHTP_RES_FORBIDDEN
         (W.write (list_byte_of_string ("Operation does not match access token." ++ LF))
                  w))
  end.
Proof.
  intros Hpath. unfold access_cb. rewrite Hpath.
  cbn [String.eqb Ascii.eqb Bool.eqb negb].
  destruct (web_at_mgr_query seaf token) as [wa|]; [|reflexivity].
  destruct (String.eqb (wa_op wa) "view") eqn:E1;
    [apply String.eqb_eq in E1; left; rewrite E1; left; reflexivity|].
  destruct (String.eqb (wa_op wa) "download") eqn:E2;
    [apply String.eqb_eq in E2; left; rewrite E2; right; left; reflexivity|].
  destruct (String.eqb (wa_op wa) "download-link") eqn:E3;
    [apply String.eqb_eq in E3; left; rewrite E3; right; right; left; reflexivity|].
  right. reflexivity.
Qed.

End Server.

(* ================================================================== *)
(** * The claims of the design document, claim by claim *)
(* ================================================================== *)

Local Open Scope list_scope.

(** The handlers on the sample store, with the stand-in cipher. *)
Local Abbreviation sample_access op enc req :=
  (access_cb unit Sample.hex_to_rawdata Sample.PATH_MAX (Sample.seaf op enc) req world0).
Local Abbreviation sample_blks op req :=
  (@access_blks_cb unit Sample.PATH_MAX (Sample.seaf op false) req world0).
Local Abbreviation sample_serve op enc ticks req :=
  (serve_files unit Sample.decrypt_init Sample.decrypt_update Sample.decrypt_final
               Sample.hex_to_rawdata Sample.PATH_MAX (Sample.seaf op enc) ticks req world0).
Local Abbreviation sample_do_file op req name :=
  (do_file unit Sample.hex_to_rawdata Sample.PATH_MAX (Sample.seaf op false) req
           (Sample.repo false) "F" name op None "alice" world0).
Local Abbreviation sample_do_file_range op req name range :=
  (do_file_range (Sample.seaf op false) req (Sample.repo false) "F" name op range
                 "alice" world0).
Local Abbreviation sample_run_sendfile op enc :=
  (run_sendfile unit Sample.decrypt_init Sample.decrypt_update Sample.decrypt_final
                (Sample.seaf op enc)).

Lemma sample_blocks_stored (op : string) (enc : bool) :
  Forall2 (stored (Sample.seaf op enc) (copy_store_id (store_id (Sample.repo enc)))
                  (version (Sample.repo enc)))
          (blk_sha1s Sample.file) [Sample.dataA; Sample.dataB; Sample.dataC].
Proof. repeat constructor. Qed.

(** Witness of C1: the three-block file, requested whole. *)
Lemma whole_file_body_witness :
  exists data w1,
    sample_do_file "download" (Sample.get "/files/T/hello.txt" []) "hello.txt"
      = (0, Some data, w1) /\
    w_status w1 = Some 200 /\
    header_values w1 "Content-Length" = [fmt_u64 (file_size Sample.file)] /\
    exists ticks w2,
      sample_run_sendfile "download" false ticks data w1 = (None, w2) /\
      w_status w2 = Some 200 /\
      w_headers_out w2 = w_headers_out w1 /\
      w_body w2 =
        w_body world0 ++ List.concat [Sample.dataA; Sample.dataB; Sample.dataC] /\
      w_reply_done w2 = true /\
      w_conn_freed w2 = w_conn_freed world0 /\
      w_fault w2 = w_fault world0.
Proof.
  apply (whole_file_body_is_block_concatenation
           unit Sample.decrypt_init Sample.decrypt_update Sample.decrypt_final
           Sample.hex_to_rawdata Sample.PATH_MAX (Sample.seaf "download" false)
           (Sample.get "/files/T/hello.txt" []) (Sample.repo false)
           "F" "hello.txt" "download" "alice" world0 Sample.file
           [Sample.dataA; Sample.dataB; Sample.dataC]).
  - reflexivity.
  - reflexivity.
  - discriminate.
  - cbn. lia.
  - apply sample_blocks_stored.
  - reflexivity.
Defined.

Lemma sample_blocks_small :
  Forall (fun b : bytes => Z.of_nat (List.length b) < 2 ^ 31)
         [Sample.dataA; Sample.dataB; Sample.dataC].
Proof. repeat constructor. Qed.

(** Witness of C2: bytes 150 to 199 of the three-block file. *)
Lemma byte_range_body_witness :
  exists data w1,
    sample_do_file_range "download"
      (Sample.get "/files/T/hello.txt" [("Range", "bytes=150-199")])
      "hello.txt" "bytes=150-199" = (0, Some data, w1) /\
    w_status w1 = Some 206 /\
    header_values w1 "Content-Range" =
      [("bytes " ++ fmt_u64 150 ++ "-" ++ fmt_u64 199 ++ "/"
                 ++ fmt_u64 (file_size Sample.file))%string] /\
    header_values w1 "Content-Length" = [fmt_u64 (199 - 150 + 1)] /\
    exists ticks w2,
      run_file_range (Sample.seaf "download" false) ticks data w1 = (None, w2) /\
      w_status w2 = Some 206 /\
      w_headers_out w2 = w_headers_out w1 /\
      w_body w2 =
        w_body world0 ++
        firstn (Z.to_nat (199 - 150 + 1))
               (skipn (Z.to_nat 150)
                      (List.concat [Sample.dataA; Sample.dataB; Sample.dataC])) /\
      w_reply_done w2 = true /\
      w_conn_freed w2 = w_conn_freed world0 /\
      w_fault w2 = w_fault world0.
Proof.
  apply (byte_range_body_is_slice
           (Sample.seaf "download" false)
           (Sample.get "/files/T/hello.txt" [("Range", "bytes=150-199")])
           (Sample.repo false) "F" "hello.txt" "download" "bytes=150-199" "alice"
           world0 Sample.file [Sample.dataA; Sample.dataB; Sample.dataC] 150 199).
  - reflexivity.
  - apply sample_blocks_stored.
  - apply sample_blocks_small.
  - reflexivity.
  - reflexivity.
  - reflexivity.
  - cbn [file_size Sample.file]. lia.
  - reflexivity.
  - reflexivity.
Defined.

Lemma sample_cipher_streams : update_streams unit Sample.decrypt_update.
Proof.
  intros cx a b _ _. unfold Sample.decrypt_update. now rewrite map_app.
Qed.

Lemma sample_blocks_plain :
  Forall2 (block_plain unit Sample.decrypt_init Sample.decrypt_update Sample.decrypt_final
             (crypt_of Sample.hex_to_rawdata (Sample.repo true)
                       (Some (mkCryptKey "00" "00"))))
          [Sample.dataA; Sample.dataB; Sample.dataC]
          (map (map Sample.dec_byte) [Sample.dataA; Sample.dataB; Sample.dataC]).
Proof.
  repeat constructor; try discriminate; vm_compute; reflexivity.
Qed.

(** Witness of C9: the three-block file in an encrypted repository,
    requested with a Range header. *)
Lemma encrypted_range_witness :
  exists data w1,
    sample_access "view" true
      (Sample.get "/files/T/hello.txt" [("Range", "bytes=150-199")])
      = (Some (EngSendfile unit data), w1) /\
    w_status w1 = Some 200 /\
    header_values w1 "Content-Range" = [] /\
    exists ticks w2,
      sample_run_sendfile "view" true ticks data w1 = (None, w2) /\
      w_status w2 = Some 200 /\
      w_headers_out w2 = w_headers_out w1 /\
      w_body w2 =
        List.concat (map (map Sample.dec_byte) [Sample.dataA; Sample.dataB; Sample.dataC]) /\
      w_reply_done w2 = true /\
      w_conn_freed w2 = false /\
      w_fault w2 = false.
Proof.
  apply (encrypted_range_request_served_whole
           unit Sample.decrypt_init Sample.decrypt_update Sample.decrypt_final
           Sample.hex_to_rawdata Sample.PATH_MAX (Sample.seaf "view" true)
           (Sample.get "/files/T/hello.txt" [("Range", "bytes=150-199")])
           "T" "hello.txt" "bytes=150-199" [] (mkWebAccess "R" "F" "view" "alice")
           (Sample.repo true) (mkCryptKey "00" "00") Sample.file
           [Sample.dataA; Sample.dataB; Sample.dataC]
           (map (map Sample.dec_byte) [Sample.dataA; Sample.dataB; Sample.dataC])).
  - exact sample_cipher_streams.
  - reflexivity.
  - reflexivity.
  - reflexivity.
  - reflexivity.
  - reflexivity.
  - left. reflexivity.
  - reflexivity.
  - reflexivity.
  - reflexivity.
  - reflexivity.
  - reflexivity.
  - discriminate.
  - apply sample_blocks_stored.
  - exact sample_blocks_plain.
Defined.

(** Counterexample to C6 as stated: a download served whole to a client
    that is not Firefox still gets the [filename*] form. *)
Lemma disposition_plain_for_download_fails :
  header_values
    (snd (sample_do_file "download" (Sample.get "/files/T/hello.txt" []) "hello.txt"))
    "Content-Disposition"
  <> [spec_disposition (Sample.get "/files/T/hello.txt" []) "download" "hello.txt"].
Proof.
  intros H. vm_compute in H. discriminate H.
Qed.

(** Witness of C6 (amended): a download of the sample file. *)
Lemma disposition_by_mode_witness :
  (let attach := (String.eqb "download" "download" || String.eqb "download" "download-link")%bool in
   header_values
     (snd (sample_do_file "download" (Sample.get "/files/T/hello.txt" []) "hello.txt"))
     "Content-Disposition"
   = [disposition_value attach
        (attach || test_firefox (Sample.get "/files/T/hello.txt" [])) "hello.txt"]) /\
  (blk_sha1s Sample.file <> [] ->
   "download"%string = "download"%string \/ "download"%string = "view"%string ->
   forall start end_,
     parse_range_val "bytes=150-199" (file_size Sample.file) = RangeOk start end_ ->
     header_values
       (snd (sample_do_file_range "download" (Sample.get "/files/T/hello.txt" [])
                                  "hello.txt" "bytes=150-199"))
       "Content-Disposition"
     = [disposition_value (String.eqb "download" "download")
          (test_firefox (Sample.get "/files/T/hello.txt" [])) "hello.txt"]).
Proof.
  apply (disposition_by_mode unit Sample.hex_to_rawdata Sample.PATH_MAX
           (Sample.seaf "download" false) (Sample.get "/files/T/hello.txt" [])
           (Sample.repo false) "F" "hello.txt" "download" "alice" None "bytes=150-199"
           world0 Sample.file).
  - reflexivity.
  - vm_compute. lia.
  - reflexivity.
Defined.

Local Open Scope string_scope.
Local Open Scope Z_scope.

(** C3 (amended). For every file size of at least one byte and every
    header value with an [=]: a success yields an inclusive pair with
    [0 <= start <= end < file_size]; the forms [-N], [N-] and [N-M]
    succeed exactly when [start <= end] after [end] is clamped to
    [file_size - 1]; a value without [-], with text after the numbers, the
    value [-0] and multi-range values are refused. *)
Theorem parse_range_val_single_range (pre : string) (fsize : Z) :
  CStr.strchr pre "=" = None ->
  1 <= fsize < 2 ^ 64 ->
  range_parser_contract pre fsize.
Proof.
  intros Hpre Hf. unfold range_parser_contract.
  split; [intros v s e H; exact (parse_range_val_sound _ _ _ _ Hf H)|].
  repeat split.
  - intros n Hn. apply parse_suffix_form; assumption.
  - intros n Hn. apply parse_from_form; assumption.
  - intros n m Hn Hm. apply parse_closed_form; assumption.
  - intros v Hv. apply parse_range_val_no_minus; assumption.
  - intros n g Hn Hg. apply parse_suffix_garbage; assumption.
  - intros n m g Hn Hm Hg. apply parse_closed_garbage; assumption.
  - apply (parse_closed_garbage pre fsize Hpre 0 5 ",10-20");
      [lia | lia | split; [discriminate | reflexivity]].
Qed.

(** Witness of C3 (amended): the header values behind [bytes=] for a file
    of 250 bytes. *)
Lemma parse_range_val_single_range_witness :
  CStr.strchr "bytes" "=" = None /\ 1 <= 250 < 2 ^ 64 /\
  range_parser_contract "bytes" 250.
Proof.
  split; [reflexivity|]. split; [lia|].
  apply (parse_range_val_single_range "bytes" 250); [reflexivity | lia].
Defined.

(** Counterexample to C3 as stated: for a file size of zero the parser
    succeeds with an end that is not below the file size, and for a size
    of ten it accepts [5--3], which has none of the three forms. *)
Lemma parse_range_val_claim_fails :
  (exists s e, parse_range_val "bytes=0-" 0 = RangeOk s e /\ ~ (0 <= s <= e /\ e < 0)) /\
  parse_range_val "bytes=5--3" 10 = RangeOk 5 9.
Proof.
  split; [|reflexivity].
  exists 0, (2 ^ 64 - 1). split; [reflexivity|]. lia.
Qed.

(** C10 (the code faults). A header value without [=] makes [strchr]
    return NULL, and [parse_range_val] hands [NULL + 1] to [g_strdup]. *)
Theorem parse_range_val_without_equals_faults :
  (forall fsize, parse_range_val "0-499" fsize = RangeFault) /\
  w_fault (snd (sample_access "view" false
                  (Sample.get "/files/T/hello.txt" [("Range", "0-499")]))) = true.
Proof.
  split; [intros fsize; reflexivity | vm_compute; reflexivity].
Qed.


(** C4 (the code differs). The range [bytes=0-] of the three-block file
    ends at the last byte of the file, is delivered completely, and no
    statistics event is fired; the range [bytes=-10], served by one read,
    does fire it. In general no range that starts more than one read
    buffer before the end of the file fires the event, wherever it ends. *)
Theorem range_to_eof_in_several_reads_fires_no_statistic :
  (let w := snd (sample_serve "download" false 10%nat
                   (Sample.get "/files/T/hello.txt" [("Range", "bytes=0-")])) in
   header_values w "Content-Range" = ["bytes 0-249/250"] /\
   w_body w = Sample.dataA ++ Sample.dataB ++ Sample.dataC /\
   w_reply_done w = true /\
   w_stats w = [])%list /\
  (let w := snd (sample_serve "download" false 10%nat
                   (Sample.get "/files/T/hello.txt" [("Range", "bytes=-10")])) in
   header_values w "Content-Range" = ["bytes 240-249/250"] /\
   w_reply_done w = true /\
   w_stats w = [mkStat Sample.sid "alice" "web-file-download" 250])%list /\
  (forall (seaf : SeafileSession) (ticks : nat) (data : SendFileRangeData) (w : World),
      0 <= fr_start_off data -> 0 <= fr_range_remain data ->
      fr_start_off data + BUFFER_SIZE < file_size (fr_file data) ->
      file_size (fr_file data) < 2 ^ 64 ->
      w_stats (snd (run_file_range seaf ticks data w)) = w_stats w).
Proof.
  split; [vm_compute; repeat split|].
  split; [vm_compute; repeat split|].
  intros seaf ticks data w Hs Hr Hfar Hmax.
  apply run_file_range_far_from_eof_no_stat; assumption.
Qed.

(** C5 (the code differs). A HEAD request on [/files] is answered
    completely, installs no engine and no callback, and leaves the file
    object referenced by the request; the same file requested with GET
    and streamed to its end leaves nothing behind. *)
Theorem head_request_keeps_file_object :
  (let r := sample_serve "view" false 10%nat (Sample.head "/files/T/hello.txt") in
   fst r = None /\ w_status (snd r) = Some 200 /\ w_reply_done (snd r) = true /\
   w_cb (snd r) = CbEvhtp /\ file_refs (w_heap (snd r)) = 1) /\
  (let r := sample_serve "view" false 10%nat (Sample.get "/files/T/hello.txt" []) in
   fst r = None /\ w_reply_done (snd r) = true /\ w_heap (snd r) = mkHeap 0 0 0 0).
Proof.
  vm_compute. repeat split.
Qed.

(** C7 (the code differs). For each of the four JPEG suffixes the
    response has the content type [image/jpeg] and carries
    [X-Content-Type-Options: nosniff]. *)
Theorem jpeg_response_carries_nosniff :
  Forall (fun name =>
            let w := snd (sample_access "view" false
                            (Sample.get ("/files/T/" ++ name) [])) in
            header_values w "Content-Type" = ["image/jpeg"]%list /\
            header_values w "X-Content-Type-Options" = ["nosniff"]%list)
         ["photo.jpg"; "photo.JPG"; "photo.jpeg"; "photo.JPEG"]%list.
Proof.
  repeat constructor.
Qed.

(** C8 (the code differs). A GET on [/blks] with a token whose operation
    is [view] gets no reply: no status, no body, the reply not completed;
    with [downloadblks] the same request is answered 200. *)
Theorem blks_operation_mismatch_gets_no_reply :
  (let r := sample_blks "view" (Sample.get ("/blks/T/" ++ Sample.blkA) []) in
   fst r = None /\ w_status (snd r) = None /\ w_body (snd r) = []%list /\
   w_reply_done (snd r) = false) /\
  (let r := sample_blks "downloadblks" (Sample.get ("/blks/T/" ++ Sample.blkA) []) in
   w_status (snd r) = Some 200).
Proof.
  vm_compute. repeat split.
Qed.

(* ================================================================== *)
(** * Further properties, on the sample store *)
(* ================================================================== *)

(** X1 on the sample store: the first block of the file. *)
Lemma block_request_delivers_the_block_witness :
  exists data w1,
    do_block Sample.PATH_MAX (Sample.seaf "downloadblks" false)
             (Sample.get ("/blks/T/" ++ Sample.blkA) []) (Sample.repo false)
             "alice" "F" Sample.blkA world0 = (0, Some data, w1) /\
    w_status w1 = Some EVHTP_RES_OK /\
    w_reply_done w1 = w_reply_done world0 /\
    w_cb w1 = CbSendBlock /\
    header_values w1 "Content-Length" =
      (header_values world0 "Content-Length"
         ++ [fmt_u64 (Z.of_nat (List.length Sample.dataA))])%list /\
    header_values w1 "Content-Type" = header_values world0 "Content-Type" /\
    header_values w1 "Content-Disposition" =
      (header_values world0 "Content-Disposition" ++
       [CStr.snprintf Sample.PATH_MAX
          (if test_firefox (Sample.get ("/blks/T/" ++ Sample.blkA) [])
           then "attachment;filename*=" ++ dquote ++ "utf-8' '" ++ Sample.blkA ++ dquote
           else "attachment;filename=" ++ dquote ++ Sample.blkA ++ dquote)])%list /\
    exists ticks w2,
      run_send_block (Sample.seaf "downloadblks" false) ticks data w1 = (None, w2) /\
      w_body w2 = (w_body world0 ++ Sample.dataA)%list /\
      w_reply_done w2 = true /\
      w_conn_freed w2 = w_conn_freed world0 /\
      w_status w2 = Some EVHTP_RES_OK /\
      w_stats w2 =
        (w_stats world0 ++
         [mkStat (store_id (Sample.repo false)) "alice" "web-file-download"
                 (Z.of_nat (List.length Sample.dataA))])%list /\
      w_cb w2 = w_cb world0 /\
      w_heap w2 = w_heap world0.
Proof.
  apply (block_request_delivers_the_block
           Sample.PATH_MAX (Sample.seaf "downloadblks" false)
           (Sample.get ("/blks/T/" ++ Sample.blkA) []) (Sample.repo false)
           "alice" "F" Sample.blkA Sample.file Sample.dataA world0).
  - reflexivity.
  - left. reflexivity.
  - reflexivity.
  - reflexivity.
Defined.

(** X2 on the sample store: a block id that is not one of the file's. *)
Lemma block_outside_the_file_is_refused_witness :
  exists w',
    do_block Sample.PATH_MAX (Sample.seaf "downloadblks" false)
             (Sample.get "/blks/T/dddddddddddddddddddddddddddddddddddddddd" [])
             (Sample.repo false) "alice" "F"
             "dddddddddddddddddddddddddddddddddddddddd" world0 = (0, None, w') /\
    w_status w' = Some EVHTP_RES_BADREQ /\
    w_reply_done w' = true /\
    w_headers_out w' = w_headers_out world0 /\
    w_body w' = w_body world0 /\
    w_cb w' = w_cb world0 /\
    w_stats w' = w_stats world0 /\
    w_heap w' = w_heap world0.
Proof.
  apply (block_outside_the_file_is_refused
           Sample.PATH_MAX (Sample.seaf "downloadblks" false)
           (Sample.get "/blks/T/dddddddddddddddddddddddddddddddddddddddd" [])
           (Sample.repo false) "alice" "F"
           "dddddddddddddddddddddddddddddddddddddddd" Sample.file world0).
  - reflexivity.
  - left. repeat constructor.
Defined.



(** X5 on the sample store: a download through a share link. *)
Lemma whole_file_statistics_follow_the_operation_witness :
  exists data w1,
    sample_do_file "download-link" (Sample.get "/files/T/hello.txt" []) "hello.txt"
      = (0, Some data, w1) /\
    fs_mgr_get_seafile (Sample.seaf "download-link" false)
      (store_id (Sample.repo false)) (version (Sample.repo false)) "F"
      = Some (sf_file unit data) /\
    w_stats (snd (sample_run_sendfile "download-link" false 10%nat data w1)) =
      (w_stats world0 ++
       (if w_reply_done (snd (sample_run_sendfile "download-link" false 10%nat data w1))
        then
          if String.eqb "download-link" "view" then []
          else [mkStat (copy_store_id (store_id (Sample.repo false))) "alice"
                       (if String.eqb "download-link" "download-link"
                        then "link-file-download" else "web-file-download")
                       (file_size (sf_file unit data))]
        else []))%list /\
    (w_reply_done (snd (sample_run_sendfile "download-link" false 10%nat data w1)) = true ->
     fst (sample_run_sendfile "download-link" false 10%nat data w1) = None /\
     w_cb (snd (sample_run_sendfile "download-link" false 10%nat data w1)) = w_cb world0 /\
     w_conn_freed (snd (sample_run_sendfile "download-link" false 10%nat data w1))
       = w_conn_freed world0).
Proof.
  do 2 eexists. split; [reflexivity|].
  apply (whole_file_statistics_follow_the_operation
           unit Sample.decrypt_init Sample.decrypt_update Sample.decrypt_final
           Sample.hex_to_rawdata Sample.PATH_MAX (Sample.seaf "download-link" false)
           (Sample.get "/files/T/hello.txt" []) (Sample.repo false) "F" "hello.txt"
           "download-link" "alice" None 0).
  - reflexivity.
  - reflexivity.
Defined.


(** X7 on the sample store: the last ten bytes, with a [view] token. *)
Lemma range_statistics_only_with_the_reply_end_witness :
  exists data w1,
    sample_do_file_range "view"
      (Sample.get "/files/T/hello.txt" [("Range", "bytes=-10")])
      "hello.txt" "bytes=-10" = (0, Some data, w1) /\
    fs_mgr_get_seafile (Sample.seaf "view" false)
      (store_id (Sample.repo false)) (version (Sample.repo false)) "F"
      = Some (fr_file data) /\
    (w_stats (snd (run_file_range (Sample.seaf "view" false) 1 data w1))
       = w_stats world0 \/
     w_reply_done (snd (run_file_range (Sample.seaf "view" false) 1 data w1)) = true /\
     fst (run_file_range (Sample.seaf "view" false) 1 data w1) = None /\
     w_stats (snd (run_file_range (Sample.seaf "view" false) 1 data w1)) =
       (w_stats world0 ++
        [mkStat (copy_store_id (store_id (Sample.repo false))) "alice"
                (if String.eqb "view" "download-link"
                 then "link-file-download" else "web-file-download")
                (file_size (fr_file data))])%list).
Proof.
  do 2 eexists. split; [reflexivity|].
  apply (range_statistics_only_with_the_reply_end
           (Sample.seaf "view" false)
           (Sample.get "/files/T/hello.txt" [("Range", "bytes=-10")])
           (Sample.repo false) "F" "hello.txt" "view" "bytes=-10" "alice" 0).
  - reflexivity.
  - vm_compute. reflexivity.
Defined.


(** X9 on the sample store: a conditional request with a date that is
    none. *)
Lemma conditional_request_gets_not_modified_witness :
  ("files" = "files" ->
   In "view" ["view"; "download"; "download-link"]%list ->
   sample_access "view" false
     (Sample.get "/files/T/hello.txt" [("If-Modified-Since", "yesterday")])
   = (None, W.send_reply EVHTP_RES_NOTMOD world0)) /\
  ("files" = "blks" ->
   sample_blks "view"
     (Sample.get "/files/T/hello.txt" [("If-Modified-Since", "yesterday")])
   = (None, W.send_reply EVHTP_RES_NOTMOD world0)).
Proof.
  apply (conditional_request_gets_not_modified
           unit Sample.hex_to_rawdata Sample.PATH_MAX (Sample.seaf "view" false)
           (Sample.get "/files/T/hello.txt" [("If-Modified-Since", "yesterday")])
           "files" "T" "hello.txt" []%list (mkWebAccess "R" "F" "view" "alice")
           "yesterday" world0).
  - reflexivity.
  - reflexivity.
  - reflexivity.
Defined.


(** X12 on a name with two dots. *)
Lemma content_type_is_decided_by_the_last_suffix_witness :
  parse_content_type ("archive.tar" ++ "." ++ "zip") = ftmap_lookup ftmap "zip" /\
  parse_content_type "zip" = None /\
  content_type_of (parse_content_type "zip") = "application/octet-stream".
Proof.
  apply (content_type_is_decided_by_the_last_suffix "archive.tar" "zip").
  reflexivity.
Defined.

(** X13 on the suffix [svg]. *)
Lemma charset_is_added_for_txt_only_witness :
  content_type_of (Some "image/svg+xml") =
  if String.eqb "svg" "txt" then "text/plain; charset=gbk" else "image/svg+xml".
Proof.
  apply (charset_is_added_for_txt_only "svg" "image/svg+xml").
  reflexivity.
Defined.

(** X14 on the sample store: the file cut at byte 120, inside its second
    block. *)
Lemma whole_file_is_two_ranges_joined_witness :
  exists t0 w0 t1 w1 t2 w2 b1 b2,
    sample_run_sendfile "view" false t0
      (mkSendfileData unit Sample.file None false None None 0 0
         (copy_store_id (store_id (Sample.repo false))) (version (Sample.repo false))
         "alice" "view" CbEvhtp) world0
      = (None, w0) /\
    run_file_range (Sample.seaf "view" false) t1
      (mkRangeData Sample.file None (-1) 0 (Z.of_nat 120)
         (copy_store_id (store_id (Sample.repo false))) (version (Sample.repo false))
         "alice" "view" CbEvhtp) world0
      = (None, w1) /\
    run_file_range (Sample.seaf "view" false) t2
      (mkRangeData Sample.file None (-1) (Z.of_nat 120)
         (Z.of_nat (total_len [Sample.dataA; Sample.dataB; Sample.dataC] - 120))
         (copy_store_id (store_id (Sample.repo false))) (version (Sample.repo false))
         "alice" "view" CbEvhtp) world0
      = (None, w2) /\
    w_body w1 = (w_body world0 ++ b1)%list /\
    w_body w2 = (w_body world0 ++ b2)%list /\
    w_body w0 = (w_body world0 ++ b1 ++ b2)%list /\
    List.length b1 = 120%nat /\
    w_reply_done w0 = true /\ w_reply_done w1 = true /\ w_reply_done w2 = true.
Proof.
  apply (whole_file_is_two_ranges_joined
           unit Sample.decrypt_init Sample.decrypt_update Sample.decrypt_final
           (Sample.seaf "view" false) Sample.file
           (copy_store_id (store_id (Sample.repo false))) (version (Sample.repo false))
           "alice" "view" CbEvhtp world0
           [Sample.dataA; Sample.dataB; Sample.dataC]%list 120%nat).
  - apply sample_blocks_stored.
  - apply sample_blocks_small.
  - vm_compute. reflexivity.
  - vm_compute. split; lia.
Defined.

(** The archive handler and its engine on the sample archive. *)
Local Abbreviation sample_zip req :=
  (access_zip_cb Sample.PATH_MAX SampleArchive.seaf SampleArchive.json
                 SampleArchive.loadb SampleArchive.has_member
                 SampleArchive.get_string_member SampleArchive.zip_path
                 SampleArchive.stat SampleArchive.open SampleArchive.date req
                 world0 ledger0).
Local Abbreviation sample_start_zip :=
  (start_download_zip_file Sample.PATH_MAX SampleArchive.stat SampleArchive.open
     (Sample.get "/zip/Z" []) "Z" "photos" "/tmp/zip-Z" "R" "alice" "download-dir"
     world0 ledger0).

(** X15 on the sample archive. *)
Lemma archive_is_delivered_whole_witness :
  exists data w1 z1,
    sample_start_zip = (0, Some data, w1, z1) /\
    w_status w1 = Some EVHTP_RES_OK /\
    header_values w1 "Content-Type" =
      (header_values world0 "Content-Type" ++ ["application/zip"])%list /\
    header_values w1 "Content-Length" =
      (header_values world0 "Content-Length"
         ++ [fmt_u64 (Z.of_nat (List.length SampleArchive.content))])%list /\
    zl_dir_cb z1 = true /\
    zl_open_fds z1 = zl_open_fds ledger0 + 1 /\
    exists ticks w2 z2,
      run_send_dir ticks data w1 z1 = (None, w2, z2) /\
      w_body w2 = (w_body world0 ++ SampleArchive.content)%list /\
      w_reply_done w2 = true /\
      w_conn_freed w2 = w_conn_freed world0 /\
      w_stats w2 =
        (w_stats world0 ++
         [mkStat (CStr.snprintf 37 "R") "alice"
                 (if (String.eqb "download-dir" "download-dir-link" ||
                      String.eqb "download-dir" "download-multi-link")%bool
                  then "link-file-download" else "web-file-download")
                 (Z.of_nat (List.length SampleArchive.content))])%list /\
      w_cb w2 = w_cb world0 /\
      zl_open_fds z2 = zl_open_fds ledger0 /\
      zl_deleted z2 = (zl_deleted ledger0 ++ ["Z"])%list /\
      zl_dir_cb z2 = false.
Proof.
  apply (archive_is_delivered_whole
           Sample.PATH_MAX SampleArchive.stat SampleArchive.open
           (Sample.get "/zip/Z" []) "Z" "photos" "/tmp/zip-Z" "R" "alice"
           "download-dir" SampleArchive.content world0 ledger0).
  - reflexivity.
  - reflexivity.
  - intros H. vm_compute in H. discriminate H.
  - vm_compute. reflexivity.
Defined.

(** X16 on an archive of 250 bytes that [seaf_stat] reports as 300. *)
Lemma archive_shorter_than_its_size_never_ends_witness :
  exists data w1 z1 data' w2,
    start_download_zip_file Sample.PATH_MAX (fun _ => Some 300) SampleArchive.open
      (Sample.get "/zip/Z" []) "Z" "photos" "/tmp/zip-Z" "R" "alice" "download-dir"
      world0 ledger0 = (0, Some data, w1, z1) /\
    run_send_dir 7 data w1 z1 = (Some data', w2, z1) /\
    w_reply_done w2 = w_reply_done world0 /\
    w_conn_freed w2 = w_conn_freed world0 /\
    w_stats w2 = w_stats world0 /\
    zl_open_fds z1 = zl_open_fds ledger0 + 1 /\
    zl_deleted z1 = zl_deleted ledger0 /\
    zl_dir_cb z1 = true.
Proof.
  apply (archive_shorter_than_its_size_never_ends
           Sample.PATH_MAX (fun _ => Some 300) SampleArchive.open
           (Sample.get "/zip/Z" []) "Z" "photos" "/tmp/zip-Z" "R" "alice"
           "download-dir" 300 SampleArchive.content world0 ledger0 7).
  - reflexivity.
  - reflexivity.
  - lia.
  - right. vm_compute. reflexivity.
Defined.


(** X18 with a manager that has no archive for the token. *)
Lemma archive_failures_get_no_reply_witness :
  w_status
    (snd (fst (access_zip_cb Sample.PATH_MAX SampleArchive.seaf SampleArchive.json
                 SampleArchive.loadb SampleArchive.has_member
                 SampleArchive.get_string_member (fun _ => None)
                 SampleArchive.stat SampleArchive.open SampleArchive.date
                 (Sample.get "/zip/Z" []) world0 ledger0))) = w_status world0 /\
  w_reply_done
    (snd (fst (access_zip_cb Sample.PATH_MAX SampleArchive.seaf SampleArchive.json
                 SampleArchive.loadb SampleArchive.has_member
                 SampleArchive.get_string_member (fun _ => None)
                 SampleArchive.stat SampleArchive.open SampleArchive.date
                 (Sample.get "/zip/Z" []) world0 ledger0))) = w_reply_done world0 /\
  w_body
    (snd (fst (access_zip_cb Sample.PATH_MAX SampleArchive.seaf SampleArchive.json
                 SampleArchive.loadb SampleArchive.has_member
                 SampleArchive.get_string_member (fun _ => None)
                 SampleArchive.stat SampleArchive.open SampleArchive.date
                 (Sample.get "/zip/Z" []) world0 ledger0))) = w_body world0 /\
  snd (access_zip_cb Sample.PATH_MAX SampleArchive.seaf SampleArchive.json
         SampleArchive.loadb SampleArchive.has_member
         SampleArchive.get_string_member (fun _ => None)
         SampleArchive.stat SampleArchive.open SampleArchive.date
         (Sample.get "/zip/Z" []) world0 ledger0) = ledger0.
Proof.
  apply (archive_failures_get_no_reply
           Sample.PATH_MAX SampleArchive.seaf SampleArchive.json
           SampleArchive.loadb SampleArchive.has_member
           SampleArchive.get_string_member (fun _ => None)
           SampleArchive.stat SampleArchive.open SampleArchive.date
           (Sample.get "/zip/Z" []) "zip" "Z" SampleArchive.info world0 ledger0).
  - reflexivity.
  - reflexivity.
  - reflexivity.
  - reflexivity.
Defined.

(** X19 on the sample archive. *)
Lemma conditional_archive_request_deletes_the_progress_witness :
  sample_zip (Sample.get "/zip/Z" [("If-Modified-Since", "yesterday")]) =
  (None, W.send_reply EVHTP_RES_NOTMOD world0,
   mkZipLedger (zl_open_fds ledger0) (zl_deleted ledger0 ++ ["Z"])%list
               (zl_dir_cb ledger0)).
Proof.
  apply (conditional_archive_request_deletes_the_progress
           Sample.PATH_MAX SampleArchive.seaf SampleArchive.json
           SampleArchive.loadb SampleArchive.has_member
           SampleArchive.get_string_member SampleArchive.zip_path
           SampleArchive.stat SampleArchive.open SampleArchive.date
           (Sample.get "/zip/Z" [("If-Modified-Since", "yesterday")])
           "zip" "Z" "yesterday" "/tmp/zip-Z" SampleArchive.info
           [("dir_name", "photos")]%list world0 ledger0).
  - reflexivity.
  - reflexivity.
  - reflexivity.
  - reflexivity.
  - reflexivity.
  - reflexivity.
Defined.

(** X20 on the sample archive. *)
Lemma archive_is_named_after_the_directory_witness :
  exists data w1 z1,
    sample_zip (Sample.get "/zip/Z" []) = (Some data, w1, z1) /\
    w_status w1 = Some EVHTP_RES_OK /\
    zd_token data = "Z" /\
    zd_user data = wa_username SampleArchive.info /\
    zd_token_type data = wa_op SampleArchive.info /\
    zd_repo_id data = CStr.snprintf 37 (wa_repo_id SampleArchive.info) /\
    zd_zipfd data = SampleArchive.content /\
    header_values w1 "Content-Disposition" =
      (header_values world0 "Content-Disposition" ++
       [CStr.snprintf Sample.PATH_MAX
          ("attachment;filename=" ++ dquote ++
           (if SampleArchive.has_member [("dir_name", "photos")]%list "dir_name"
            then match SampleArchive.get_string_member
                         [("dir_name", "photos")]%list "dir_name" with
                 | Some dir => dir
                 | None => "(null)"
                 end
            else MULTI_DOWNLOAD_FILE_PREFIX ++ SampleArchive.date)
           ++ ".zip" ++ dquote)])%list.
Proof.
  apply (archive_is_named_after_the_directory
           Sample.PATH_MAX SampleArchive.seaf SampleArchive.json
           SampleArchive.loadb SampleArchive.has_member
           SampleArchive.get_string_member SampleArchive.zip_path
           SampleArchive.stat SampleArchive.open SampleArchive.date
           (Sample.get "/zip/Z" []) "zip" "Z" "/tmp/zip-Z" SampleArchive.info
           [("dir_name", "photos")]%list 250 SampleArchive.content world0 ledger0).
  - reflexivity.
  - reflexivity.
  - reflexivity.
  - reflexivity.
  - reflexivity.
  - reflexivity.
  - reflexivity.
  - reflexivity.
Defined.

(** X22 on the sample store: a JPEG, whole and by range. *)
Lemma nosniff_is_sent_with_every_file_response_witness :
  In ("X-Content-Type-Options", "nosniff")
     (w_headers_out
        (snd (sample_do_file "view" (Sample.get "/files/T/photo.jpg" []) "photo.jpg"))) /\
  (snd (fst (sample_do_file_range "view"
               (Sample.get "/files/T/photo.jpg" [("Range", "bytes=0-9")])
               "photo.jpg" "bytes=0-9")) <> None ->
   In ("X-Content-Type-Options", "nosniff")
      (w_headers_out
         (snd (sample_do_file_range "view"
                 (Sample.get "/files/T/photo.jpg" [("Range", "bytes=0-9")])
                 "photo.jpg" "bytes=0-9")))).
Proof.
  assert (H := nosniff_is_sent_with_every_file_response
                 unit Sample.hex_to_rawdata Sample.PATH_MAX (Sample.seaf "view" false)
                 (Sample.get "/files/T/photo.jpg" [("Range", "bytes=0-9")])
                 (Sample.repo false) "F" "photo.jpg" "view" "bytes=0-9" "alice" None
                 world0 Sample.file eq_refl).
  exact H.
Defined.

(** X23 on the sample store: the encrypted file, asked for with HEAD. *)
Lemma head_reply_keeps_what_do_file_took_witness :
  exists w',
    do_file unit Sample.hex_to_rawdata Sample.PATH_MAX (Sample.seaf "view" true)
            (Sample.head "/files/T/hello.txt") (Sample.repo true) "F" "hello.txt"
            "view" (Some (mkCryptKey "00" "00")) "alice" world0 = (0, None, w') /\
    w_reply_done w' = true /\ w_cb w' = w_cb world0 /\
    w_paused w' = w_paused world0 /\
    file_refs (w_heap w') = file_refs (w_heap world0) + 1 /\
    crypt_objs (w_heap w') = crypt_objs (w_heap world0) + 1 /\
    block_handles (w_heap w') = block_handles (w_heap world0) /\
    cipher_ctxs (w_heap w') = cipher_ctxs (w_heap world0).
Proof.
  apply (head_reply_keeps_what_do_file_took
           unit Sample.hex_to_rawdata Sample.PATH_MAX (Sample.seaf "view" true)
           (Sample.head "/files/T/hello.txt") (Sample.repo true) "F" "hello.txt"
           "view" "alice" (Some (mkCryptKey "00" "00")) world0 Sample.file).
  - reflexivity.
  - reflexivity.
Defined.

(** X25 on two units. *)
Lemma range_unit_is_not_checked_witness :
  parse_range_val ("bytes" ++ "=" ++ "0-99") 250
  = parse_range_val ("lines" ++ "=" ++ "0-99") 250.
Proof.
  apply (range_unit_is_not_checked "bytes" "lines" "0-99" 250).
  - reflexivity.
  - reflexivity.
Defined.

(** X26 on the sample store: the last ten bytes, with a [view] token. *)
Lemma range_sent_by_one_read_is_counted_witness :
  exists w2,
    write_file_range_cb (Sample.seaf "view" false)
      (mkRangeData Sample.file None (-1) 240 (Z.of_nat 10) Sample.sid 1 "alice" "view"
                   CbEvhtp) world0
      = (None, w2) /\
    w_body w2 = (w_body world0 ++ firstn 10 (repeat x63 10))%list /\
    w_reply_done w2 = true /\
    w_conn_freed w2 = w_conn_freed world0 /\
    w_cb w2 = CbEvhtp /\
    w_stats w2 =
      (w_stats world0 ++
       [mkStat Sample.sid "alice"
               (if String.eqb "view" "download-link"
                then "link-file-download" else "web-file-download")
               (file_size Sample.file)])%list.
Proof.
  apply (range_sent_by_one_read_is_counted
           (Sample.seaf "view" false) Sample.file Sample.sid 1 "alice" "view" CbEvhtp
           world0 (W.handle 1 world0) 240 10%nat 50 2 (repeat x63 10)).
  - vm_compute. reflexivity.
  - cbn. lia.
  - vm_compute. discriminate.
  - lia.
  - lia.
  - cbn. lia.
Defined.

(** X27 on the sample store with its third block lost. *)
Lemma missing_block_cuts_the_reply_short_witness :
  exists ticks w',
    run_sendfile unit Sample.decrypt_init Sample.decrypt_update Sample.decrypt_final
      SampleGap.seaf ticks
      (mkSendfileData unit Sample.file None false None None 0 0 Sample.sid 1
                      "alice" "download" CbEvhtp) world0
      = (None, w') /\
    w_body w' = (w_body world0 ++ List.concat [Sample.dataA; Sample.dataB])%list /\
    w_conn_freed w' = true /\
    w_reply_done w' = false /\
    w_status w' = w_status world0 /\
    w_headers_out w' = w_headers_out world0 /\
    w_stats w' = w_stats world0 /\
    w_heap w' = w_heap (W.file_ref (-1) world0).
Proof.
  apply (missing_block_cuts_the_reply_short
           unit Sample.decrypt_init Sample.decrypt_update Sample.decrypt_final
           SampleGap.seaf Sample.file Sample.sid 1 "alice" "download" CbEvhtp world0
           [Sample.blkA; Sample.blkB]%list Sample.blkC []%list
           [Sample.dataA; Sample.dataB]%list).
  - reflexivity.
  - repeat constructor.
  - reflexivity.
  - reflexivity.
Defined.

(** X29 on an empty file, with a Range value that has no [=]. *)
Lemma empty_file_is_answered_at_once_witness :
  (exists w',
     do_file unit Sample.hex_to_rawdata Sample.PATH_MAX SampleEmpty.seaf
             (Sample.get "/files/T/empty.txt" [("Range", "0-9")]) (Sample.repo false)
             "E" "empty.txt" "download" None "alice" world0 = (0, None, w') /\
     w_status w' = Some EVHTP_RES_OK /\ w_reply_done w' = true /\
     w_body w' = w_body world0 /\ w_cb w' = w_cb world0 /\
     header_values w' "Content-Length" =
       (header_values world0 "Content-Length"
          ++ [fmt_i64 (as_i64 (file_size SampleEmpty.file))])%list /\
     file_refs (w_heap w') = file_refs (w_heap world0) /\
     crypt_objs (w_heap w') = crypt_objs (w_heap world0) + 0) /\
  (exists w',
     do_file_range SampleEmpty.seaf
       (Sample.get "/files/T/empty.txt" [("Range", "0-9")]) (Sample.repo false)
       "E" "empty.txt" "download" "0-9" "alice" world0 = (0, None, w') /\
     w_status w' = Some EVHTP_RES_OK /\ w_reply_done w' = true /\
     w_body w' = w_body world0 /\ w_cb w' = w_cb world0 /\
     w_headers_out w' = w_headers_out world0 /\
     w_heap w' = w_heap world0 /\ w_fault w' = w_fault world0).
Proof.
  apply (empty_file_is_answered_at_once
           unit Sample.hex_to_rawdata Sample.PATH_MAX SampleEmpty.seaf
           (Sample.get "/files/T/empty.txt" [("Range", "0-9")]) (Sample.repo false)
           "E" "empty.txt" "download" "0-9" "alice" None world0 SampleEmpty.file).
  - reflexivity.
  - reflexivity.
  - discriminate.
Defined.

(** X30 on the sample store: a token for another operation. *)
Lemma access_is_refused_before_anything_else_witness :
  match web_at_mgr_query (Sample.seaf "downloadblks" false) "T" with
  | None =>
      sample_access "downloadblks" false
        (Sample.get "/files/T/hello.txt" [("If-Modified-Since", "yesterday")]) =
      (None,
       W.send_reply EVHTP_RES_FORBIDDEN
         (W.write (list_byte_of_string ("Access token not found" ++ LF)) world0))
  | Some wa =>
      In (wa_op wa) ["view"; "download"; "download-link"]%list \/
      sample_access "downloadblks" false
        (Sample.get "/files/T/hello.txt" [("If-Modified-Since", "yesterday")]) =
      (None,
       W.send_reply EVHTP_RES_FORBIDDEN
         (W.write (list_byte_of_string ("Operation does not match access token." ++ LF))
                  world0))
  end.
Proof.
  apply (access_is_refused_before_anything_else
           unit Sample.hex_to_rawdata Sample.PATH_MAX (Sample.seaf "downloadblks" false)
           (Sample.get "/files/T/hello.txt" [("If-Modified-Since", "yesterday")])
           "T" "hello.txt" []%list world0).
  reflexivity.
Defined.
